(** * Collaboration-graph builders of the SNA project

    A shallow embedding of the graph-building and statistics routines of
    [N.py], [Final/main.py] and [Final/1.py], together with a model of the
    part of Python (insertion-ordered [dict], [set], [itertools.combinations])
    and of the [networkx.Graph] class that those routines call.

    Layout:
    - [Py]   : Python dictionaries, sets of strings and [combinations(_, 2)];
    - [NX]   : [networkx.Graph] as its two dictionaries [_node] and [_adj];
    - [N], [Final_main], [Final_1] : the builders and the statistics of the
      three scripts;
    - [Report], [N_report], [Pyvis], [Final_1_report], [Final_main_report] :
      their printing and drawing routines, with the part of
      [pyvis.network.Network] they call;
    - the theorems about the builders, the statistics and the reports. *)

From Stdlib Require Import List String Ascii ZArith QArith Bool Arith Lia Permutation.
From Stdlib Require Import DecimalString.
Import ListNotations.

#[local] Open Scope string_scope.
#[local] Open Scope Z_scope.
#[local] Open Scope list_scope.

(* ================================================================= *)
(** ** Python containers *)

Module Py.

(** A Python [dict] keyed by strings.  Python dictionaries iterate in
    insertion order, and the builders iterate over them, so the model is an
    association list: [setitem] keeps the position of a key that is already
    present and appends a new key at the end. *)
Section Dict.
Context {V : Type}.

Definition dict := list (string * V).

Fixpoint get (d : dict) (k : string) : option V :=
  match d with
  | [] => None
  | (k', v) :: d' => if String.eqb k' k then Some v else get d' k
  end.

Definition contains (d : dict) (k : string) : bool :=
  match get d k with Some _ => true | None => false end.

Fixpoint setitem (d : dict) (k : string) (v : V) : dict :=
  match d with
  | [] => [(k, v)]
  | (k', v') :: d' =>
      if String.eqb k' k then (k', v) :: d' else (k', v') :: setitem d' k v
  end.

Definition keys (d : dict) : list string := map fst d.

Definition items (d : dict) : list (string * V) := d.

(** [d.update(e)] *)
Definition update (d e : dict) : dict :=
  fold_left (fun acc kv => setitem acc (fst kv) (snd kv)) e d.

(** [d.get(k, default)] *)
Definition get_default (d : dict) (k : string) (default : V) : V :=
  match get d k with Some v => v | None => default end.
End Dict.
Arguments dict : clear implicits.

(** A Python [set] of strings: a duplicate-free list.  The iteration order of
    a Python set is not specified by the language; the model iterates in
    order of first insertion. *)
Definition pyset := list string.

Definition mem (x : string) (s : pyset) : bool := existsb (String.eqb x) s.

Definition add (s : pyset) (x : string) : pyset :=
  if mem x s then s else s ++ [x].

(** [set(generator)] *)
Definition set_of (l : list string) : pyset := fold_left add l [].

(** [s1.intersection(s2)] *)
Definition intersection (s1 s2 : pyset) : pyset :=
  filter (fun x => mem x s2) s1.

(** truth value of a set: non-empty *)
Definition truthy (s : pyset) : bool :=
  match s with [] => false | _ :: _ => true end.

Definition len {A} (l : list A) : Z := Z.of_nat (List.length l).

(** [itertools.combinations(l, 2)]: pairs of positions [i < j], in
    lexicographic order of positions. *)
Fixpoint combinations2 {A} (l : list A) : list (A * A) :=
  match l with
  | [] => []
  | x :: r => map (pair x) r ++ combinations2 r
  end.

End Py.

(* ================================================================= *)
(** ** networkx.Graph *)

(** Attribute values stored on nodes and edges by the scripts. *)
Inductive value : Type :=
| VStr (s : string)
| VInt (z : Z)
| VList (l : list string).

Definition value_eqb (a b : value) : bool :=
  match a, b with
  | VStr s, VStr t => String.eqb s t
  | VInt x, VInt y => Z.eqb x y
  | VList l, VList m =>
      if list_eq_dec string_dec l m then true else false
  | _, _ => false
  end.

Definition attrs := Py.dict value.

Module NX.

(** [networkx.Graph] keeps a dictionary [_node] from node to its attribute
    dictionary and a dictionary [_adj] from node to the dictionary of its
    neighbours; [_adj[u][v]] and [_adj[v][u]] are one and the same attribute
    dictionary object, so every write to an edge's attributes below is made
    in both directions. *)
Record Graph : Type := mkGraph {
  _node : Py.dict attrs;
  _adj : Py.dict (Py.dict attrs)
}.

(** [nx.Graph()] *)
Definition empty : Graph := mkGraph [] [].

(** [G.add_node(n, **attr)]: a new node gets a fresh attribute dictionary and
    an empty adjacency; the attributes of an existing node are updated. *)
Definition add_node (G : Graph) (n : string) (attr : attrs) : Graph :=
  match Py.get (_node G) n with
  | None =>
      mkGraph (Py.setitem (_node G) n (Py.update [] attr))
              (Py.setitem (_adj G) n [])
  | Some a =>
      mkGraph (Py.setitem (_node G) n (Py.update a attr)) (_adj G)
  end.

(** the implicit node creation at the head of [add_edge] *)
Definition touch (G : Graph) (u : string) : Graph :=
  if Py.contains (_node G) u then G
  else mkGraph (Py.setitem (_node G) u []) (Py.setitem (_adj G) u []).

Definition nbrs (G : Graph) (u : string) : Py.dict attrs :=
  Py.get_default (_adj G) u [].

(** [self._adj[u][v] = datadict] *)
Definition set_adj (adj : Py.dict (Py.dict attrs)) (u v : string)
           (datadict : attrs) : Py.dict (Py.dict attrs) :=
  Py.setitem adj u (Py.setitem (Py.get_default adj u []) v datadict).

(** [G.add_edge(u, v, **attr)] *)
Definition add_edge (G : Graph) (u v : string) (attr : attrs) : Graph :=
  let G1 := touch G u in
  let G2 := touch G1 v in
  let datadict := Py.update (Py.get_default (nbrs G2 u) v []) attr in
  mkGraph (_node G2) (set_adj (set_adj (_adj G2) u v datadict) v u datadict).

(** [G.has_node(n)], [n in G] *)
Definition has_node (G : Graph) (n : string) : bool := Py.contains (_node G) n.

(** [G.has_edge(u, v)] *)
Definition has_edge (G : Graph) (u v : string) : bool :=
  match Py.get (_adj G) u with
  | Some nb => Py.contains nb v
  | None => false
  end.

(** [G.nodes()] in iteration order *)
Definition nodes (G : Graph) : list string := Py.keys (_node G).

(** [G.nodes[n]] *)
Definition node_attr (G : Graph) (n : string) : option attrs := Py.get (_node G) n.

(** [G.nodes[n].get(key)] *)
Definition node_get (G : Graph) (n key : string) : option value :=
  match node_attr G n with Some a => Py.get a key | None => None end.

(** [G.nodes[n][key] = v] *)
Definition node_set (G : Graph) (n key : string) (v : value) : Graph :=
  match node_attr G n with
  | Some a => mkGraph (Py.setitem (_node G) n (Py.setitem a key v)) (_adj G)
  | None => G
  end.

(** [G.neighbors(n)] in iteration order *)
Definition neighbors (G : Graph) (n : string) : list string := Py.keys (nbrs G n).

(** [G[u][v]], the attribute dictionary of an edge *)
Definition edge_attr (G : Graph) (u v : string) : option attrs :=
  match Py.get (_adj G) u with
  | Some nb => Py.get nb v
  | None => None
  end.

(** [G[u][v].get(key)] *)
Definition edge_get (G : Graph) (u v key : string) : option value :=
  match edge_attr G u v with Some a => Py.get a key | None => None end.

(** [G[u][v][key] = x]: a write through the shared attribute dictionary of
    the edge, seen from both ends. *)
Definition edge_set (G : Graph) (u v key : string) (x : value) : Graph :=
  match edge_attr G u v with
  | Some a =>
      let a' := Py.setitem a key x in
      mkGraph (_node G) (set_adj (set_adj (_adj G) u v a') v u a')
  | None => G
  end.

(** [G.edges()]: every edge once; an edge is reported from the endpoint
    that comes first in node order. *)
Fixpoint edges_from (adj : Py.dict (Py.dict attrs)) (seen : list string)
  : list (string * string) :=
  match adj with
  | [] => []
  | (n, nb) :: rest =>
      map (pair n) (filter (fun v => negb (Py.mem v seen)) (Py.keys nb))
        ++ edges_from rest (n :: seen)
  end.

Definition edges (G : Graph) : list (string * string) := edges_from (_adj G) [].

Definition number_of_nodes (G : Graph) : nat := List.length (_node G).
Definition number_of_edges (G : Graph) : nat := List.length (edges G).

(** [G.degree(n)]: the number of neighbours, a self-loop counted twice. *)
Definition degree (G : Graph) (n : string) : nat :=
  (List.length (nbrs G n) + if Py.contains (nbrs G n) n then 1 else 0)%nat.

(** [nx.degree_centrality(G)] as networkx defines it
    ([algorithms/centrality/degree_alg.py]):
    [if len(G) <= 1: return {n: 1 for n in G}], otherwise
    [s = 1.0 / (len(G) - 1.0)] and [{n: d * s for n, d in G.degree()}].
    Floating-point numbers are read as exact rationals. *)
Definition degree_centrality (G : Graph) : Py.dict Q :=
  if (number_of_nodes G <=? 1)%nat then
    map (fun n => (n, 1%Q)) (nodes G)
  else
    let s := (1 / (inject_Z (Z.of_nat (number_of_nodes G)) - 1))%Q in
    map (fun n => (n, (inject_Z (Z.of_nat (degree G n)) * s)%Q)) (nodes G).

(** *** Vocabulary for reasoning about graphs *)

Definition adj_get (adj : Py.dict (Py.dict attrs)) (x y : string)
  : option attrs :=
  match Py.get adj x with Some nb => Py.get nb y | None => None end.

(** [{u, v} = {x, y}] as unordered pairs *)
Definition same_edge (u v x y : string) : bool :=
  String.eqb u x && String.eqb v y || String.eqb v x && String.eqb u y.

Definition attrs_or_empty (o : option attrs) : attrs :=
  match o with Some a => a | None => [] end.

(** Well-formedness: the invariant that [networkx.Graph] maintains between
    its two dictionaries. *)
Record wf (G : Graph) : Prop := mkWf {
  wf_keys : Py.keys (_adj G) = Py.keys (_node G);
  wf_nodup : NoDup (Py.keys (_node G));
  wf_nbrs_nodup :
    forall u nb, Py.get (_adj G) u = Some nb -> NoDup (Py.keys nb);
  wf_sym : forall u v, edge_attr G u v = edge_attr G v u;
  wf_closed : forall u v, edge_attr G u v <> None -> has_node G v = true
}.

End NX.

(* ================================================================= *)
(** ** Input records *)

(** An entry of a profile's ["coauthors"] list; the builders read only its
    ["name"]. *)
Record Coauthor : Type := mkCoauthor { coauthor_name : string }.

(** The dictionary returned by [extract_scholar_profile].  A failed fetch
    returns [None]; the builders receive [option Profile], where [None]
    stands for any falsy argument. *)
Record Profile : Type := mkProfile {
  name : string;
  scholar_id : string;
  affiliation : string;
  coauthors : list Coauthor
}.

(** Outcome of a call that may raise. *)
Inductive exn : Type :=
| PowerIterationFailedConvergence
| KeyError (k : string).

Inductive result (A : Type) : Type :=
| Ok (a : A)
| Raise (e : exn).
Arguments Ok {A} a.
Arguments Raise {A} e.

Definition nl : string := String (ascii_of_nat 10) EmptyString.

(** integer stored under an attribute, [default] when the key is absent *)
Definition int_or (default : Z) (v : option value) : Z :=
  match v with Some (VInt z) => z | _ => default end.

Definition is_str (v : option value) (s : string) : bool :=
  match v with Some (VStr t) => String.eqb t s | _ => false end.

(* ================================================================= *)
(** ** N.py *)

Module N.

Definition create_individual_network (profile : option Profile)
  : option NX.Graph :=
  match profile with
  | None => None
  | Some profile =>
      let G := NX.empty in
      let prof_name := name profile in
      let G := NX.add_node G prof_name [("node_type", VStr "professor")] in
      let G :=
        fold_left
          (fun G coauthor =>
             let coauthor_name := coauthor_name coauthor in
             let G := NX.add_node G coauthor_name
                        [("node_type", VStr "coauthor")] in
             NX.add_edge G prof_name coauthor_name [])
          (coauthors profile) G in
      Some G
  end.

(** first loop of [find_shared_connections]: one profile *)
Definition collect (st : NX.Graph * Py.dict Py.pyset)
           (profile : option Profile) : NX.Graph * Py.dict Py.pyset :=
  match profile with
  | None => st
  | Some profile =>
      let '(G, prof_coauthors) := st in
      let prof_name := name profile in
      let coauthors := Py.set_of (map coauthor_name (coauthors profile)) in
      let prof_coauthors := Py.setitem prof_coauthors prof_name coauthors in
      (NX.add_node G prof_name [("node_type", VStr "professor")],
       prof_coauthors)
  end.

(** second loop: one pair of professors *)
Definition link (G : NX.Graph)
           (pr : (string * Py.pyset) * (string * Py.pyset)) : NX.Graph :=
  let '((prof1, coauthors1), (prof2, coauthors2)) := pr in
  let shared := Py.intersection coauthors1 coauthors2 in
  if Py.truthy shared then
    let G := NX.add_edge G prof1 prof2
               [("weight", VInt (Py.len shared));
                ("shared_coauthors", VList shared)] in
    fold_left
      (fun G coauthor =>
         let G := NX.add_node G coauthor
                    [("node_type", VStr "shared_coauthor")] in
         let G := NX.add_edge G prof1 coauthor [] in
         NX.add_edge G prof2 coauthor [])
      shared G
  else G.

Definition find_shared_connections (profiles : list (option Profile))
  : NX.Graph :=
  let '(G, prof_coauthors) := fold_left collect profiles (NX.empty, []) in
  fold_left link (Py.combinations2 (Py.items prof_coauthors)) G.

(** [analyze_network_statistics] up to its console output; the plot that
    follows is not modelled.  The closeness, betweenness and eigenvector
    routines of networkx are taken as given; the eigenvector routine raises
    when the power iteration does not converge. *)
Section Statistics.
Variable closeness_centrality : NX.Graph -> Py.dict Q.
Variable betweenness_centrality : NX.Graph -> Py.dict Q.
Variable eigenvector_centrality :
  NX.Graph -> nat -> Q -> result (Py.dict Q).
Variable repr : Py.dict Q -> string.

Definition analyze_network_statistics (G : NX.Graph)
           (professor_name : string) : result (list string) :=
  let degree_centrality := NX.degree_centrality G in
  let closeness_centrality := closeness_centrality G in
  let betweenness_centrality := betweenness_centrality G in
  match eigenvector_centrality G 1000%nat (1 # 1000000)%Q with
  | Raise e => Raise e
  | Ok eigenvector_centrality =>
      Ok [ (nl ++ "Statistical Measures for " ++ professor_name)%string;
           ("Degree Centrality: " ++ repr degree_centrality)%string;
           ("Closeness Centrality: " ++ repr closeness_centrality)%string;
           ("Betweenness Centrality: "
              ++ repr betweenness_centrality)%string;
           ("Eigenvector Centrality: "
              ++ repr eigenvector_centrality)%string ]
  end.
End Statistics.

End N.

(* ================================================================= *)
(** ** Final/main.py *)

Module Final_main.

Definition create_individual_network (profile : option Profile)
  : option NX.Graph :=
  match profile with
  | None => None
  | Some profile =>
      let G := NX.empty in
      let prof_name := name profile in
      let G := NX.add_node G prof_name
                 [("title", VStr (prof_name ++ nl ++ affiliation profile));
                  ("group", VStr "professor");
                  ("size", VInt 25)] in
      let G :=
        fold_left
          (fun G coauthor =>
             let coauthor_name := coauthor_name coauthor in
             let G := NX.add_node G coauthor_name
                        [("title", VStr coauthor_name);
                         ("group", VStr "coauthor");
                         ("size", VInt 15)] in
             NX.add_edge G prof_name coauthor_name [])
          (coauthors profile) G in
      Some G
  end.

(** first loop of [create_combined_network]: one profile *)
Definition add_profile (G : NX.Graph) (profile : option Profile) : NX.Graph :=
  match profile with
  | None => G
  | Some profile =>
      let prof_name := name profile in
      let G := NX.add_node G prof_name
                 [("title", VStr (prof_name ++ nl ++ affiliation profile));
                  ("group", VStr "professor");
                  ("size", VInt 25)] in
      fold_left
        (fun G coauthor =>
           let coauthor_name := coauthor_name coauthor in
           let G :=
             if negb (NX.has_node G coauthor_name) then
               NX.add_node G coauthor_name
                 [("title", VStr coauthor_name);
                  ("group", VStr "coauthor");
                  ("size", VInt 15)]
             else G in
           NX.add_edge G prof_name coauthor_name [])
        (coauthors profile) G
  end.

(** innermost loop: one pair of professors sharing [node] *)
Definition connect (node : string) (G : NX.Graph) (pr : string * string)
  : NX.Graph :=
  let '(prof1, prof2) := pr in
  if NX.has_edge G prof1 prof2 then
    let G := NX.edge_set G prof1 prof2 "weight"
               (VInt (int_or 1 (NX.edge_get G prof1 prof2 "weight") + 1)) in
    match NX.edge_get G prof1 prof2 "shared_coauthors" with
    | Some (VList l) =>
        NX.edge_set G prof1 prof2 "shared_coauthors" (VList (l ++ [node]))
    | Some _ => G
    | None => NX.edge_set G prof1 prof2 "shared_coauthors" (VList [node])
    end
  else
    NX.add_edge G prof1 prof2
      [("weight", VInt 1); ("shared_coauthors", VList [node])].

(** second loop: one node of the merged graph *)
Definition reclassify (G : NX.Graph) (node : string) : NX.Graph :=
  if is_str (NX.node_get G node "group") "coauthor" then
    let connections := NX.neighbors G node in
    let professors :=
      filter (fun n => is_str (NX.node_get G n "group") "professor")
             connections in
    if (1 <? List.length professors)%nat then
      let G := NX.node_set G node "group" (VStr "shared_coauthor") in
      let G := NX.node_set G node "size" (VInt 20) in
      let G := NX.node_set G node "title"
                 (VStr (node ++ nl ++ "Shared by: "
                          ++ String.concat ", " professors)) in
      fold_left (connect node) (Py.combinations2 professors) G
    else G
  else G.

Definition create_combined_network (profiles : list (option Profile))
  : NX.Graph :=
  let G := fold_left add_profile profiles NX.empty in
  fold_left reclassify (NX.nodes G) G.

End Final_main.

(* ================================================================= *)
(** ** Final/1.py *)

Module Final_1.

Definition professor_title (prof_name affiliation : string) : string :=
  prof_name ++ "<br>Professor<br>Affiliation: " ++ affiliation.

Definition create_individual_network (profile : option Profile)
  : option NX.Graph :=
  match profile with
  | None => None
  | Some profile =>
      let G := NX.empty in
      let prof_name := name profile in
      let G := NX.add_node G prof_name
                 [("node_type", VStr "professor");
                  ("title",
                   VStr (professor_title prof_name (affiliation profile)))] in
      let G :=
        fold_left
          (fun G coauthor =>
             let coauthor_name := coauthor_name coauthor in
             let G := NX.add_node G coauthor_name
                        [("node_type", VStr "coauthor");
                         ("title", VStr (coauthor_name ++ "<br>Coauthor"))] in
             NX.add_edge G prof_name coauthor_name [])
          (coauthors profile) G in
      Some G
  end.

Definition collect (st : NX.Graph * Py.dict Py.pyset)
           (profile : option Profile) : NX.Graph * Py.dict Py.pyset :=
  match profile with
  | None => st
  | Some profile =>
      let '(G, prof_coauthors) := st in
      let prof_name := name profile in
      let affiliation := affiliation profile in
      let coauthors := Py.set_of (map coauthor_name (coauthors profile)) in
      let prof_coauthors := Py.setitem prof_coauthors prof_name coauthors in
      (NX.add_node G prof_name
         [("node_type", VStr "professor");
          ("title", VStr (professor_title prof_name affiliation))],
       prof_coauthors)
  end.

Definition link (G : NX.Graph)
           (pr : (string * Py.pyset) * (string * Py.pyset)) : NX.Graph :=
  let '((prof1, coauthors1), (prof2, coauthors2)) := pr in
  let shared := Py.intersection coauthors1 coauthors2 in
  if Py.truthy shared then
    let G := NX.add_edge G prof1 prof2
               [("weight", VInt (Py.len shared));
                ("shared_coauthors", VList shared)] in
    fold_left
      (fun G coauthor =>
         let G := NX.add_node G coauthor
                    [("node_type", VStr "shared_coauthor");
                     ("title", VStr (coauthor ++ "<br>Shared Coauthor"))] in
         let G := NX.add_edge G prof1 coauthor [] in
         NX.add_edge G prof2 coauthor [])
      shared G
  else G.

Definition find_shared_connections (profiles : list (option Profile))
  : NX.Graph :=
  let '(G, prof_coauthors) := fold_left collect profiles (NX.empty, []) in
  fold_left link (Py.combinations2 (Py.items prof_coauthors)) G.

(** One row of [stats_data]. *)
Record StatsRow : Type := mkRow {
  row_node : string;
  row_node_type : value;
  row_degree : Q;
  row_closeness : Q;
  row_betweenness : Q;
  row_eigenvector : Q
}.

Definition lookup {V} (d : Py.dict V) (k : string) : result V :=
  match Py.get d k with Some v => Ok v | None => Raise (KeyError k) end.

Definition bind {A B} (r : result A) (k : A -> result B) : result B :=
  match r with Ok a => k a | Raise e => Raise e end.

Fixpoint traverse {A B} (f : A -> result B) (l : list A) : result (list B) :=
  match l with
  | [] => Ok []
  | x :: r =>
      bind (f x) (fun y => bind (traverse f r) (fun ys => Ok (y :: ys)))
  end.

(** [analyze_network_statistics] up to the table [stats_data]: the console
    output and the rows; writing the CSV file and the pyvis page that follow
    are not modelled.  The bare [except:] catches whatever the eigenvector
    routine raises. *)
Section Statistics.
Variable closeness_centrality : NX.Graph -> Py.dict Q.
Variable betweenness_centrality : NX.Graph -> Py.dict Q.
Variable eigenvector_centrality :
  NX.Graph -> nat -> Q -> result (Py.dict Q).
Variable fmt3 : Q -> string.

Definition analyze_network_statistics (G : NX.Graph)
           (professor_name : string)
  : result (list string * list StatsRow) :=
  let degree_centrality := NX.degree_centrality G in
  let closeness_centrality := closeness_centrality G in
  let betweenness_centrality := betweenness_centrality G in
  let '(eigenvector_centrality, out) :=
    match eigenvector_centrality G 1000%nat (1 # 1000000)%Q with
    | Ok d => (d, [])
    | Raise _ =>
        (map (fun node => (node, 0%Q)) (NX.nodes G),
         [("Warning: Eigenvector centrality calculation didn't converge for "
             ++ professor_name ++ "'s network")%string])
    end in
  bind (lookup degree_centrality professor_name) (fun d =>
  bind (lookup closeness_centrality professor_name) (fun c =>
  bind (lookup betweenness_centrality professor_name) (fun b =>
  bind (lookup eigenvector_centrality professor_name) (fun e =>
  let out := out ++
    [ (nl ++ "Statistical Measures for " ++ professor_name)%string;
      ("Degree Centrality: " ++ fmt3 d)%string;
      ("Closeness Centrality: " ++ fmt3 c)%string;
      ("Betweenness Centrality: " ++ fmt3 b)%string;
      ("Eigenvector Centrality: " ++ fmt3 e)%string ] in
  bind (traverse
          (fun node =>
             bind (lookup (Py.get_default (NX._node G) node []) "node_type")
                  (fun ty =>
             bind (lookup degree_centrality node) (fun d =>
             bind (lookup closeness_centrality node) (fun c =>
             bind (lookup betweenness_centrality node) (fun b =>
             bind (lookup eigenvector_centrality node) (fun e =>
             Ok (mkRow node ty d c b e)))))))
          (NX.nodes G)) (fun stats_data =>
  Ok (out, stats_data)))))).
End Statistics.

End Final_1.

(* ================================================================= *)
(** ** The common shape of the two [find_shared_connections] *)

(** [N.py] and [Final/1.py] hold the same [find_shared_connections] up to the
    attributes attached to the nodes.  [SharedShape.build] is that function
    with the two attribute dictionaries left open; the lemmas about the
    builder are proved once, on it. *)
Module SharedShape.
Section Shape.
Variable prof_attr : Profile -> attrs.
Variable shared_attr : string -> attrs.

Definition prof_pair : Type := (string * Py.pyset) * (string * Py.pyset).

Definition shared_of (pr : prof_pair) : Py.pyset :=
  Py.intersection (snd (fst pr)) (snd (snd pr)).

(** body of the loop over [shared] *)
Definition attach (prof1 prof2 : string) (G : NX.Graph) (coauthor : string)
  : NX.Graph :=
  let G := NX.add_node G coauthor (shared_attr coauthor) in
  let G := NX.add_edge G prof1 coauthor [] in
  NX.add_edge G prof2 coauthor [].

Definition link (G : NX.Graph) (pr : prof_pair) : NX.Graph :=
  let '((prof1, coauthors1), (prof2, coauthors2)) := pr in
  let shared := Py.intersection coauthors1 coauthors2 in
  if Py.truthy shared then
    fold_left (attach prof1 prof2) shared
      (NX.add_edge G prof1 prof2
         [("weight", VInt (Py.len shared)); ("shared_coauthors", VList shared)])
  else G.

Definition collect (st : NX.Graph * Py.dict Py.pyset)
           (profile : option Profile) : NX.Graph * Py.dict Py.pyset :=
  match profile with
  | None => st
  | Some profile =>
      let '(G, prof_coauthors) := st in
      (NX.add_node G (name profile) (prof_attr profile),
       Py.setitem prof_coauthors (name profile)
         (Py.set_of (map coauthor_name (coauthors profile))))
  end.

Definition build (profiles : list (option Profile)) : NX.Graph :=
  let '(G, prof_coauthors) := fold_left collect profiles (NX.empty, []) in
  fold_left link (Py.combinations2 (Py.items prof_coauthors)) G.

(** the two components of the state after the first loop *)
Definition graph_after (G : NX.Graph) (profiles : list (option Profile))
  : NX.Graph :=
  fold_left
    (fun G o =>
       match o with
       | Some p => NX.add_node G (name p) (prof_attr p)
       | None => G
       end) profiles G.

Definition dict_after (D : Py.dict Py.pyset) (profiles : list (option Profile))
  : Py.dict Py.pyset :=
  fold_left
    (fun D o =>
       match o with
       | Some p =>
           Py.setitem D (name p) (Py.set_of (map coauthor_name (coauthors p)))
       | None => D
       end) profiles D.

(** [prof_coauthors] after the first loop *)
Definition prof_coauthors (profiles : list (option Profile))
  : Py.dict Py.pyset :=
  dict_after [] profiles.

(** does the pair contribute an edge between [u] and [v]? *)
Definition touches (u v : string) (pr : prof_pair) : bool :=
  Py.truthy (shared_of pr)
  && (NX.same_edge (fst (fst pr)) (fst (snd pr)) u v
      || existsb (fun c => NX.same_edge (fst (fst pr)) c u v
                           || NX.same_edge (fst (snd pr)) c u v)
                 (shared_of pr)).

(** does the pair set the weight of the edge between [u] and [v]? *)
Definition weighs (u v : string) (pr : prof_pair) : bool :=
  Py.truthy (shared_of pr)
  && NX.same_edge (fst (fst pr)) (fst (snd pr)) u v.

(** both professors of the pair are nodes of [G] *)
Definition names_in (G : NX.Graph) (pr : prof_pair) : Prop :=
  NX.has_node G (fst (fst pr)) = true /\ NX.has_node G (fst (snd pr)) = true.

(** the entry of [prof_coauthors] that a profile writes *)
Definition entry (p : Profile) : string * Py.pyset :=
  (name p, Py.set_of (map coauthor_name (coauthors p))).

End Shape.
End SharedShape.

Definition N_prof_attr (p : Profile) : attrs :=
  [("node_type", VStr "professor")].

Definition N_shared_attr (c : string) : attrs :=
  [("node_type", VStr "shared_coauthor")].

Definition Final_1_prof_attr (p : Profile) : attrs :=
  [("node_type", VStr "professor");
   ("title", VStr (Final_1.professor_title (name p) (affiliation p)))].

Definition Final_1_shared_attr (c : string) : attrs :=
  [("node_type", VStr "shared_coauthor");
   ("title", VStr (c ++ "<br>Shared Coauthor"))].

(* ================================================================= *)
(** ** Vocabulary of the statements *)

(** A profile as [extract_scholar_profile] returns it, from a name and the
    names of the coauthors. *)
Definition profile_of (n : string) (cs : list string) : option Profile :=
  Some (mkProfile n "" "" (map mkCoauthor cs)).

Definition coauthor_names (p : Profile) : list string :=
  map coauthor_name (coauthors p).

(** The profiles that were fetched, in input order. *)
Definition fetched (profiles : list (option Profile)) : list Profile :=
  flat_map (fun o => match o with Some p => [p] | None => [] end) profiles.

Definition professor_names (profiles : list (option Profile)) : list string :=
  map name (fetched profiles).

(** The kind of a node: [N.py] and [Final/1.py] store it under
    ["node_type"], [Final/main.py] under ["group"]. *)
Definition node_type (G : NX.Graph) (n : string) : option value :=
  NX.node_get G n "node_type".

Definition group (G : NX.Graph) (n : string) : option value :=
  NX.node_get G n "group".

Definition weight (G : NX.Graph) (u v : string) : option value :=
  NX.edge_get G u v "weight".

Definition shared_coauthors (G : NX.Graph) (u v : string) : option value :=
  NX.edge_get G u v "shared_coauthors".

Definition is_professor (G : NX.Graph) (n : string) : bool :=
  is_str (node_type G n) "professor".

(** Both endpoints are professor nodes. *)
Definition professor_edge (G : NX.Graph) (e : string * string) : bool :=
  is_professor G (fst e) && is_professor G (snd e).

Definition no_self_loops (G : NX.Graph) : Prop :=
  forall u, NX.has_edge G u u = false.

(** No edge is listed twice by [G.edges()], in either orientation. *)
Definition no_parallel_edges (G : NX.Graph) : Prop :=
  NoDup (NX.edges G) /\
  forall u v, u <> v -> In (u, v) (NX.edges G) -> ~ In (v, u) (NX.edges G).

(** An empty graph: no nodes and no edges. *)
Definition is_empty_graph (G : NX.Graph) : Prop :=
  NX.nodes G = [] /\ NX.edges G = [].

(** A call that did not end in the convergence exception of the power
    iteration. *)
Definition converged {A} (r : result A) : Prop :=
  match r with
  | Raise PowerIterationFailedConvergence => False
  | _ => True
  end.

(** The line printed by [Final/1.py] when the eigenvector routine raises. *)
Definition convergence_warning (professor_name : string) : string :=
  "Warning: Eigenvector centrality calculation didn't converge for "
    ++ professor_name ++ "'s network".

(** [n] is a coauthor of two fetched profiles with different names. *)
Definition shared_name (profiles : list (option Profile)) (n : string) : Prop :=
  exists p q, In p (fetched profiles) /\ In q (fetched profiles) /\
              name p <> name q /\
              In n (coauthor_names p) /\ In n (coauthor_names q).

(** The edges the shared-connections builder is meant to create: between two
    professors with a common coauthor, and between each of them and every
    common coauthor. *)
Definition linked (profiles : list (option Profile)) (u v : string) : Prop :=
  exists p q c, In p (fetched profiles) /\ In q (fetched profiles) /\
                name p <> name q /\
                In c (coauthor_names p) /\ In c (coauthor_names q) /\
                ((u = name p /\ v = name q) \/
                 (u = name p /\ v = c) \/ (u = c /\ v = name p)).

(** The size of the intersection of the coauthor sets of two profiles. *)
Definition common (p q : Profile) : Py.pyset :=
  Py.intersection (Py.set_of (coauthor_names p)) (Py.set_of (coauthor_names q)).

(** [w] is the weight the builder is meant to put between [u] and [v]. *)
Definition weighted (profiles : list (option Profile)) (u v : string)
           (w : value) : Prop :=
  exists p q, In p (fetched profiles) /\ In q (fetched profiles) /\
              name p <> name q /\ u = name p /\ v = name q /\
              common p q <> [] /\ w = VInt (Py.len (common p q)).

(** Professor names do not occur in any coauthor list. *)
Definition professors_apart (profiles : list (option Profile)) : Prop :=
  forall p q, In p (fetched profiles) -> In q (fetched profiles) ->
              ~ In (name p) (coauthor_names q).

(** No profile lists its own name among its coauthors. *)
Definition no_self_coauthor (profiles : list (option Profile)) : Prop :=
  forall p, In p (fetched profiles) -> ~ In (name p) (coauthor_names p).

(** [n] is in the intersection of the coauthor sets of two records of the
    input (two positions of the list). *)
Definition pairwise_shared (profiles : list (option Profile)) (n : string)
  : Prop :=
  exists p q, In (p, q) (Py.combinations2 (fetched profiles)) /\
              In n (coauthor_names p) /\ In n (coauthor_names q).

(** Graph isomorphism that keeps the weights: a relabelling [f] of the nodes
    that maps the node list of [G1] onto that of [G2] and under which the
    edges and their weights correspond. *)
Definition isomorphic (G1 G2 : NX.Graph) : Prop :=
  exists f : string -> string,
    Permutation (map f (NX.nodes G1)) (NX.nodes G2) /\
    forall u v, In u (NX.nodes G1) -> In v (NX.nodes G1) ->
                NX.has_edge G1 u v = NX.has_edge G2 (f u) (f v) /\
                weight G1 u v = weight G2 (f u) (f v).

(** *** Inputs used as examples *)

Definition c10_input : list (option Profile) :=
  [profile_of "P" ["A"]; profile_of "P" ["B"]; profile_of "Q" ["A"]].

Definition c3_input : list (option Profile) :=
  [profile_of "P" ["A"]; profile_of "Q" ["A"]; profile_of "P" []].

Definition c1_input : list (option Profile) :=
  [profile_of "P1" ["P3"]; profile_of "P2" ["P3"]; profile_of "P3" []].

Definition c9_input : list (option Profile) := [profile_of "P" ["P"]].

Definition c2_nodes_input : list (option Profile) := [profile_of "P" ["A"]].

Definition c2_weights_input : list (option Profile) :=
  [profile_of "P1" ["P3"; "X"]; profile_of "P2" ["P3"; "X"];
   profile_of "P3" []].

(** [G] is produced by one of the builders from [profiles]: by an individual
    builder from one of the profiles, or by a shared-connections or combined
    builder from the list. *)
Definition built (profiles : list (option Profile)) (G : NX.Graph) : Prop :=
  (exists p, In (Some p) profiles /\
             In (Some G) [N.create_individual_network (Some p);
                          Final_main.create_individual_network (Some p);
                          Final_1.create_individual_network (Some p)]) \/
  In G [N.find_shared_connections profiles;
        Final_1.find_shared_connections profiles;
        Final_main.create_combined_network profiles].

(* ================================================================= *)
(** ** Vocabulary for [create_combined_network] *)

Module CombinedShape.

Definition professor_attr (p : Profile) : attrs :=
  [("title", VStr (name p ++ nl ++ affiliation p));
   ("group", VStr "professor");
   ("size", VInt 25)].

Definition coauthor_attr (c : string) : attrs :=
  [("title", VStr c); ("group", VStr "coauthor"); ("size", VInt 15)].

(** body of the loop over a profile's coauthors *)
Definition add_coauthor (prof_name : string) (G : NX.Graph) (c : string)
  : NX.Graph :=
  let G := if negb (NX.has_node G c) then NX.add_node G c (coauthor_attr c)
           else G in
  NX.add_edge G prof_name c [].

(** the graph after the first loop of [create_combined_network] *)
Definition merged (profiles : list (option Profile)) : NX.Graph :=
  fold_left Final_main.add_profile profiles NX.empty.

(** [professors] as computed by [reclassify] *)
Definition professors_of (G : NX.Graph) (node : string) : list string :=
  filter (fun n => is_str (NX.node_get G n "group") "professor")
         (NX.neighbors G node).

(** the weight of an edge as [connect] reads it: 0 when there is no edge, 1
    when the edge has no weight attribute *)
Definition wnum (G : NX.Graph) (u v : string) : Z :=
  if NX.has_edge G u v then int_or 1 (weight G u v) else 0.

(** does some fetched profile list [n] as a coauthor? *)
Definition coauthor_somewhere (ps : list (option Profile)) (n : string) : bool :=
  existsb (fun p => Py.mem n (coauthor_names p)) (fetched ps).

(** is there an edge professor-coauthor between [u] and [v] after the first
    loop? *)
Definition direct (ps : list (option Profile)) (u v : string) : bool :=
  existsb (fun p => existsb (fun c => NX.same_edge (name p) c u v)
                            (coauthor_names p)) (fetched ps).

(** how many pairs of [L] are the unordered pair [u], [v] *)
Definition hits (u v : string) (L : list (string * string)) : nat :=
  List.length (filter (fun pr => NX.same_edge (fst pr) (snd pr) u v) L).

(** both ends of the pair are nodes of [G] *)
Definition both_nodes (G : NX.Graph) (pr : string * string) : Prop :=
  NX.has_node G (fst pr) = true /\ NX.has_node G (snd pr) = true.

(** does [reclassify] turn [node] into a shared coauthor? *)
Definition fires (G : NX.Graph) (node : string) : bool :=
  is_str (group G node) "coauthor"
  && (1 <? List.length (professors_of G node))%nat.

(** the three attribute writes of [reclassify] *)
Definition marked (G : NX.Graph) (node : string) : NX.Graph :=
  NX.node_set
    (NX.node_set (NX.node_set G node "group" (VStr "shared_coauthor"))
       node "size" (VInt 20))
    node "title"
    (VStr (node ++ nl ++ "Shared by: "
             ++ String.concat ", " (professors_of G node))).

(** does [reclassify G node] touch the edge between [u] and [v]? *)
Definition pair_hit (G : NX.Graph) (node u v : string) : bool :=
  fires G node && negb (String.eqb u v)
  && Py.mem u (professors_of G node) && Py.mem v (professors_of G node).

(** how many nodes of [done] touch the edge between [u] and [v] *)
Definition total (G1 : NX.Graph) (done : list string) (u v : string) : nat :=
  List.length (filter (fun x => pair_hit G1 x u v) done).

(** Invariant of the second loop: [G] is the graph reached from the merged
    graph [G1] after the nodes [done]. *)
Record inv (G1 G : NX.Graph) (done : list string) : Prop := mkInv {
  inv_wf : NX.wf G;
  inv_nodes : forall n, NX.has_node G n = NX.has_node G1 n;
  inv_group :
    forall n, group G n =
              if Py.mem n done && fires G1 n && NX.has_node G1 n
              then Some (VStr "shared_coauthor") else group G1 n;
  inv_edges :
    forall u v, NX.has_edge G u v = NX.has_edge G1 u v || (0 <? total G1 done u v)%nat;
  inv_wnum :
    forall u v, wnum G u v = wnum G1 u v + Z.of_nat (total G1 done u v);
  inv_weight :
    forall u v, weight G u v =
                if (0 <? total G1 done u v)%nat
                then Some (VInt (wnum G1 u v + Z.of_nat (total G1 done u v)))
                else weight G1 u v
}.

End CombinedShape.

(* ================================================================= *)
(** ** The common shape of the three [create_individual_network] *)

Module IndividualShape.

Definition N_coauthor_attr (c : string) : attrs :=
  [("node_type", VStr "coauthor")].

Definition Final_1_coauthor_attr (c : string) : attrs :=
  [("node_type", VStr "coauthor"); ("title", VStr (c ++ "<br>Coauthor"))].

(** body of the loop of [create_individual_network] *)
Definition step (coauthor_attr : string -> attrs) (prof_name : string)
           (G : NX.Graph) (c : string) : NX.Graph :=
  NX.add_edge (NX.add_node G c (coauthor_attr c)) prof_name c [].

Definition build (prof_attr : Profile -> attrs)
           (coauthor_attr : string -> attrs) (p : Profile) : NX.Graph :=
  fold_left (step coauthor_attr (name p)) (coauthor_names p)
    (NX.add_node NX.empty (name p) (prof_attr p)).

(** the key structure of an adjacency dictionary *)
Definition skeleton (adj : Py.dict (Py.dict attrs))
  : list (string * list string) :=
  map (fun e => (fst e, Py.keys (snd e))) adj.

End IndividualShape.

(* ================================================================= *)
(** ** Vocabulary for the shape of an individual network *)

Module StarShape.

(** The key structure of an adjacency dictionary after [v] is entered among
    the neighbours of [u]. *)
Fixpoint add_neighbor (sk : list (string * list string)) (u v : string)
  : list (string * list string) :=
  match sk with
  | [] => []
  | (k, ks) :: r =>
      if String.eqb k u then (k, Py.add ks v) :: r
      else (k, ks) :: add_neighbor r u v
  end.

(** The adjacency entry of a coauthor joined to the professor only. *)
Definition spoke (prof c : string) : string * list string := (c, [prof]).

End StarShape.

(* ================================================================= *)
(** ** Vocabulary for the statistics table *)


(* ================================================================= *)
(** ** Vocabulary for the lists of shared coauthors *)

(** What [connect] leaves under ["shared_coauthors"] on an edge that had
    [o] there: [node] is appended to a list, a list is started when the key
    was absent, and a value that is not a list is left alone. *)
Definition appended (o : option value) (node : string) : option value :=
  match o with
  | Some (VList l) => Some (VList (l ++ [node]))
  | Some x => Some x
  | None => Some (VList [node])
  end.

(** The nodes among [done] whose reclassification touches the edge between
    [u] and [v], in the order of [done]. *)
Definition sharers (G1 : NX.Graph) (done : list string) (u v : string)
  : list string :=
  filter (fun x => CombinedShape.pair_hit G1 x u v) done.

(** The lists of shared coauthors of [G], the graph reached from the merged
    graph [G1] after the nodes [done]. *)
Definition lists (G1 G : NX.Graph) (done : list string) : Prop :=
  forall u v, shared_coauthors G u v =
              if (0 <? CombinedShape.total G1 done u v)%nat
              then Some (VList (sharers G1 done u v)) else None.

(** Some fetched profile named [u] lists [x] among its coauthors. *)
Definition listed_by (profiles : list (option Profile)) (x u : string) : Prop :=
  exists p, In p (fetched profiles) /\ name p = u /\ In x (coauthor_names p).

(* ================================================================= *)
(** ** The reporting and drawing routines *)

(** What these routines can raise, and the helpers to model them. *)
Module Report.

Inductive error : Type :=
| MissingKey (k : string)   (* KeyError *)
| BadType                   (* TypeError *)
| NoSuchNode (n : string).  (* AssertionError of pyvis *)

Inductive outcome (A : Type) : Type :=
| Done (a : A)
| Failed (e : error).
Arguments Done {A} a.
Arguments Failed {A} e.

(** [d[k]], a [KeyError] when the key is absent *)
Definition item {V} (d : Py.dict V) (k : string) : outcome V :=
  match Py.get d k with Some v => Done v | None => Failed (MissingKey k) end.

Definition bind {A B} (r : outcome A) (k : A -> outcome B) : outcome B :=
  match r with Done a => k a | Failed e => Failed e end.

Fixpoint for_each {A B} (f : A -> outcome B) (l : list A) : outcome (list B) :=
  match l with
  | [] => Done []
  | x :: r =>
      bind (f x) (fun y => bind (for_each f r) (fun ys => Done (y :: ys)))
  end.

(** a loop that carries a state *)
Fixpoint thread {A S} (f : S -> A -> outcome S) (l : list A) (s : S)
  : outcome S :=
  match l with
  | [] => Done s
  | x :: r => bind (f s x) (fun s' => thread f r s')
  end.

(** [str(n)] for a length *)
Definition str_nat (n : nat) : string :=
  NilZero.string_of_uint (Nat.to_uint n).

(** [s.replace(' ', '_')] *)
Fixpoint replace_spaces (s : string) : string :=
  match s with
  | EmptyString => EmptyString
  | String c r =>
      String (if Ascii.eqb c " "%char then "_"%char else c) (replace_spaces r)
  end.

(** The elements of an attribute value as [len], [for ... in] and [join]
    see them: those of a list, the characters of a string; an integer has
    none (a [TypeError]). *)
Definition members (v : value) : outcome (list string) :=
  match v with
  | VList l => Done l
  | VStr s => Done (map (fun c => String c EmptyString) (list_ascii_of_string s))
  | VInt _ => Failed BadType
  end.

(** [G.nodes[n][key]] *)
Definition node_item (G : NX.Graph) (n key : string) : outcome value :=
  bind (item (NX._node G) n) (fun a => item a key).

(** [G[u][v]] *)
Definition edge_item (G : NX.Graph) (u v : string) : outcome attrs :=
  bind (item (NX._adj G) u) (fun nb => item nb v).

(** [G.nodes[n]['node_type'] == "professor"] *)
Definition typed_professor (G : NX.Graph) (n : string) : outcome bool :=
  bind (node_item G n "node_type") (fun t =>
  Done (value_eqb t (VStr "professor"))).

(** [not G], for a graph or [None]: a graph without nodes is falsy *)
Definition falsy (G : option NX.Graph) : bool :=
  match G with
  | None => true
  | Some G => (NX.number_of_nodes G =? 0)%nat
  end.

End Report.

(** *** N.py *)

Module N_report.
Import Report.

(** What is handed to [nx.draw] and [plt.savefig]. *)
Record Figure : Type := mkFigure {
  node_color : list string;
  node_size : list Z;
  width : option (list value);
  title : string;
  file : string
}.

Definition visualize_individual_network (G : option NX.Graph)
           (professor_name : string) : outcome (option Figure) :=
  match G with
  | None => Done None
  | Some G =>
      if falsy (Some G) then Done None
      else
        bind (for_each
                (fun node =>
                   bind (typed_professor G node) (fun b =>
                   Done (if b then "red" else "lightblue")))
                (NX.nodes G)) (fun node_colors =>
        bind (for_each
                (fun node =>
                   bind (typed_professor G node) (fun b =>
                   Done (if b then 3000 else 1000)))
                (NX.nodes G)) (fun node_sizes =>
        Done (Some (mkFigure node_colors node_sizes None
                      ("Collaboration Network - " ++ professor_name)
                      ("individual_network_"
                         ++ replace_spaces professor_name ++ ".png")))))
  end.

Definition no_shared_connections : string :=
  "No shared connections found between professors".

Definition visualize_shared_network (G : option NX.Graph)
  : outcome (list string * option Figure) :=
  match G with
  | None => Done ([no_shared_connections], None)
  | Some G =>
      if falsy (Some G) || (NX.number_of_edges G =? 0)%nat
      then Done ([no_shared_connections], None)
      else
        bind (for_each
                (fun node =>
                   bind (typed_professor G node) (fun b =>
                   Done (if b then ("red", 3000) else ("lightgreen", 1000))))
                (NX.nodes G)) (fun drawn =>
        bind (for_each
                (fun '(u, v) =>
                   bind (edge_item G u v) (fun a =>
                   Done (Py.get_default a "weight" (VInt 1))))
                (NX.edges G)) (fun edge_weights =>
        Done ([], Some (mkFigure (map fst drawn) (map snd drawn)
                          (Some edge_weights)
                          "Shared Connections Between Professors"
                          "shared_connections_network.png"))))
  end.

(** the lines printed for one pair of professors *)
Definition pair_lines (prof1 prof2 : string) (shared : list string)
  : list string :=
  (nl ++ prof1 ++ " and " ++ prof2 ++ " share "
      ++ str_nat (List.length shared) ++ " coauthor(s):")%string
  :: map (fun coauthor => ("  - " ++ coauthor)%string) shared.

Definition heading : string := nl ++ "Shared Connections Analysis:".

Definition print_shared_connections (G : NX.Graph) : outcome (list string) :=
  bind (for_each
          (fun '(prof1, prof2) =>
             bind (typed_professor G prof1) (fun b1 =>
             if b1 then
               bind (typed_professor G prof2) (fun b2 =>
               if b2 then
                 bind (edge_item G prof1 prof2) (fun a =>
                 bind (item a "shared_coauthors") (fun shared =>
                 bind (members shared) (fun l =>
                 Done (pair_lines prof1 prof2 l))))
               else Done [])
             else Done []))
          (NX.edges G)) (fun blocks =>
  Done (heading :: List.concat blocks)).

End N_report.

(** *** pyvis.Network *)

(** The part of [pyvis.network.Network] the scripts use: the list of nodes
    and the list of edges of an undirected network.  A [Node] and an [Edge]
    hold the arguments of the call that adds them.  [add_node] ignores an
    identifier that is present; [add_edge] asserts that both ends are nodes
    and ignores a pair that is already joined. *)
Module Pyvis.
Import Report.

Record Node : Type := mkNode {
  n_id : string;
  label : string;
  n_title : value;
  n_group : option value;
  n_color : option string;
  size : value
}.

Record Edge : Type := mkEdge {
  e_from : string;
  e_to : string;
  e_value : option value;
  e_width : option value;
  e_title : option string;
  e_color : option string
}.

Record Network : Type := mkNetwork {
  net_nodes : list Node;
  net_edges : list Edge
}.

Definition empty : Network := mkNetwork [] [].

Definition get_nodes (net : Network) : list string :=
  map n_id (net_nodes net).

Definition add_node (net : Network) (n : Node) : Network :=
  if Py.mem (n_id n) (get_nodes net) then net
  else mkNetwork (net_nodes net ++ [n]) (net_edges net).

Definition joins (source to : string) (e : Edge) : bool :=
  String.eqb source (e_to e) && String.eqb to (e_from e)
  || String.eqb source (e_from e) && String.eqb to (e_to e).

Definition add_edge (net : Network) (e : Edge) : outcome Network :=
  if negb (Py.mem (e_from e) (get_nodes net)) then Failed (NoSuchNode (e_from e))
  else if negb (Py.mem (e_to e) (get_nodes net)) then Failed (NoSuchNode (e_to e))
  else if existsb (joins (e_from e) (e_to e)) (net_edges net) then Done net
  else Done (mkNetwork (net_nodes net) (net_edges net ++ [e])).

End Pyvis.

(** *** Final/1.py *)

Module Final_1_report.
Import Report.

Section Drawing.
(** [str] of an attribute value, as an f-string formats it *)
Variable str : value -> string.

Definition visualize_individual_network_pyvis (G : option NX.Graph)
           (professor_name : string) : outcome (option (Pyvis.Network * string)) :=
  match G with
  | None => Done None
  | Some G =>
      if falsy (Some G) then Done None
      else
        bind (for_each
                (fun node =>
                   bind (node_item G node "node_type") (fun node_type =>
                   bind (item (NX._node G) node) (fun a =>
                   let title := Py.get_default a "title" (VStr node) in
                   Done (if value_eqb node_type (VStr "professor")
                         then Pyvis.mkNode node node title None
                                (Some "#E41A1C") (VInt 30)
                         else Pyvis.mkNode node node title None
                                (Some "#377EB8") (VInt 20)))))
                (NX.nodes G)) (fun drawn =>
        let net := fold_left Pyvis.add_node drawn Pyvis.empty in
        bind (thread
                (fun net edge =>
                   Pyvis.add_edge net
                     (Pyvis.mkEdge (fst edge) (snd edge) None None None None))
                (NX.edges G) net) (fun net =>
        Done (Some (net,
                    ("network_visualizations/individual_network_"
                       ++ replace_spaces professor_name ++ ".html")%string))))
  end.


End Drawing.

(** a row of [shared_data] *)
Record SharedRow : Type := mkSharedRow {
  professor_1 : string;
  professor_2 : string;
  shared_coauthor : string
}.

(** [print_shared_connections]: the lines printed, [shared_data], and the
    rows written to [shared_coauthors.csv], if it is written. *)
Definition print_shared_connections (G : NX.Graph)
  : outcome (list string * list SharedRow * option (list SharedRow)) :=
  bind (for_each
          (fun '(prof1, prof2) =>
             bind (typed_professor G prof1) (fun b1 =>
             if b1 then
               bind (typed_professor G prof2) (fun b2 =>
               if b2 then
                 bind (edge_item G prof1 prof2) (fun a =>
                 bind (item a "shared_coauthors") (fun shared =>
                 bind (members shared) (fun l =>
                 Done (N_report.pair_lines prof1 prof2 l,
                       map (mkSharedRow prof1 prof2) l))))
               else Done ([], []))
             else Done ([], [])))
          (NX.edges G)) (fun blocks =>
  let lines := N_report.heading :: List.concat (map fst blocks) in
  let shared_data := List.concat (map snd blocks) in
  match shared_data with
  | [] => Done (lines, shared_data, None)
  | _ :: _ =>
      Done (lines ++ ["Shared coauthor data saved to network_visualizations/shared_coauthors.csv"],
            shared_data, Some shared_data)
  end).

End Final_1_report.

(** *** Final/main.py *)

Module Final_main_report.
Import Report.

(** [color_map.get(group, "#cccccc")]; a list is not hashable (a
    [TypeError]) *)
Definition color_of (group : value) : outcome string :=
  match group with
  | VStr "professor" => Done "#e41a1c"
  | VStr "coauthor" => Done "#377eb8"
  | VStr "shared_coauthor" => Done "#4daf4a"
  | VList _ => Failed BadType
  | _ => Done "#cccccc"
  end.

(** [weight * 3] *)
Definition times3 (weight : value) : value :=
  match weight with
  | VInt z => VInt (z * 3)
  | VStr s => VStr (s ++ s ++ s)
  | VList l => VList (l ++ l ++ l)
  end.

(** [G.nodes[n].get('group') == "professor"] *)
Definition grouped_professor (G : NX.Graph) (n : string) : outcome bool :=
  bind (item (NX._node G) n) (fun a =>
  Done (match Py.get a "group" with
        | Some g => value_eqb g (VStr "professor")
        | None => false
        end)).

Definition visualize_individual_network (G : option NX.Graph)
           (professor_name : string) : outcome (option (Pyvis.Network * string)) :=
  match G with
  | None => Done None
  | Some G =>
      if falsy (Some G) then Done None
      else
        bind (for_each
                (fun node =>
                   bind (item (NX._node G) node) (fun a =>
                   Done (Pyvis.mkNode node node
                           (Py.get_default a "title" (VStr node))
                           (Some (Py.get_default a "group" (VStr "default")))
                           None
                           (Py.get_default a "size" (VInt 15)))))
                (NX.nodes G)) (fun drawn =>
        let net := fold_left Pyvis.add_node drawn Pyvis.empty in
        bind (thread
                (fun net e =>
                   Pyvis.add_edge net
                     (Pyvis.mkEdge (fst e) (snd e) None None None None))
                (NX.edges G) net) (fun net =>
        Done (Some (net,
                    ("individual_network_"
                       ++ replace_spaces professor_name ++ ".html")%string))))
  end.

Definition visualize_combined_network (G : option NX.Graph)
  : outcome (option (Pyvis.Network * string)) :=
  match G with
  | None => Done None
  | Some G =>
      if falsy (Some G) then Done None
      else
        bind (for_each
                (fun node =>
                   bind (item (NX._node G) node) (fun a =>
                   let group := Py.get_default a "group" (VStr "default") in
                   bind (color_of group) (fun color =>
                   Done (Pyvis.mkNode node node
                           (Py.get_default a "title" (VStr node))
                           (Some group) (Some color)
                           (Py.get_default a "size" (VInt 15))))))
                (NX.nodes G)) (fun drawn =>
        let net := fold_left Pyvis.add_node drawn Pyvis.empty in
        bind (thread
                (fun net '(source, target) =>
                   bind (edge_item G source target) (fun a =>
                   let weight := Py.get_default a "weight" (VInt 1) in
                   bind (grouped_professor G source) (fun b1 =>
                   bind (if b1 then grouped_professor G target
                         else Done false) (fun b2 =>
                   if b2 then
                     bind (members (Py.get_default a "shared_coauthors"
                                      (VList []))) (fun l =>
                     Pyvis.add_edge net
                       (Pyvis.mkEdge source target None
                          (Some (times3 weight))
                          (Some ("Shared coauthors: "
                                   ++ String.concat ", " l)%string)
                          (Some "#ff9900")))
                   else
                     Pyvis.add_edge net
                       (Pyvis.mkEdge source target None
                          (Some (VInt 1)) (Some "") (Some "#999999"))))))
                (NX.edges G) net) (fun net =>
        Done (Some (net, "combined_network.html"))))
  end.

Definition print_shared_connections (G : NX.Graph) : outcome (list string) :=
  bind (for_each
          (fun '(prof1, prof2) =>
             bind (edge_item G prof1 prof2) (fun a =>
             bind (grouped_professor G prof1) (fun b1 =>
             bind (if b1 then grouped_professor G prof2
                   else Done false) (fun b2 =>
             if b2 then
               match Py.get a "shared_coauthors" with
               | Some shared =>
                   bind (members shared) (fun l =>
                   Done (N_report.pair_lines prof1 prof2 l))
               | None => Done []
               end
             else Done []))))
          (NX.edges G)) (fun blocks =>
  Done (N_report.heading :: List.concat blocks)).

End Final_main_report.

(* ================================================================= *)
(** ** Vocabulary for the reports on a shared-connections network *)

(** The lines [print_shared_connections] prints for the edge [e]: those of
    the pair when both ends are professors and the edge carries a list of
    shared coauthors. *)
Definition pair_block (G : NX.Graph) (e : string * string) : list string :=
  if professor_edge G e then
    match shared_coauthors G (fst e) (snd e) with
    | Some (VList s) => N_report.pair_lines (fst e) (snd e) s
    | _ => []
    end
  else [].

(** The rows of [shared_data] for the edge [e]. *)
Definition pair_rows (G : NX.Graph) (e : string * string)
  : list Final_1_report.SharedRow :=
  if professor_edge G e then
    match shared_coauthors G (fst e) (snd e) with
    | Some (VList s) => map (Final_1_report.mkSharedRow (fst e) (snd e)) s
    | _ => []
    end
  else [].

(** [G[u][v].get('weight', 1)] *)
Definition weight_or_1 (G : NX.Graph) (e : string * string) : value :=
  match weight G (fst e) (snd e) with Some w => w | None => VInt 1 end.



(** The drawing of [visualize_shared_network]. *)
Definition shared_figure (G : NX.Graph) : N_report.Figure :=
  N_report.mkFigure
    (map (fun n => if is_professor G n then "red" else "lightgreen")
         (NX.nodes G))
    (map (fun n => if is_professor G n then 3000 else 1000) (NX.nodes G))
    (Some (map (weight_or_1 G) (NX.edges G)))
    "Shared Connections Between Professors"
    "shared_connections_network.png".

(* ================================================================= *)
(** ** Vocabulary for the reports on a combined network *)

(** Both ends of [e] have group professor. *)
Definition grouped_professors (G : NX.Graph) (e : string * string) : bool :=
  is_str (group G (fst e)) "professor" && is_str (group G (snd e)) "professor".

(** The colour [visualize_combined_network] looks up for the group of
    [n]. *)
Definition group_color (G : NX.Graph) (n : string) : string :=
  if is_str (group G n) "professor" then "#e41a1c"
  else if is_str (group G n) "coauthor" then "#377eb8"
  else if is_str (group G n) "shared_coauthor" then "#4daf4a"
  else "#cccccc".

(** [attrs.get('shared_coauthors', [])] when it is a list *)
Definition shared_list (G : NX.Graph) (e : string * string) : list string :=
  match shared_coauthors G (fst e) (snd e) with
  | Some (VList l) => l
  | _ => []
  end.

(** The node that [visualize_combined_network] adds for [node]. *)
Definition combined_node_drawn (G : NX.Graph) (node : string) : Pyvis.Node :=
  let a := NX.attrs_or_empty (NX.node_attr G node) in
  Pyvis.mkNode node node
    (Py.get_default a "title" (VStr node))
    (Some (Py.get_default a "group" (VStr "default")))
    (Some (group_color G node))
    (Py.get_default a "size" (VInt 15)).

(** The edge that [visualize_combined_network] adds for [e]. *)
Definition combined_edge_drawn (G : NX.Graph) (e : string * string)
  : Pyvis.Edge :=
  if grouped_professors G e then
    Pyvis.mkEdge (fst e) (snd e) None
      (Some (Final_main_report.times3 (weight_or_1 G e)))
      (Some ("Shared coauthors: " ++ String.concat ", " (shared_list G e))%string)
      (Some "#ff9900")
  else
    Pyvis.mkEdge (fst e) (snd e) None (Some (VInt 1)) (Some "")
      (Some "#999999").

(** The lines [print_shared_connections] of [Final/main.py] prints for the
    edge [e]. *)
Definition combined_pair_block (G : NX.Graph) (e : string * string)
  : list string :=
  if grouped_professors G e then
    match shared_coauthors G (fst e) (snd e) with
    | Some (VList s) => N_report.pair_lines (fst e) (snd e) s
    | _ => []
    end
  else [].

(* ================================================================= *)
(** ** Facts about the Python containers *)

Module PyFacts.
Import Py.

Lemma eqb_sym_false (a b : string) : a <> b -> String.eqb a b = false.
Proof. intros H. now apply String.eqb_neq. Qed.

Section Dict.
Context {V : Type}.
Implicit Types (d e : dict V) (k : string) (v : V).

Lemma get_setitem d k v k' :
  get (setitem d k v) k' = if String.eqb k k' then Some v else get d k'.
Proof.
  induction d as [|[k0 v0] d IH]; simpl.
  - reflexivity.
  - destruct (String.eqb k0 k) eqn:E0; simpl.
    + apply String.eqb_eq in E0; subst k0.
      destruct (String.eqb k k'); reflexivity.
    + rewrite IH. destruct (String.eqb k0 k') eqn:E1; [|reflexivity].
      apply String.eqb_eq in E1; subst k0.
      now rewrite String.eqb_sym, E0.
Qed.

Lemma get_setitem_same d k v : get (setitem d k v) k = Some v.
Proof. now rewrite get_setitem, String.eqb_refl. Qed.

Lemma get_setitem_other d k v k' :
  k <> k' -> get (setitem d k v) k' = get d k'.
Proof. intros H. now rewrite get_setitem, eqb_sym_false. Qed.

Lemma get_None_keys d k : get d k = None <-> ~ In k (keys d).
Proof.
  induction d as [|[k0 v0] d IH]; simpl.
  - tauto.
  - destruct (String.eqb k0 k) eqn:E.
    + apply String.eqb_eq in E. split; [discriminate | intros H; tauto].
    + apply String.eqb_neq in E. rewrite IH. tauto.
Qed.

Lemma get_Some_keys d k : (exists v, get d k = Some v) <-> In k (keys d).
Proof.
  destruct (get d k) eqn:E.
  - split; [intros _ | eauto].
    destruct (in_dec string_dec k (keys d)) as [H|H]; [assumption|].
    apply get_None_keys in H. congruence.
  - split; [intros [v H]; discriminate|].
    intros H. apply get_None_keys in E. tauto.
Qed.

Lemma contains_keys d k : contains d k = true <-> In k (keys d).
Proof.
  unfold contains. rewrite <- get_Some_keys.
  destruct (get d k); split; eauto; try discriminate.
  intros [v H]; discriminate.
Qed.

Lemma contains_false_keys d k : contains d k = false <-> ~ In k (keys d).
Proof.
  rewrite <- contains_keys. destruct (contains d k); split; congruence.
Qed.

Lemma contains_setitem d k v k' :
  contains (setitem d k v) k' = String.eqb k k' || contains d k'.
Proof.
  unfold contains. rewrite get_setitem. now destruct (String.eqb k k').
Qed.

Lemma keys_setitem d k v :
  keys (setitem d k v) = if contains d k then keys d else keys d ++ [k].
Proof.
  unfold contains.
  induction d as [|[k0 v0] d IH]; simpl.
  - reflexivity.
  - destruct (String.eqb k0 k) eqn:E; simpl.
    + reflexivity.
    + rewrite IH. now destruct (get d k).
Qed.

Lemma In_keys_setitem d k v k' :
  In k' (keys (setitem d k v)) <-> k = k' \/ In k' (keys d).
Proof.
  rewrite <- (contains_keys (setitem d k v)), <- (contains_keys d).
  rewrite contains_setitem, orb_true_iff.
  pose proof (String.eqb_eq k k'). tauto.
Qed.

Lemma NoDup_keys_setitem d k v :
  NoDup (keys d) -> NoDup (keys (setitem d k v)).
Proof.
  intros H. rewrite keys_setitem.
  destruct (contains d k) eqn:E; [assumption|].
  apply contains_false_keys in E.
  apply NoDup_app; repeat split; auto.
  - constructor; [tauto | constructor].
  - intros x Hx [<-|[]]. tauto.
Qed.

Lemma length_setitem d k v :
  List.length (setitem d k v) =
  if contains d k then List.length d else S (List.length d).
Proof.
  rewrite <- !(length_map fst). change (map fst) with (@keys V).
  rewrite keys_setitem. destruct (contains d k); [reflexivity|].
  rewrite length_app. simpl. lia.
Qed.

Lemma get_In d k v : get d k = Some v -> In (k, v) d.
Proof.
  induction d as [|[k0 v0] d IH]; simpl; [discriminate|].
  destruct (String.eqb k0 k) eqn:E.
  - apply String.eqb_eq in E. intros [= ->]. left. now subst.
  - auto.
Qed.

Lemma In_get d k v : NoDup (keys d) -> In (k, v) d -> get d k = Some v.
Proof.
  induction d as [|[k0 v0] d IH]; simpl; [tauto|].
  intros Hnd [[= -> ->]|Hin].
  - now rewrite String.eqb_refl.
  - inversion Hnd; subst.
    destruct (String.eqb k0 k) eqn:E; [|auto].
    apply String.eqb_eq in E; subst k0.
    exfalso. apply H1. change k with (fst (k, v)). now apply in_map.
Qed.
End Dict.

(** *** Sets of strings *)

Lemma mem_In x s : mem x s = true <-> In x s.
Proof.
  unfold mem. rewrite existsb_exists. split.
  - intros [y [Hy E]]. apply String.eqb_eq in E. now subst.
  - intros H. exists x. split; [assumption | apply String.eqb_refl].
Qed.

Lemma mem_false x s : mem x s = false <-> ~ In x s.
Proof. rewrite <- mem_In. destruct (mem x s); split; congruence. Qed.

Lemma In_add s x y : In y (add s x) <-> In y s \/ x = y.
Proof.
  unfold add. destruct (mem x s) eqn:E.
  - apply mem_In in E. split; [tauto|]. intros [H| <-]; assumption.
  - rewrite in_app_iff. simpl. tauto.
Qed.

Lemma NoDup_add s x : NoDup s -> NoDup (add s x).
Proof.
  intros H. unfold add. destruct (mem x s) eqn:E; [assumption|].
  apply mem_false in E. apply NoDup_app; repeat split; auto.
  - constructor; [tauto | constructor].
  - intros y Hy [<-|[]]. tauto.
Qed.

Lemma set_of_spec l :
  NoDup (set_of l) /\ forall x, In x (set_of l) <-> In x l.
Proof.
  unfold set_of.
  enough (forall acc, NoDup acc ->
            NoDup (fold_left add l acc) /\
            forall x, In x (fold_left add l acc) <-> In x acc \/ In x l) as H.
  { destruct (H [] (NoDup_nil _)) as [H1 H2]. split; [assumption|].
    intros x. rewrite H2. simpl. tauto. }
  induction l as [|a l IH]; simpl; intros acc Hacc.
  - split; [assumption | tauto].
  - destruct (IH (add acc a) (NoDup_add _ _ Hacc)) as [H1 H2].
    split; [assumption|]. intros x. rewrite H2, In_add. intuition congruence.
Qed.

Lemma NoDup_set_of l : NoDup (set_of l).
Proof. apply set_of_spec. Qed.

Lemma In_set_of l x : In x (set_of l) <-> In x l.
Proof. apply set_of_spec. Qed.

Lemma In_intersection s1 s2 x :
  In x (intersection s1 s2) <-> In x s1 /\ In x s2.
Proof. unfold intersection. now rewrite filter_In, mem_In. Qed.

Lemma NoDup_intersection s1 s2 : NoDup s1 -> NoDup (intersection s1 s2).
Proof. apply NoDup_filter. Qed.

Lemma intersection_comm s1 s2 :
  NoDup s1 -> NoDup s2 ->
  Permutation (intersection s1 s2) (intersection s2 s1).
Proof.
  intros H1 H2. apply NoDup_Permutation; auto using NoDup_intersection.
  intros x. rewrite !In_intersection. tauto.
Qed.

Lemma truthy_true s : truthy s = true <-> exists x, In x s.
Proof.
  destruct s as [|a s]; simpl.
  - split; [discriminate | intros [x []]].
  - split; eauto.
Qed.

Lemma truthy_false s : truthy s = false <-> s = [].
Proof. destruct s; simpl; split; congruence. Qed.

Lemma get_app {V} (d e : dict V) k :
  get (d ++ e) k = match get d k with Some v => Some v | None => get e k end.
Proof.
  induction d as [|[k0 v0] d IH]; simpl; [reflexivity|].
  now destruct (String.eqb k0 k).
Qed.

Lemma get_update {V} (d e : dict V) k :
  get (update d e) k =
  match get (rev e) k with Some v => Some v | None => get d k end.
Proof.
  unfold update. revert d. induction e as [|[k0 v0] e IH]; intros d; simpl.
  - reflexivity.
  - rewrite IH, get_app, get_setitem. simpl.
    destruct (get (rev e) k); [reflexivity|].
    now destruct (String.eqb k0 k).
Qed.

Lemma find_app {A} (f : A -> bool) (l l' : list A) :
  find f (l ++ l') = match find f l with Some x => Some x | None => find f l' end.
Proof.
  induction l as [|a l IH]; simpl; [reflexivity|]. now destruct (f a).
Qed.

Lemma option_ext {A} (a b : option A) :
  (forall x, a = Some x <-> b = Some x) -> a = b.
Proof.
  intros H. destruct a as [x|], b as [y|]; auto.
  - symmetry. now apply (H x).
  - pose proof (proj1 (H x) eq_refl). discriminate.
  - pose proof (proj2 (H y) eq_refl). discriminate.
Qed.

Lemma bool_ext (a b : bool) : (a = true <-> b = true) -> a = b.
Proof. destruct a, b; intuition congruence. Qed.

Lemma NoDup_singleton (l : list string) b :
  NoDup l -> (forall x, In x l <-> x = b) -> l = [b].
Proof.
  intros Hnd H. destruct l as [|a l].
  - exfalso. apply (H b). reflexivity.
  - assert (a = b) by (apply H; now left). subst a.
    destruct l as [|c l]; [reflexivity|].
    inversion Hnd as [|? ? Hb _]; subst. exfalso. apply Hb.
    assert (c = b) by (apply H; right; now left). subst. now left.
Qed.

Lemma fold_left_map_names {A B C} (f : A -> B -> A) (g : C -> B) l a :
  fold_left f (map g l) a = fold_left (fun a x => f a (g x)) l a.
Proof. revert a. induction l as [|x l IH]; intros a; simpl; auto. Qed.

(** *** Pairs *)

Lemma In_combinations2 {A} (l : list A) x y :
  In (x, y) (combinations2 l) -> In x l /\ In y l.
Proof.
  induction l as [|a l IH]; simpl; [tauto|].
  rewrite in_app_iff, in_map_iff. intros [[z [[= <- <-] Hz]]|H]; [tauto|].
  apply IH in H. tauto.
Qed.

Section Combinations.
Context {A B : Type} (f : A -> B).

Lemma combinations2_distinct (l : list A) x y :
  NoDup (map f l) -> In (x, y) (combinations2 l) -> f x <> f y.
Proof.
  induction l as [|a l IH]; simpl; [tauto|].
  intros Hnd. inversion Hnd as [|? ? Ha Hl]; subst.
  rewrite in_app_iff, in_map_iff. intros [[z [[= <- <-] Hz]]|H]; [|now apply IH].
  intros E. apply Ha. rewrite E. now apply in_map.
Qed.

Lemma combinations2_complete (l : list A) x y :
  In x l -> In y l -> f x <> f y ->
  In (x, y) (combinations2 l) \/ In (y, x) (combinations2 l).
Proof.
  induction l as [|a l IH]; simpl; [tauto|].
  rewrite !in_app_iff, !in_map_iff.
  intros [->|Hx] [->|Hy] Hne.
  - congruence.
  - left; left. eauto.
  - right; left. eauto.
  - destruct (IH Hx Hy Hne); tauto.
Qed.

Lemma combinations2_oriented (l : list A) x y :
  NoDup (map f l) -> In (x, y) (combinations2 l) -> ~ In (y, x) (combinations2 l).
Proof.
  induction l as [|a l IH]; simpl; [tauto|].
  intros Hnd. inversion Hnd as [|? ? Ha Hl]; subst.
  rewrite !in_app_iff, !in_map_iff.
  intros [[z [[= <- <-] Hz]]|H] [[z' [[= <- <-] Hz']]|H'].
  - apply Ha. now apply in_map.
  - apply In_combinations2 in H'. apply Ha. now apply in_map.
  - apply In_combinations2 in H. apply Ha. now apply in_map.
  - now apply (IH Hl H).
Qed.

Lemma NoDup_map_inj (l : list A) x y :
  NoDup (map f l) -> In x l -> In y l -> f x = f y -> x = y.
Proof.
  induction l as [|a l IH]; simpl; [tauto|].
  intros Hnd. inversion Hnd as [|? ? Ha Hl]; subst.
  intros [->|Hx] [->|Hy] E; auto.
  - exfalso. apply Ha. rewrite E. now apply in_map.
  - exfalso. apply Ha. rewrite <- E. now apply in_map.
Qed.

End Combinations.

End PyFacts.

(* ================================================================= *)
(** ** Facts about the graph operations *)

Module NXFacts.
Import Py PyFacts NX.

Lemma edge_attr_adj_get G u v : edge_attr G u v = adj_get (_adj G) u v.
Proof. reflexivity. Qed.

Lemma get_set_adj adj u v d x :
  get (set_adj adj u v d) x =
  if String.eqb u x then Some (setitem (get_default adj u []) v d)
  else get adj x.
Proof. unfold set_adj. apply get_setitem. Qed.

Lemma adj_get_set_adj adj u v d x y :
  adj_get (set_adj adj u v d) x y =
  if String.eqb u x && String.eqb v y then Some d else adj_get adj x y.
Proof.
  unfold adj_get. rewrite get_set_adj.
  destruct (String.eqb u x) eqn:E; simpl; [|reflexivity].
  apply String.eqb_eq in E; subst x. rewrite get_setitem.
  destruct (String.eqb v y); [reflexivity|].
  unfold get_default. now destruct (get adj u).
Qed.

Lemma keys_set_adj adj u v d :
  contains adj u = true -> keys (set_adj adj u v d) = keys adj.
Proof. intros H. unfold set_adj. now rewrite keys_setitem, H. Qed.

Lemma has_edge_edge_attr G u v :
  has_edge G u v = match edge_attr G u v with Some _ => true | None => false end.
Proof. unfold has_edge, edge_attr, contains. now destruct (get (_adj G) u). Qed.

Lemma has_node_node_attr G n :
  has_node G n = match node_attr G n with Some _ => true | None => false end.
Proof. reflexivity. Qed.

Lemma has_node_In G n : has_node G n = true <-> In n (nodes G).
Proof. apply contains_keys. Qed.

Lemma has_node_false_In G n : has_node G n = false <-> ~ In n (nodes G).
Proof. apply contains_false_keys. Qed.

Lemma In_neighbors G u v : In v (neighbors G u) <-> has_edge G u v = true.
Proof.
  unfold neighbors, nbrs, has_edge, get_default.
  destruct (get (_adj G) u).
  - symmetry. apply contains_keys.
  - simpl. split; [tauto | discriminate].
Qed.

Lemma wf_adj_contains G n : wf G -> contains (_adj G) n = has_node G n.
Proof.
  intros W. unfold has_node.
  destruct (contains (_node G) n) eqn:E.
  - apply contains_keys. rewrite (wf_keys _ W). now apply contains_keys.
  - apply contains_false_keys. rewrite (wf_keys _ W).
    now apply contains_false_keys.
Qed.

Lemma wf_adj_None G n : wf G -> node_attr G n = None -> get (_adj G) n = None.
Proof.
  intros W H. pose proof (wf_adj_contains G n W) as E.
  unfold has_node, contains in E. unfold node_attr in H. rewrite H in E.
  now destruct (get (_adj G) n).
Qed.

Lemma wf_edge_nodes G u v :
  wf G -> edge_attr G u v <> None -> has_node G u = true /\ has_node G v = true.
Proof.
  intros W H. split.
  - rewrite (wf_sym _ W) in H. now apply (wf_closed _ W) in H.
  - now apply (wf_closed _ W) in H.
Qed.

Lemma wf_empty : wf empty.
Proof. split; simpl; try easy. constructor. Qed.

(** *** [add_node] *)

Lemma node_attr_add_node G n a m :
  node_attr (add_node G n a) m =
  if String.eqb n m
  then Some (update (match node_attr G n with Some x => x | None => [] end) a)
  else node_attr G m.
Proof.
  unfold add_node, node_attr.
  destruct (get (_node G) n); simpl; apply get_setitem.
Qed.

Lemma has_node_add_node G n a m :
  has_node (add_node G n a) m = String.eqb n m || has_node G m.
Proof.
  rewrite !has_node_node_attr, node_attr_add_node.
  now destruct (String.eqb n m).
Qed.

Lemma edge_attr_add_node G n a u v :
  wf G -> edge_attr (add_node G n a) u v = edge_attr G u v.
Proof.
  intros W. unfold add_node.
  destruct (get (_node G) n) eqn:E; [reflexivity|].
  unfold edge_attr; simpl. rewrite get_setitem.
  destruct (String.eqb n u) eqn:E1; [|reflexivity].
  apply String.eqb_eq in E1; subst u. simpl.
  now rewrite (wf_adj_None G n W E).
Qed.

Lemma nodes_add_node G n a :
  nodes (add_node G n a) = if has_node G n then nodes G else nodes G ++ [n].
Proof.
  unfold add_node, nodes, has_node.
  destruct (get (_node G) n) eqn:E; simpl; rewrite keys_setitem;
    unfold contains; now rewrite E.
Qed.

Lemma wf_add_node G n a : wf G -> wf (add_node G n a).
Proof.
  intros W. split.
  - unfold add_node. destruct (get (_node G) n) eqn:E; simpl.
    + rewrite keys_setitem. unfold contains. rewrite E. apply W.
    + rewrite !keys_setitem. rewrite (wf_adj_contains G n W).
      unfold has_node. now rewrite (wf_keys _ W).
  - unfold add_node. destruct (get (_node G) n); simpl;
      apply NoDup_keys_setitem, W.
  - unfold add_node. destruct (get (_node G) n) eqn:E; simpl.
    + apply W.
    + intros u nb. rewrite get_setitem.
      destruct (String.eqb n u); [intros [= <-]; constructor | apply W].
  - intros u v. rewrite !edge_attr_add_node by assumption. apply W.
  - intros u v. rewrite edge_attr_add_node by assumption. intros H.
    rewrite has_node_add_node, (wf_closed _ W u v H). apply orb_true_r.
Qed.

(** *** [touch] *)

Lemma node_attr_touch G u m :
  node_attr (touch G u) m =
  match node_attr G m with
  | Some x => Some x
  | None => if String.eqb u m then Some [] else None
  end.
Proof.
  unfold touch, contains, node_attr.
  destruct (get (_node G) u) eqn:E; simpl.
  - destruct (get (_node G) m) eqn:E1; [reflexivity|].
    destruct (String.eqb u m) eqn:E2; [|reflexivity].
    apply String.eqb_eq in E2; subst. congruence.
  - rewrite get_setitem. destruct (String.eqb u m) eqn:E2.
    + apply String.eqb_eq in E2; subst. now rewrite E.
    + now destruct (get (_node G) m).
Qed.

Lemma has_node_touch G u m :
  has_node (touch G u) m = String.eqb u m || has_node G m.
Proof.
  rewrite !has_node_node_attr, node_attr_touch.
  destruct (node_attr G m); [now rewrite orb_true_r|].
  now destruct (String.eqb u m).
Qed.

Lemma edge_attr_touch G n u v :
  wf G -> edge_attr (touch G n) u v = edge_attr G u v.
Proof.
  intros W. unfold touch, contains.
  destruct (get (_node G) n) eqn:E; [reflexivity|].
  unfold edge_attr; simpl. rewrite get_setitem.
  destruct (String.eqb n u) eqn:E1; [|reflexivity].
  apply String.eqb_eq in E1; subst u. simpl.
  now rewrite (wf_adj_None G n W E).
Qed.

Lemma nodes_touch G n :
  nodes (touch G n) = if has_node G n then nodes G else nodes G ++ [n].
Proof.
  unfold touch, nodes, has_node.
  destruct (contains (_node G) n) eqn:E; simpl; [reflexivity|].
  now rewrite keys_setitem, E.
Qed.

Lemma wf_touch G n : wf G -> wf (touch G n).
Proof.
  intros W. split.
  - unfold touch. destruct (contains (_node G) n) eqn:E; simpl; [apply W|].
    rewrite !keys_setitem, E, (wf_adj_contains G n W).
    unfold has_node. now rewrite E, (wf_keys _ W).
  - unfold touch. destruct (contains (_node G) n); simpl;
      [apply W | apply NoDup_keys_setitem, W].
  - unfold touch. destruct (contains (_node G) n) eqn:E; simpl; [apply W|].
    intros u nb. rewrite get_setitem.
    destruct (String.eqb n u); [intros [= <-]; constructor | apply W].
  - intros u v. rewrite !edge_attr_touch by assumption. apply W.
  - intros u v. rewrite edge_attr_touch by assumption. intros H.
    rewrite has_node_touch, (wf_closed _ W u v H). apply orb_true_r.
Qed.

(** *** [add_edge] *)

Lemma same_edge_true u v x y :
  same_edge u v x y = true <-> (u = x /\ v = y) \/ (v = x /\ u = y).
Proof.
  unfold same_edge.
  rewrite orb_true_iff, !andb_true_iff, !String.eqb_eq. tauto.
Qed.

Lemma same_edge_swap u v x y : same_edge u v x y = same_edge u v y x.
Proof.
  unfold same_edge.
  destruct (String.eqb u x), (String.eqb v y), (String.eqb v x),
    (String.eqb u y); reflexivity.
Qed.

Lemma same_edge_refl u v : same_edge u v u v = true.
Proof. unfold same_edge. now rewrite !String.eqb_refl. Qed.

Lemma node_attr_add_edge G u v a m :
  node_attr (add_edge G u v a) m =
  match node_attr G m with
  | Some x => Some x
  | None => if String.eqb u m || String.eqb v m then Some [] else None
  end.
Proof.
  change (node_attr (add_edge G u v a) m)
    with (node_attr (touch (touch G u) v) m).
  rewrite !node_attr_touch. destruct (node_attr G m); [reflexivity|].
  now destruct (String.eqb u m), (String.eqb v m).
Qed.

Lemma has_node_add_edge G u v a m :
  has_node (add_edge G u v a) m =
  String.eqb u m || String.eqb v m || has_node G m.
Proof.
  rewrite !has_node_node_attr, node_attr_add_edge.
  destruct (node_attr G m); [now rewrite orb_true_r|].
  now destruct (String.eqb u m || String.eqb v m).
Qed.

Lemma nodes_add_edge G u v a :
  nodes (add_edge G u v a) = nodes (touch (touch G u) v).
Proof. reflexivity. Qed.

Lemma edge_attr_add_edge G u v a x y :
  wf G ->
  edge_attr (add_edge G u v a) x y =
  if same_edge u v x y
  then Some (update (attrs_or_empty (edge_attr G u v)) a)
  else edge_attr G x y.
Proof.
  intros W.
  pose proof (wf_touch G u W) as W1.
  unfold add_edge. rewrite edge_attr_adj_get. cbn [_adj].
  rewrite !adj_get_set_adj, <- edge_attr_adj_get.
  rewrite (edge_attr_touch _ v x y W1), (edge_attr_touch _ u x y W).
  replace (get_default (nbrs (touch (touch G u) v) u) v [])
    with (attrs_or_empty (edge_attr G u v)).
  2:{ rewrite <- (edge_attr_touch _ u u v W), <- (edge_attr_touch _ v u v W1).
      unfold edge_attr, nbrs, get_default.
      now destruct (get (_adj (touch (touch G u) v)) u). }
  unfold same_edge.
  destruct (String.eqb v x && String.eqb u y); [now rewrite orb_true_r|].
  now rewrite orb_false_r.
Qed.

Lemma has_edge_add_edge G u v a x y :
  wf G ->
  has_edge (add_edge G u v a) x y = same_edge u v x y || has_edge G x y.
Proof.
  intros W. rewrite !has_edge_edge_attr, edge_attr_add_edge by assumption.
  now destruct (same_edge u v x y).
Qed.

Lemma wf_add_edge G u v a : wf G -> wf (add_edge G u v a).
Proof.
  intros W.
  pose proof (wf_touch G u W) as W1.
  pose proof (wf_touch _ v W1) as W2.
  assert (Hu : contains (_adj (touch (touch G u) v)) u = true).
  { rewrite wf_adj_contains, !has_node_touch, String.eqb_refl by assumption.
    apply orb_true_r. }
  assert (Hv : contains (_adj (touch (touch G u) v)) v = true).
  { rewrite wf_adj_contains, !has_node_touch, String.eqb_refl by assumption.
    reflexivity. }
  split.
  - unfold add_edge; cbn [_adj _node]. rewrite keys_set_adj.
    + rewrite keys_set_adj by assumption. apply W2.
    + apply contains_keys. rewrite keys_set_adj by assumption.
      now apply contains_keys.
  - apply W2.
  - unfold add_edge; cbn [_adj]. intros x nb.
    rewrite get_set_adj.
    destruct (String.eqb v x).
    + intros [= <-]. apply NoDup_keys_setitem.
      unfold get_default. rewrite get_set_adj.
      destruct (String.eqb u v).
      * apply NoDup_keys_setitem. unfold get_default.
        destruct (get _ u) eqn:E; [|constructor].
        apply (wf_nbrs_nodup _ W2 _ _ E).
      * destruct (get _ v) eqn:E; [|constructor].
        apply (wf_nbrs_nodup _ W2 _ _ E).
    + rewrite get_set_adj. destruct (String.eqb u x).
      * intros [= <-]. apply NoDup_keys_setitem. unfold get_default.
        destruct (get _ u) eqn:E; [|constructor].
        apply (wf_nbrs_nodup _ W2 _ _ E).
      * apply W2.
  - intros x y. rewrite !edge_attr_add_edge by assumption.
    rewrite (same_edge_swap u v y x), (wf_sym _ W x y). reflexivity.
  - intros x y. rewrite edge_attr_add_edge, has_node_add_edge by assumption.
    destruct (same_edge u v x y) eqn:E.
    + intros _. apply same_edge_true in E.
      destruct E as [[_ ->]|[_ ->]]; rewrite String.eqb_refl;
        now rewrite ?orb_true_r.
    + intros H. rewrite (wf_closed _ W x y H). apply orb_true_r.
Qed.

(** *** [node_set] and [edge_set] *)

Lemma node_attr_node_set G n key x m :
  node_attr (node_set G n key x) m =
  if String.eqb n m
  then match node_attr G n with
       | Some a => Some (setitem a key x)
       | None => None
       end
  else node_attr G m.
Proof.
  unfold node_set. destruct (node_attr G n) eqn:E.
  - unfold node_attr; simpl. apply get_setitem.
  - destruct (String.eqb n m) eqn:E1; [|reflexivity].
    apply String.eqb_eq in E1. now subst.
Qed.

Lemma has_node_node_set G n key x m :
  has_node (node_set G n key x) m = has_node G m.
Proof.
  rewrite !has_node_node_attr, node_attr_node_set.
  destruct (String.eqb n m) eqn:E; [|reflexivity].
  apply String.eqb_eq in E; subst. now destruct (node_attr G m).
Qed.

Lemma edge_attr_node_set G n key x u v :
  edge_attr (node_set G n key x) u v = edge_attr G u v.
Proof. unfold node_set. now destruct (node_attr G n). Qed.

Lemma adj_node_set G n key x : _adj (node_set G n key x) = _adj G.
Proof. unfold node_set. now destruct (node_attr G n). Qed.

Lemma nodes_node_set G n key x : nodes (node_set G n key x) = nodes G.
Proof.
  unfold node_set, nodes. destruct (node_attr G n) eqn:E; [|reflexivity].
  simpl. rewrite keys_setitem. unfold contains.
  unfold node_attr in E. now rewrite E.
Qed.

Lemma wf_node_set G n key x : wf G -> wf (node_set G n key x).
Proof.
  intros W. split.
  - rewrite adj_node_set. change (keys (_node ?g)) with (nodes g).
    rewrite nodes_node_set. apply W.
  - change (keys (_node ?g)) with (nodes g). rewrite nodes_node_set. apply W.
  - rewrite adj_node_set. apply W.
  - intros u v. rewrite !edge_attr_node_set. apply W.
  - intros u v. rewrite edge_attr_node_set, has_node_node_set. apply W.
Qed.

Lemma node_attr_edge_set G u v key x m :
  node_attr (edge_set G u v key x) m = node_attr G m.
Proof. unfold edge_set. now destruct (edge_attr G u v). Qed.

Lemma nodes_edge_set G u v key x : nodes (edge_set G u v key x) = nodes G.
Proof. unfold edge_set. now destruct (edge_attr G u v). Qed.

Lemma has_node_edge_set G u v key x m :
  has_node (edge_set G u v key x) m = has_node G m.
Proof. unfold edge_set. now destruct (edge_attr G u v). Qed.

Lemma edge_attr_edge_set G u v key x p q :
  edge_attr (edge_set G u v key x) p q =
  match edge_attr G u v with
  | Some a => if same_edge u v p q then Some (setitem a key x)
              else edge_attr G p q
  | None => edge_attr G p q
  end.
Proof.
  unfold edge_set. destruct (edge_attr G u v) eqn:E; [|reflexivity].
  rewrite edge_attr_adj_get. cbn [_adj].
  rewrite !adj_get_set_adj, <- edge_attr_adj_get. unfold same_edge.
  destruct (String.eqb v p && String.eqb u q); [now rewrite orb_true_r|].
  now rewrite orb_false_r.
Qed.

Lemma has_edge_edge_set G u v key x p q :
  wf G -> has_edge (edge_set G u v key x) p q = has_edge G p q.
Proof.
  intros W. rewrite !has_edge_edge_attr, edge_attr_edge_set.
  destruct (edge_attr G u v) eqn:E; [|reflexivity].
  destruct (same_edge u v p q) eqn:E1; [|reflexivity].
  apply same_edge_true in E1. destruct E1 as [[-> ->]|[-> ->]].
  - now rewrite E.
  - now rewrite <- (wf_sym _ W), E.
Qed.

Lemma wf_edge_set G u v key x : wf G -> wf (edge_set G u v key x).
Proof.
  intros W. destruct (edge_attr G u v) as [a|] eqn:E.
  2:{ unfold edge_set. now rewrite E. }
  assert (Hn : edge_attr G u v <> None) by congruence.
  destruct (wf_edge_nodes G u v W Hn) as [Hu Hv].
  rewrite <- wf_adj_contains in Hu, Hv by assumption.
  split.
  - unfold edge_set. rewrite E. cbn [_adj _node]. rewrite keys_set_adj.
    + rewrite keys_set_adj by assumption. apply W.
    + apply contains_keys. rewrite keys_set_adj by assumption.
      now apply contains_keys.
  - change (keys (_node ?g)) with (nodes g). rewrite nodes_edge_set. apply W.
  - unfold edge_set. rewrite E. cbn [_adj]. intros z nb.
    rewrite get_set_adj.
    destruct (String.eqb v z).
    + intros [= <-]. apply NoDup_keys_setitem.
      unfold get_default. rewrite get_set_adj.
      destruct (String.eqb u v).
      * apply NoDup_keys_setitem. unfold get_default.
        destruct (get _ u) eqn:E1; [|constructor].
        apply (wf_nbrs_nodup _ W _ _ E1).
      * destruct (get _ v) eqn:E1; [|constructor].
        apply (wf_nbrs_nodup _ W _ _ E1).
    + rewrite get_set_adj. destruct (String.eqb u z).
      * intros [= <-]. apply NoDup_keys_setitem. unfold get_default.
        destruct (get _ u) eqn:E1; [|constructor].
        apply (wf_nbrs_nodup _ W _ _ E1).
      * apply W.
  - intros p q. rewrite !edge_attr_edge_set, E.
    rewrite (same_edge_swap u v q p), (wf_sym _ W p q). reflexivity.
  - intros p q. rewrite has_node_edge_set. intros H. apply (wf_closed _ W p q).
    rewrite edge_attr_edge_set, E in H.
    destruct (same_edge u v p q) eqn:E1; [|assumption].
    apply same_edge_true in E1. destruct E1 as [[-> ->]|[-> ->]].
    + congruence.
    + rewrite <- (wf_sym _ W). congruence.
Qed.

(** *** Derived equations *)

Lemma edge_attr_add_edge_nil G u v x y :
  wf G ->
  edge_attr (add_edge G u v []) x y =
  match edge_attr G x y with
  | Some a => Some a
  | None => if same_edge u v x y then Some [] else None
  end.
Proof.
  intros W. rewrite edge_attr_add_edge by assumption.
  destruct (same_edge u v x y) eqn:E.
  - apply same_edge_true in E. destruct E as [[-> ->]|[-> ->]].
    + now destruct (edge_attr G x y).
    + rewrite (wf_sym _ W y x). now destruct (edge_attr G x y).
  - now destruct (edge_attr G x y).
Qed.

Lemma node_attr_add_edge_existing G u v a m :
  has_node G u = true -> has_node G v = true ->
  node_attr (add_edge G u v a) m = node_attr G m.
Proof.
  intros Hu Hv. rewrite node_attr_add_edge.
  destruct (node_attr G m) eqn:E; [reflexivity|].
  destruct (String.eqb u m) eqn:E1.
  - apply String.eqb_eq in E1; subst. rewrite has_node_node_attr, E in Hu. discriminate.
  - destruct (String.eqb v m) eqn:E2; [|reflexivity].
    apply String.eqb_eq in E2; subst. rewrite has_node_node_attr, E in Hv. discriminate.
Qed.

Lemma has_node_add_edge_existing G u v a m :
  has_node G u = true -> has_node G v = true ->
  has_node (add_edge G u v a) m = has_node G m.
Proof.
  intros Hu Hv. now rewrite !has_node_node_attr, node_attr_add_edge_existing.
Qed.

Lemma node_get_add_node G n a m key :
  node_get (add_node G n a) m key =
  if String.eqb n m
  then get (update (attrs_or_empty (node_attr G n)) a) key
  else node_get G m key.
Proof.
  unfold node_get. rewrite node_attr_add_node.
  now destruct (String.eqb n m).
Qed.

(** *** The enumeration of the edges *)

Lemma In_edges_from adj seen u v :
  In (u, v) (edges_from adj seen) ->
  ~ In v seen /\ exists nb, In (u, nb) adj /\ In v (keys nb).
Proof.
  revert seen. induction adj as [|[n nb] rest IH]; intros seen; simpl; [tauto|].
  rewrite in_app_iff, in_map_iff. intros [[z [[= <- <-] Hz]]|H].
  - apply filter_In in Hz. destruct Hz as [Hz1 Hz2].
    apply negb_true_iff, mem_false in Hz2. split; [assumption|].
    exists nb. auto.
  - apply IH in H. destruct H as [H1 [nb' [H2 H3]]]. simpl in H1.
    split; [tauto|]. exists nb'. auto.
Qed.

Lemma NoDup_map_pair {A B} (a : A) (l : list B) :
  NoDup l -> NoDup (map (pair a) l).
Proof.
  induction 1 as [|b l Hb Hl IH]; simpl; constructor; [|assumption].
  rewrite in_map_iff. intros [z [[= ->] Hz]]. contradiction.
Qed.

Lemma NoDup_edges_from adj seen :
  NoDup (keys adj) ->
  (forall u nb, In (u, nb) adj -> NoDup (keys nb)) ->
  NoDup (edges_from adj seen).
Proof.
  revert seen. induction adj as [|[n nb] rest IH]; intros seen Hk Hnb; simpl.
  - constructor.
  - inversion Hk as [|? ? Hn Hrest]; subst.
    apply NoDup_app; repeat split.
    + apply NoDup_map_pair, NoDup_filter. apply (Hnb n nb). now left.
    + apply IH; [assumption|]. intros u nb' H. apply (Hnb u nb'). now right.
    + intros [u v] H1 H2. apply in_map_iff in H1.
      destruct H1 as [z [[= <- <-] _]].
      apply In_edges_from in H2. destruct H2 as [_ [nb' [H2 _]]].
      apply Hn. change n with (fst (n, nb')). now apply in_map.
Qed.

Lemma edges_from_oriented adj seen u v :
  In (u, v) (edges_from adj seen) -> In (v, u) (edges_from adj seen) -> u = v.
Proof.
  revert seen. induction adj as [|[n nb] rest IH]; intros seen; simpl; [tauto|].
  rewrite !in_app_iff, !in_map_iff.
  intros [[z [[= <- <-] Hz]]|H] [[z' [[= E1 E2] Hz']]|H'].
  - exact E1.
  - apply In_edges_from in H'. destruct H' as [H' _]. simpl in H'. tauto.
  - apply In_edges_from in H. destruct H as [H _]. simpl in H. tauto.
  - eapply IH; eassumption.
Qed.

Lemma edges_from_complete adj seen u nb v nb' :
  NoDup (keys adj) ->
  In (u, nb) adj -> In v (keys nb) ->
  In (v, nb') adj -> In u (keys nb') ->
  ~ In u seen -> ~ In v seen ->
  In (u, v) (edges_from adj seen) \/ In (v, u) (edges_from adj seen).
Proof.
  revert seen. induction adj as [|[n nb0] rest IH];
    intros seen Hk Hu Hv Hv' Hu' Hsu Hsv; simpl in *; [tauto|].
  inversion Hk as [|? ? Hn Hrest]; subst.
  rewrite !in_app_iff, !in_map_iff.
  assert (Hfilter : forall z l, In z l -> ~ In z seen ->
                      In z (filter (fun v => negb (mem v seen)) l)).
  { intros z l H1 H2. apply filter_In. split; [assumption|].
    now apply negb_true_iff, mem_false. }
  destruct Hu as [[= -> ->]|Hu].
  - left; left. exists v. auto.
  - destruct Hv' as [[= -> ->]|Hv'].
    + right; left. exists u. auto.
    + assert (n <> u).
      { intros ->. apply Hn. change u with (fst (u, nb)). now apply in_map. }
      assert (n <> v).
      { intros ->. apply Hn. change v with (fst (v, nb')). now apply in_map. }
      destruct (IH (n :: seen) Hrest Hu Hv Hv' Hu'); simpl; tauto.
Qed.

Lemma NoDup_edges G : wf G -> NoDup (edges G).
Proof.
  intros W. apply NoDup_edges_from.
  - rewrite (wf_keys _ W). apply W.
  - intros u nb H. apply (wf_nbrs_nodup _ W u).
    apply In_get; [|assumption]. rewrite (wf_keys _ W). apply W.
Qed.

Lemma edges_oriented G u v :
  In (u, v) (edges G) -> In (v, u) (edges G) -> u = v.
Proof. apply edges_from_oriented. Qed.

Lemma In_edges_has_edge G u v :
  wf G -> In (u, v) (edges G) -> has_edge G u v = true.
Proof.
  intros W H. apply In_edges_from in H. destruct H as [_ [nb [H1 H2]]].
  unfold has_edge. rewrite (In_get _ _ _ (eq_ind_r _ (wf_nodup _ W) (wf_keys _ W)) H1).
  now apply contains_keys.
Qed.

Lemma has_edge_In_edges G u v :
  wf G -> has_edge G u v = true ->
  In (u, v) (edges G) \/ In (v, u) (edges G).
Proof.
  intros W H.
  assert (H' : has_edge G v u = true).
  { rewrite has_edge_edge_attr in *. now rewrite (wf_sym _ W v u). }
  unfold has_edge in H, H'.
  destruct (get (_adj G) u) as [nb|] eqn:Eu; [|discriminate].
  destruct (get (_adj G) v) as [nb'|] eqn:Ev; [|discriminate].
  apply contains_keys in H, H'. apply get_In in Eu, Ev.
  apply (edges_from_complete (_adj G) [] u nb v nb'); auto.
  rewrite (wf_keys _ W). apply W.
Qed.

Lemma wf_no_parallel_edges G : wf G -> no_parallel_edges G.
Proof.
  intros W. split; [now apply NoDup_edges|].
  intros u v Hne H1 H2. apply Hne. eapply edges_oriented; eassumption.
Qed.

Lemma three_clique_edges G (pp : string -> bool) a b c :
  wf G ->
  a <> b -> a <> c -> b <> c ->
  (forall n, pp n = true <-> n = a \/ n = b \/ n = c) ->
  has_edge G a b = true -> has_edge G a c = true -> has_edge G b c = true ->
  has_edge G a a = false -> has_edge G b b = false -> has_edge G c c = false ->
  List.length (filter (fun e => pp (fst e) && pp (snd e)) (edges G)) = 3%nat.
Proof.
  intros W Hab Hac Hbc Hpp Eab Eac Ebc Eaa Ebb Ecc.
  set (F := filter (fun e => pp (fst e) && pp (snd e)) (edges G)).
  assert (HF : forall u v, In (u, v) F <->
                 In (u, v) (edges G) /\ (u = a \/ u = b \/ u = c)
                                     /\ (v = a \/ v = b \/ v = c)).
  { intros u v. unfold F. rewrite filter_In, andb_true_iff, !Hpp. simpl. tauto. }
  assert (Hnd : NoDup F) by (apply NoDup_filter, NoDup_edges, W).
  assert (Hloop : forall u, ~ In (u, u) (edges G) \/ has_edge G u u = true).
  { intros u. destruct (has_edge G u u) eqn:E; [now right|]. left.
    intros H. apply (In_edges_has_edge G u u W) in H. congruence. }
  assert (Hor : forall u v, u <> v -> In (u, v) (edges G) ->
                            ~ In (v, u) (edges G)).
  { intros u v Hne H1 H2. apply Hne. eapply edges_oriented; eassumption. }
  enough (exists e1 e2 e3, Permutation F [e1; e2; e3]) as [e1 [e2 [e3 HP]]].
  { apply Permutation_length in HP. exact HP. }
  destruct (has_edge_In_edges G a b W Eab) as [Iab|Iab];
  destruct (has_edge_In_edges G a c W Eac) as [Iac|Iac];
  destruct (has_edge_In_edges G b c W Ebc) as [Ibc|Ibc].
  all: match goal with
       | I1 : In ?e1 (edges _), I2 : In ?e2 (edges _), I3 : In ?e3 (edges _) |- _ =>
           exists e1, e2, e3
       end.
  all: apply NoDup_Permutation; [assumption | |].
  all: try (repeat constructor; simpl; intuition congruence).
  all: intros [u v]; rewrite HF; simpl; split.
  all: try (intros [H|[H|[H|[]]]]; injection H as <- <-; tauto).
  all: intros [H [[->|[->| ->]] [->|[->| ->]]]]; auto;
       try (exfalso; destruct (Hloop a); destruct (Hloop b); destruct (Hloop c);
            congruence);
       match goal with
       | H1 : In (?x, ?y) (edges _), H2 : In (?y, ?x) (edges _) |- _ =>
           exfalso; exact (Hor x y ltac:(congruence) H1 H2)
       end.
Qed.

End NXFacts.

(* ================================================================= *)
(** ** The individual network builder *)

Section Individual.
Import Py PyFacts NX NXFacts.

(** C7, as stated: a missing profile would yield an empty graph.  It does
    not: the builder returns no graph. *)
Lemma individual_missing_profile_not_empty_graph :
  ~ (exists G, N.create_individual_network None = Some G /\ is_empty_graph G).
Proof. intros [G [H _]]. discriminate H. Qed.

(** C7, amended: for a missing (falsy) profile each version of the
    individual builder returns [None], no graph at all, and does so without
    raising. *)
Theorem individual_missing_profile_none :
  N.create_individual_network None = None /\
  Final_main.create_individual_network None = None /\
  Final_1.create_individual_network None = None.
Proof. repeat split. Qed.

(** C8: a profile with an empty coauthor list yields a graph whose only node
    is the professor and which has no edge. *)
Theorem individual_no_coauthors (p : Profile) :
  coauthors p = [] ->
  forall build,
    In build [N.create_individual_network;
              Final_main.create_individual_network;
              Final_1.create_individual_network] ->
    exists G, build (Some p) = Some G /\
              nodes G = [name p] /\
              number_of_nodes G = 1%nat /\
              edges G = [] /\
              number_of_edges G = 0%nat.
Proof.
  intros H build Hb. simpl in Hb.
  destruct Hb as [<-|[<-|[<-|[]]]]; cbn; rewrite H; cbn;
    eexists; (split; [reflexivity|]); repeat split.
Qed.

Lemma individual_no_coauthors_witness :
  exists G, N.create_individual_network (profile_of "P" []) = Some G /\
            nodes G = ["P"] /\ number_of_nodes G = 1%nat /\
            edges G = [] /\ number_of_edges G = 0%nat.
Proof.
  apply (individual_no_coauthors (mkProfile "P" "" "" []) eq_refl
           N.create_individual_network).
  simpl. auto.
Defined.

End Individual.

(* ================================================================= *)
(** ** Centrality statistics *)

Section Statistics.
Import Py PyFacts NX NXFacts.

Lemma get_map_const {V} (f : string -> V) (l : list string) (n : string) :
  get (map (fun k => (k, f k)) l) n =
  if in_dec string_dec n l then Some (f n) else None.
Proof.
  induction l as [|a l IH]; simpl; [reflexivity|].
  destruct (String.eqb a n) eqn:E.
  - apply String.eqb_eq in E; subst a.
    destruct (string_dec n n); [|congruence]. reflexivity.
  - apply String.eqb_neq in E. rewrite IH.
    destruct (string_dec a n); [congruence|].
    destruct (in_dec string_dec n l); reflexivity.
Qed.

(** *** The error paths of [Final/1.py]'s statistics *)

Lemma traverse_Ok {A B} (f : A -> result B) (l : list A) (rows : list B) :
  Final_1.traverse f l = Ok rows -> Forall2 (fun x r => f x = Ok r) l rows.
Proof.
  revert rows. induction l as [|x l IH]; simpl; intros rows.
  - intros [= <-]. constructor.
  - destruct (f x) eqn:E; simpl; [|discriminate].
    destruct (Final_1.traverse f l) eqn:E1; simpl; [|discriminate].
    intros [= <-]. constructor; auto.
Qed.

Lemma converged_lookup {V} (d : dict V) k : converged (Final_1.lookup d k).
Proof. unfold Final_1.lookup. now destruct (get d k). Qed.

Lemma converged_bind {A B} (r : result A) (k : A -> result B) :
  converged r -> (forall a, converged (k a)) -> converged (Final_1.bind r k).
Proof. destruct r as [a|e]; simpl; auto. Qed.

Lemma converged_traverse {A B} (f : A -> result B) (l : list A) :
  (forall x, converged (f x)) -> converged (Final_1.traverse f l).
Proof.
  intros H. induction l as [|x l IH]; simpl; [exact I|].
  apply converged_bind; [apply H|]. intros y.
  apply converged_bind; [apply IH|]. intros ys. exact I.
Qed.

Create HintDb stats.
#[local] Hint Resolve converged_lookup : stats.

(** [Final/1.py]: whatever the eigenvector routine does, the statistics
    never raise the convergence exception. *)
Lemma Final_1_statistics_converged cl bt eig fmt3 G professor_name :
  converged
    (Final_1.analyze_network_statistics cl bt eig fmt3 G professor_name).
Proof.
  unfold Final_1.analyze_network_statistics.
  destruct (eig G 1000%nat (1 # 1000000)%Q) as [d|e];
    repeat (apply converged_bind; [auto with stats | intros ?]);
    try exact I;
    apply converged_traverse; intros x;
    repeat (apply converged_bind; [auto with stats | intros ?]);
    exact I.
Qed.

(** [Final/1.py]: when the eigenvector routine raises, a returned report
    carries the warning and has eigenvector value 0 on every node. *)
Lemma Final_1_statistics_zero_fill cl bt eig fmt3 G professor_name e out rows :
  eig G 1000%nat (1 # 1000000)%Q = Raise e ->
  Final_1.analyze_network_statistics cl bt eig fmt3 G professor_name
    = Ok (out, rows) ->
  In (convergence_warning professor_name) out /\
  map Final_1.row_node rows = nodes G /\
  Forall (fun r => Final_1.row_eigenvector r = 0%Q) rows.
Proof.
  intros H. unfold Final_1.analyze_network_statistics. rewrite H.
  unfold Final_1.lookup at 1 2 3 4.
  repeat match goal with
  | |- context [Final_1.bind (match get ?d ?k with _ => _ end) _] =>
      destruct (get d k) eqn:?; cbn [Final_1.bind]; [|discriminate]
  end.
  match goal with
  | |- context [Final_1.traverse ?f ?l] =>
      destruct (Final_1.traverse f l) as [rows'|] eqn:T; cbn [Final_1.bind];
        [|discriminate]
  end.
  intros [= <- <-]. apply traverse_Ok in T.
  split; [left; reflexivity|].
  induction T as [|x r l rows Hx T IH]; [split; constructor|].
  destruct IH as [IH1 IH2].
  unfold Final_1.lookup in Hx.
  repeat match type of Hx with
  | context [Final_1.bind (match get ?d ?k with _ => _ end) _] =>
      destruct (get d k) eqn:?; cbn [Final_1.bind] in Hx; [|discriminate]
  end.
  injection Hx as <-. simpl. split; [now f_equal|].
  constructor; [|assumption]. simpl.
  match goal with
  | E : get (map _ _) x = Some _ |- _ =>
      rewrite (get_map_const (fun _ => 0%Q)) in E;
      destruct (in_dec string_dec x (nodes G)); congruence
  end.
Qed.

(** C4 at [N.py]: the same call is not guarded there, and the convergence
    exception of the eigenvector routine reaches the caller. *)
Theorem N_statistics_propagates_nonconvergence cl bt eig repr G professor_name :
  eig G 1000%nat (1 # 1000000)%Q = Raise PowerIterationFailedConvergence ->
  N.analyze_network_statistics cl bt eig repr G professor_name
    = Raise PowerIterationFailedConvergence.
Proof. intros H. unfold N.analyze_network_statistics. now rewrite H. Qed.

Lemma N_statistics_propagates_nonconvergence_witness :
  N.analyze_network_statistics
    (fun _ => []) (fun _ => []) (fun _ _ _ => Raise PowerIterationFailedConvergence)
    (fun _ => "") (add_node empty "P" [("node_type", VStr "professor")]) "P"
  = Raise PowerIterationFailedConvergence.
Proof.
  now apply N_statistics_propagates_nonconvergence.
Defined.

(** *** Degree centrality *)

Lemma degree_centrality_get G n :
  In n (nodes G) ->
  get (degree_centrality G) n =
  Some (if (number_of_nodes G <=? 1)%nat then 1%Q
        else (inject_Z (Z.of_nat (degree G n)) *
              (1 / (inject_Z (Z.of_nat (number_of_nodes G)) - 1)))%Q).
Proof.
  intros H. unfold degree_centrality.
  destruct (number_of_nodes G <=? 1)%nat; rewrite get_map_const;
    destruct (in_dec string_dec n (nodes G)); tauto.
Qed.




(** The rows written by [Final/1.py] carry these values. *)
Lemma Final_1_rows_degree cl bt eig fmt3 G professor_name out rows :
  Final_1.analyze_network_statistics cl bt eig fmt3 G professor_name
    = Ok (out, rows) ->
  Forall (fun r => get (degree_centrality G) (Final_1.row_node r)
                   = Some (Final_1.row_degree r)) rows.
Proof.
  unfold Final_1.analyze_network_statistics.
  destruct (eig G 1000%nat (1 # 1000000)%Q) as [d|e];
    unfold Final_1.lookup at 1 2 3 4;
    repeat match goal with
    | |- context [Final_1.bind (match get ?d ?k with _ => _ end) _] =>
        destruct (get d k) eqn:?; cbn [Final_1.bind]; [|discriminate]
    end;
    match goal with
    | |- context [Final_1.traverse ?f ?l] =>
        destruct (Final_1.traverse f l) as [rows'|] eqn:T;
          cbn [Final_1.bind]; [|discriminate]
    end;
    intros [= <- <-]; apply traverse_Ok in T;
    (induction T as [|x r l rows Hx T IH]; [constructor|]);
    (constructor; [|assumption]);
    unfold Final_1.lookup in Hx;
    repeat match type of Hx with
    | context [Final_1.bind (match get ?d ?k with _ => _ end) _] =>
        destruct (get d k) eqn:?; cbn [Final_1.bind] in Hx; [|discriminate]
    end;
    injection Hx as <-; simpl; assumption.
Qed.

End Statistics.

Section StatisticsTotal.
Import Py NX.

Lemma traverse_total {A B} (f : A -> result B) (l : list A) :
  (forall x, In x l -> exists y, f x = Ok y) ->
  exists ys, Final_1.traverse f l = Ok ys.
Proof.
  induction l as [|x l IH]; intros H; simpl; [now exists []|].
  destruct (H x (or_introl eq_refl)) as [y ->].
  destruct IH as [ys ->]; [intros z Hz; apply H; now right|].
  now exists (y :: ys).
Qed.

Lemma lookup_Some {V} (d : dict V) k v :
  get d k = Some v -> Final_1.lookup d k = Ok v.
Proof. unfold Final_1.lookup. now intros ->. Qed.

(** [Final/1.py]: on a graph whose nodes all carry a [node_type], with
    closeness and betweenness tables that cover the nodes, a failure of the
    eigenvector routine does not stop the statistics: the call returns, its
    output has the warning, and the table has one row per node with
    eigenvector value 0. *)
Theorem Final_1_statistics_nonconvergence
        cl bt eig fmt3 G professor_name e :
  eig G 1000%nat (1 # 1000000)%Q = Raise e ->
  In professor_name (nodes G) ->
  (forall n, In n (nodes G) -> exists c, get (cl G) n = Some c) ->
  (forall n, In n (nodes G) -> exists b, get (bt G) n = Some b) ->
  (forall n, In n (nodes G) -> exists t, node_type G n = Some t) ->
  exists out rows,
    Final_1.analyze_network_statistics cl bt eig fmt3 G professor_name
      = Ok (out, rows) /\
    In (convergence_warning professor_name) out /\
    map Final_1.row_node rows = nodes G /\
    Forall (fun r => Final_1.row_eigenvector r = 0%Q) rows.
Proof.
  intros He Hp Hc Hb Ht.
  assert (Hz : forall n, In n (nodes G) ->
             get (map (fun node => (node, 0%Q)) (nodes G)) n = Some 0%Q).
  { intros n Hn. rewrite (get_map_const (fun _ => 0%Q)).
    now destruct (in_dec string_dec n (nodes G)). }
  assert (R : exists r,
            Final_1.analyze_network_statistics cl bt eig fmt3 G professor_name
            = Ok r).
  { unfold Final_1.analyze_network_statistics. rewrite He.
    rewrite (lookup_Some _ _ _ (degree_centrality_get G _ Hp)).
    destruct (Hc _ Hp) as [c Ec]. rewrite (lookup_Some _ _ _ Ec).
    destruct (Hb _ Hp) as [b Eb]. rewrite (lookup_Some _ _ _ Eb).
    rewrite (lookup_Some _ _ _ (Hz _ Hp)). cbn [Final_1.bind].
    match goal with
    | |- context [Final_1.traverse ?f ?l] =>
        destruct (traverse_total f l) as [rows ->]
    end; [|cbn [Final_1.bind]; eauto].
    intros n Hn.
    destruct (Ht _ Hn) as [t Et]. unfold node_type, node_get, node_attr in Et.
    unfold get_default. destruct (get (_node G) n) as [a|]; [|discriminate].
    rewrite (lookup_Some _ _ _ Et).
    rewrite (lookup_Some _ _ _ (degree_centrality_get G _ Hn)).
    destruct (Hc _ Hn) as [c' Ec']. rewrite (lookup_Some _ _ _ Ec').
    destruct (Hb _ Hn) as [b' Eb']. rewrite (lookup_Some _ _ _ Eb').
    rewrite (lookup_Some _ _ _ (Hz _ Hn)). cbn [Final_1.bind]. eauto. }
  destruct R as [[out rows] R]. exists out, rows. split; [assumption|].
  exact (Final_1_statistics_zero_fill cl bt eig fmt3 G professor_name e
           out rows He R).
Qed.

Lemma Final_1_statistics_nonconvergence_witness :
  let G := add_node empty "P" [("node_type", VStr "professor")] in
  exists out rows,
    Final_1.analyze_network_statistics
      (fun _ => [("P", 0%Q)]) (fun _ => [("P", 0%Q)])
      (fun _ _ _ => Raise PowerIterationFailedConvergence) (fun _ => "")
      G "P" = Ok (out, rows) /\
    In (convergence_warning "P") out /\
    map Final_1.row_node rows = nodes G /\
    Forall (fun r => Final_1.row_eigenvector r = 0%Q) rows.
Proof.
  intros G.
  apply (Final_1_statistics_nonconvergence _ _ _ _ G "P"
           PowerIterationFailedConvergence).
  - reflexivity.
  - simpl. auto.
  - intros n [<-|[]]. now exists 0%Q.
  - intros n [<-|[]]. now exists 0%Q.
  - intros n [<-|[]]. now exists (VStr "professor").
Defined.

End StatisticsTotal.


(* ================================================================= *)
(** ** The shared-connections builder *)

Module SharedFacts.
Import Py PyFacts NX NXFacts SharedShape.

Lemma N_shape profiles :
  N.find_shared_connections profiles = build N_prof_attr N_shared_attr profiles.
Proof. reflexivity. Qed.

Lemma Final_1_shape profiles :
  Final_1.find_shared_connections profiles
  = build Final_1_prof_attr Final_1_shared_attr profiles.
Proof. reflexivity. Qed.

Section Shape.
Variable prof_attr : Profile -> attrs.
Variable shared_attr : string -> attrs.
Hypothesis prof_attr_type :
  forall p a, get (update a (prof_attr p)) "node_type" = Some (VStr "professor").
Hypothesis shared_attr_type :
  forall c a,
    get (update a (shared_attr c)) "node_type" = Some (VStr "shared_coauthor").

#[local] Abbreviation attach := (attach shared_attr).
#[local] Abbreviation link := (link shared_attr).
#[local] Abbreviation graph_after := (graph_after prof_attr).

(** *** The first loop *)

Lemma collect_fold profiles G D :
  fold_left (collect prof_attr) profiles (G, D)
  = (graph_after G profiles, dict_after D profiles).
Proof.
  revert G D. induction profiles as [|[p|] ps IH]; intros G D; simpl.
  - reflexivity.
  - apply IH.
  - apply IH.
Qed.

Lemma wf_graph_after profiles G : wf G -> wf (graph_after G profiles).
Proof.
  revert G. induction profiles as [|[p|] ps IH]; intros G W; simpl; auto.
  apply IH. now apply wf_add_node.
Qed.

Lemma has_node_graph_after profiles G n :
  has_node (graph_after G profiles) n
  = has_node G n || mem n (professor_names profiles).
Proof.
  revert G. induction profiles as [|[p|] ps IH]; intros G; simpl.
  - now rewrite orb_false_r.
  - rewrite IH, has_node_add_node. unfold professor_names; simpl.
    rewrite (String.eqb_sym n). 
    destruct (has_node G n), (String.eqb (name p) n); reflexivity.
  - apply IH.
Qed.

Lemma edge_attr_graph_after profiles G u v :
  wf G -> edge_attr (graph_after G profiles) u v = edge_attr G u v.
Proof.
  revert G. induction profiles as [|[p|] ps IH]; intros G W; simpl; auto.
  rewrite IH by now apply wf_add_node. now apply edge_attr_add_node.
Qed.

Lemma node_type_graph_after profiles G n :
  node_type (graph_after G profiles) n
  = if mem n (professor_names profiles) then Some (VStr "professor")
    else node_type G n.
Proof.
  revert G. induction profiles as [|[p|] ps IH]; intros G; simpl.
  - reflexivity.
  - rewrite IH. unfold professor_names; simpl. rewrite (String.eqb_sym n).
    destruct (mem n (map name (fetched ps))); [now rewrite orb_true_r|].
    rewrite orb_false_r. unfold node_type. rewrite node_get_add_node.
    destruct (String.eqb (name p) n); [apply prof_attr_type | reflexivity].
  - apply IH.
Qed.

Lemma keys_dict_after profiles D k :
  In k (keys (dict_after D profiles))
  <-> In k (keys D) \/ In k (professor_names profiles).
Proof.
  revert D. induction profiles as [|[p|] ps IH]; intros D; simpl.
  - unfold professor_names; simpl. tauto.
  - rewrite IH, In_keys_setitem. unfold professor_names; simpl. tauto.
  - apply IH.
Qed.

Lemma NoDup_dict_after profiles D :
  NoDup (keys D) -> NoDup (keys (dict_after D profiles)).
Proof.
  revert D. induction profiles as [|[p|] ps IH]; intros D H; simpl; auto.
  apply IH. now apply NoDup_keys_setitem.
Qed.

Lemma get_dict_after_other profiles D k :
  ~ In k (professor_names profiles) -> get (dict_after D profiles) k = get D k.
Proof.
  revert D. induction profiles as [|[p|] ps IH]; intros D H; simpl; auto.
  unfold professor_names in *; simpl in H.
  rewrite IH by tauto. apply get_setitem_other. tauto.
Qed.

Lemma get_dict_after_origin profiles D k s :
  get (dict_after D profiles) k = Some s ->
  get D k = Some s \/
  exists p, In p (fetched profiles) /\ name p = k /\ s = set_of (coauthor_names p).
Proof.
  revert D. induction profiles as [|[p|] ps IH]; intros D H; simpl in *; auto.
  apply IH in H. destruct H as [H|[q [H1 H2]]].
  - rewrite get_setitem in H. destruct (String.eqb (name p) k) eqn:E.
    + apply String.eqb_eq in E. injection H as <-. right. exists p. auto.
    + auto.
  - right. exists q. auto.
Qed.

Lemma get_dict_after_fetched profiles D p :
  NoDup (professor_names profiles) -> In p (fetched profiles) ->
  get (dict_after D profiles) (name p) = Some (set_of (coauthor_names p)).
Proof.
  revert D. induction profiles as [|[q|] ps IH]; intros D Hnd Hin; simpl in *.
  - contradiction.
  - unfold professor_names in Hnd; simpl in Hnd. inversion Hnd; subst.
    destruct Hin as [->|Hin].
    + rewrite get_dict_after_other by assumption. apply get_setitem_same.
    + now apply IH.
  - now apply IH.
Qed.

(** *** The loop over the shared coauthors of one pair *)

Section Attach.
Variables prof1 prof2 : string.

Lemma wf_attach G c : wf G -> wf (attach prof1 prof2 G c).
Proof. intros W. unfold attach. now repeat apply wf_add_edge; apply wf_add_node. Qed.

Lemma has_node_attach G c n :
  has_node G prof1 = true -> has_node G prof2 = true ->
  has_node (attach prof1 prof2 G c) n = String.eqb c n || has_node G n.
Proof.
  intros H1 H2. unfold SharedShape.attach.
  rewrite !has_node_add_edge, has_node_add_node.
  destruct (String.eqb c n); [now rewrite !orb_true_r|].
  destruct (String.eqb prof2 n) eqn:E2.
  - apply String.eqb_eq in E2; subst. now rewrite H2, !orb_true_r.
  - destruct (String.eqb prof1 n) eqn:E1; [|reflexivity].
    apply String.eqb_eq in E1; subst. now rewrite H1.
Qed.

Lemma edge_attr_attach G c u v :
  wf G ->
  edge_attr (attach prof1 prof2 G c) u v =
  match edge_attr G u v with
  | Some a => Some a
  | None => if same_edge prof1 c u v || same_edge prof2 c u v
            then Some [] else None
  end.
Proof.
  intros W. unfold SharedShape.attach.
  rewrite !edge_attr_add_edge_nil, edge_attr_add_node;
    auto using wf_add_edge, wf_add_node.
  destruct (edge_attr G u v); [reflexivity|].
  now destruct (same_edge prof1 c u v), (same_edge prof2 c u v).
Qed.

Lemma node_type_attach G c n :
  has_node G prof1 = true -> has_node G prof2 = true ->
  node_type (attach prof1 prof2 G c) n =
  if String.eqb c n then Some (VStr "shared_coauthor") else node_type G n.
Proof.
  intros H1 H2. unfold node_type, node_get, SharedShape.attach.
  rewrite !node_attr_add_edge_existing, node_attr_add_node.
  - destruct (String.eqb c n); [apply shared_attr_type | reflexivity].
  - rewrite has_node_add_node, H1. apply orb_true_r.
  - rewrite has_node_add_node, String.eqb_refl. reflexivity.
  - rewrite has_node_add_edge, has_node_add_node, H2. now rewrite !orb_true_r.
  - rewrite has_node_add_edge, has_node_add_node, String.eqb_refl.
    now rewrite !orb_true_r.
Qed.

Lemma wf_attach_all s G : wf G -> wf (fold_left (attach prof1 prof2) s G).
Proof.
  revert G. induction s as [|c s IH]; intros G W; simpl; auto.
  apply IH. now apply wf_attach.
Qed.

Lemma has_node_attach_all s G n :
  has_node G prof1 = true -> has_node G prof2 = true ->
  has_node (fold_left (attach prof1 prof2) s G) n = mem n s || has_node G n.
Proof.
  revert G. induction s as [|c s IH]; intros G H1 H2; simpl; [reflexivity|].
  rewrite IH, has_node_attach by (rewrite ?has_node_attach, ?H1, ?H2, ?orb_true_r; auto).
  rewrite (String.eqb_sym n).
  destruct (String.eqb c n), (mem n s); reflexivity.
Qed.

Lemma edge_attr_attach_all s G u v :
  wf G ->
  edge_attr (fold_left (attach prof1 prof2) s G) u v =
  match edge_attr G u v with
  | Some a => Some a
  | None => if existsb (fun c => same_edge prof1 c u v || same_edge prof2 c u v) s
            then Some [] else None
  end.
Proof.
  revert G. induction s as [|c s IH]; intros G W; simpl.
  - now destruct (edge_attr G u v).
  - rewrite IH, edge_attr_attach by auto using wf_attach.
    destruct (edge_attr G u v); [reflexivity|].
    destruct (same_edge prof1 c u v || same_edge prof2 c u v); [reflexivity|].
    reflexivity.
Qed.

Lemma node_type_attach_all s G n :
  has_node G prof1 = true -> has_node G prof2 = true ->
  node_type (fold_left (attach prof1 prof2) s G) n =
  if mem n s then Some (VStr "shared_coauthor") else node_type G n.
Proof.
  revert G. induction s as [|c s IH]; intros G H1 H2; simpl; [reflexivity|].
  rewrite IH, node_type_attach by (rewrite ?has_node_attach, ?H1, ?H2, ?orb_true_r; auto).
  rewrite (String.eqb_sym n).
  destruct (String.eqb c n), (mem n s); reflexivity.
Qed.

End Attach.

(** *** One pair of professors *)

Lemma link_eq G pr :
  link G pr =
  if truthy (shared_of pr) then
    fold_left (attach (fst (fst pr)) (fst (snd pr))) (shared_of pr)
      (add_edge G (fst (fst pr)) (fst (snd pr))
         [("weight", VInt (len (shared_of pr)));
          ("shared_coauthors", VList (shared_of pr))])
  else G.
Proof. destruct pr as [[p1 c1] [p2 c2]]. reflexivity. Qed.

Lemma wf_link G pr : wf G -> wf (link G pr).
Proof.
  intros W. rewrite link_eq. destruct (truthy (shared_of pr)); [|assumption].
  now apply wf_attach_all, wf_add_edge.
Qed.

Lemma has_node_link G pr n :
  names_in G pr ->
  has_node (link G pr) n = mem n (shared_of pr) || has_node G n.
Proof.
  intros [H1 H2]. rewrite link_eq.
  destruct (truthy (shared_of pr)) eqn:E.
  - rewrite has_node_attach_all, has_node_add_edge_existing; auto;
      now rewrite has_node_add_edge_existing.
  - apply truthy_false in E. now rewrite E.
Qed.

Lemma edge_attr_link G pr u v :
  wf G ->
  edge_attr (link G pr) u v =
  if weighs u v pr then
    Some (update (attrs_or_empty (edge_attr G (fst (fst pr)) (fst (snd pr))))
            [("weight", VInt (len (shared_of pr)));
             ("shared_coauthors", VList (shared_of pr))])
  else
    match edge_attr G u v with
    | Some a => Some a
    | None => if touches u v pr then Some [] else None
    end.
Proof.
  intros W. rewrite link_eq. unfold weighs, touches.
  destruct (truthy (shared_of pr)) eqn:E; simpl.
  - rewrite edge_attr_attach_all, edge_attr_add_edge by auto using wf_add_edge.
    destruct (same_edge (fst (fst pr)) (fst (snd pr)) u v); [reflexivity|].
    reflexivity.
  - now destruct (edge_attr G u v).
Qed.

Lemma weighs_touches u v pr : weighs u v pr = true -> touches u v pr = true.
Proof.
  unfold weighs, touches. rewrite !andb_true_iff. intros [-> ->]. auto.
Qed.

Lemma has_edge_link G pr u v :
  wf G -> has_edge (link G pr) u v = has_edge G u v || touches u v pr.
Proof.
  intros W. rewrite !has_edge_edge_attr, edge_attr_link by assumption.
  destruct (weighs u v pr) eqn:E.
  - rewrite (weighs_touches _ _ _ E). now rewrite orb_true_r.
  - destruct (edge_attr G u v); [reflexivity|]. simpl.
    now destruct (touches u v pr).
Qed.

Lemma edge_get_link G pr u v key :
  wf G ->
  edge_get (link G pr) u v key =
  if weighs u v pr then
    match get [("shared_coauthors", VList (shared_of pr));
               ("weight", VInt (len (shared_of pr)))] key with
    | Some x => Some x
    | None => edge_get G (fst (fst pr)) (fst (snd pr)) key
    end
  else edge_get G u v key.
Proof.
  intros W. unfold edge_get. rewrite edge_attr_link by assumption.
  destruct (weighs u v pr).
  - rewrite get_update. simpl rev.
    destruct (get _ key); [reflexivity|].
    now destruct (edge_attr G (fst (fst pr)) (fst (snd pr))).
  - destruct (edge_attr G u v); [reflexivity|].
    now destruct (touches u v pr).
Qed.

Lemma weight_link G pr u v :
  wf G ->
  weight (link G pr) u v =
  if weighs u v pr then Some (VInt (len (shared_of pr))) else weight G u v.
Proof. intros W. unfold weight. now rewrite edge_get_link. Qed.

Lemma shared_coauthors_link G pr u v :
  wf G ->
  shared_coauthors (link G pr) u v =
  if weighs u v pr then Some (VList (shared_of pr))
  else shared_coauthors G u v.
Proof. intros W. unfold shared_coauthors. now rewrite edge_get_link. Qed.

Lemma node_type_link G pr n :
  names_in G pr ->
  node_type (link G pr) n =
  if mem n (shared_of pr) then Some (VStr "shared_coauthor")
  else node_type G n.
Proof.
  intros [H1 H2]. rewrite link_eq.
  destruct (truthy (shared_of pr)) eqn:E.
  - rewrite node_type_attach_all; try now rewrite has_node_add_edge_existing.
    destruct (mem n (shared_of pr)); [reflexivity|].
    unfold node_type, node_get. now rewrite node_attr_add_edge_existing.
  - apply truthy_false in E. now rewrite E.
Qed.

(** *** The loop over the pairs *)

Lemma names_in_link G pr pr' : names_in G pr -> names_in G pr' -> names_in (link G pr) pr'.
Proof.
  intros H [H1 H2]. split; rewrite has_node_link by assumption;
    [rewrite H1 | rewrite H2]; apply orb_true_r.
Qed.

Lemma names_in_link_all G pr L :
  names_in G pr -> Forall (names_in G) L -> Forall (names_in (link G pr)) L.
Proof.
  intros H HL. eapply Forall_impl; [|exact HL].
  intros pr'. now apply names_in_link.
Qed.

Lemma wf_links L G : wf G -> wf (fold_left link L G).
Proof.
  revert G. induction L as [|pr L IH]; intros G W; simpl; auto using wf_link.
Qed.

Lemma has_node_links L G n :
  Forall (names_in G) L ->
  has_node (fold_left link L G) n
  = existsb (fun pr => mem n (shared_of pr)) L || has_node G n.
Proof.
  revert G. induction L as [|pr L IH]; intros G H; simpl; [reflexivity|].
  inversion H as [|? ? Hpr HL]; subst.
  rewrite IH, has_node_link by auto using names_in_link_all.
  now rewrite orb_assoc, (orb_comm (existsb _ L)).
Qed.

Lemma node_type_links L G n :
  Forall (names_in G) L ->
  node_type (fold_left link L G) n
  = if existsb (fun pr => mem n (shared_of pr)) L
    then Some (VStr "shared_coauthor") else node_type G n.
Proof.
  revert G. induction L as [|pr L IH]; intros G H; simpl; [reflexivity|].
  inversion H as [|? ? Hpr HL]; subst.
  rewrite IH, node_type_link by auto using names_in_link_all.
  destruct (existsb _ L); [now rewrite orb_true_r|].
  now rewrite orb_false_r.
Qed.

Lemma has_edge_links L G u v :
  wf G ->
  has_edge (fold_left link L G) u v = has_edge G u v || existsb (touches u v) L.
Proof.
  revert G. induction L as [|pr L IH]; intros G W; simpl.
  - now rewrite orb_false_r.
  - rewrite IH, has_edge_link by auto using wf_link. now rewrite orb_assoc.
Qed.

Lemma weight_links L G u v :
  wf G ->
  weight (fold_left link L G) u v =
  match find (weighs u v) (rev L) with
  | Some pr => Some (VInt (len (shared_of pr)))
  | None => weight G u v
  end.
Proof.
  revert G. induction L as [|pr L IH]; intros G W; simpl; [reflexivity|].
  rewrite IH, find_app, weight_link by auto using wf_link.
  destruct (find (weighs u v) (rev L)); [reflexivity|]. simpl.
  now destruct (weighs u v pr).
Qed.

Lemma shared_coauthors_links L G u v :
  wf G ->
  shared_coauthors (fold_left link L G) u v =
  match find (weighs u v) (rev L) with
  | Some pr => Some (VList (shared_of pr))
  | None => shared_coauthors G u v
  end.
Proof.
  revert G. induction L as [|pr L IH]; intros G W; simpl; [reflexivity|].
  rewrite IH, find_app, shared_coauthors_link by auto using wf_link.
  destruct (find (weighs u v) (rev L)); [reflexivity|]. simpl.
  now destruct (weighs u v pr).
Qed.

(** *** The builder *)

#[local] Abbreviation build := (build prof_attr shared_attr).

Section Build.
Variable profiles : list (option Profile).
Let D := prof_coauthors profiles.
Let G0 := graph_after empty profiles.
Let pairs : list prof_pair := combinations2 D.

Lemma build_eq : build profiles = fold_left link pairs G0.
Proof. unfold SharedShape.build. now rewrite collect_fold. Qed.

Lemma wf_build : wf (build profiles).
Proof. rewrite build_eq. apply wf_links, wf_graph_after, wf_empty. Qed.

Lemma keys_prof_coauthors k : In k (keys D) <-> In k (professor_names profiles).
Proof. unfold D, prof_coauthors. rewrite keys_dict_after. simpl. tauto. Qed.

Lemma NoDup_prof_coauthors : NoDup (keys D).
Proof. apply NoDup_dict_after. constructor. Qed.

Lemma prof_coauthors_origin x :
  In x D ->
  exists p, In p (fetched profiles) /\ name p = fst x /\
            snd x = set_of (coauthor_names p).
Proof.
  destruct x as [k s]. intros H.
  apply (In_get _ _ _ NoDup_prof_coauthors) in H.
  apply get_dict_after_origin in H. destruct H as [H|H]; [discriminate|].
  exact H.
Qed.

Lemma prof_coauthors_fetched p :
  NoDup (professor_names profiles) -> In p (fetched profiles) ->
  In (name p, set_of (coauthor_names p)) D.
Proof. intros Hnd Hp. now apply get_In, get_dict_after_fetched. Qed.

Lemma has_node_G0 n : has_node G0 n = mem n (professor_names profiles).
Proof. unfold G0. now rewrite has_node_graph_after. Qed.

Lemma pairs_names_in : Forall (names_in G0) pairs.
Proof.
  apply Forall_forall. intros [x y] H. apply In_combinations2 in H.
  destruct H as [Hx Hy]. split; simpl; rewrite has_node_G0; apply mem_In;
    apply keys_prof_coauthors; now apply in_map.
Qed.

(** a property of a pair that does not depend on its orientation holds for
    some pair of the loop iff it holds for two entries of the dictionary *)
Lemma exists_pair (P : prof_pair -> Prop) :
  (forall x y, P (x, y) -> P (y, x)) ->
  (exists pr, In pr pairs /\ P pr) <->
  (exists x y, In x D /\ In y D /\ fst x <> fst y /\ P (x, y)).
Proof.
  intros Psym. split.
  - intros [[x y] [H HP]]. exists x, y.
    pose proof (combinations2_distinct fst D x y NoDup_prof_coauthors H).
    apply In_combinations2 in H. tauto.
  - intros [x [y [Hx [Hy [Hne HP]]]]].
    destruct (combinations2_complete fst D x y Hx Hy Hne); eauto.
Qed.

Lemma shared_of_swap x y n :
  In n (shared_of (x, y)) <-> In n (shared_of (y, x)).
Proof. unfold shared_of; simpl. rewrite !In_intersection. tauto. Qed.

Lemma truthy_shared_of_swap x y :
  truthy (shared_of (x, y)) = truthy (shared_of (y, x)).
Proof.
  destruct (truthy (shared_of (x, y))) eqn:E; symmetry.
  - apply truthy_true in E. apply truthy_true. destruct E as [n E].
    exists n. now apply shared_of_swap.
  - destruct (truthy (shared_of (y, x))) eqn:E'; [|reflexivity].
    apply truthy_true in E'. destruct E' as [n E'].
    apply shared_of_swap in E'.
    assert (truthy (shared_of (x, y)) = true) by (apply truthy_true; eauto).
    congruence.
Qed.

Lemma same_edge_swap_l u v x y : same_edge u v x y = same_edge v u x y.
Proof.
  unfold same_edge.
  destruct (String.eqb u x), (String.eqb v y), (String.eqb v x),
    (String.eqb u y); reflexivity.
Qed.

Lemma touches_true u v pr :
  touches u v pr = true <->
  exists c, In c (shared_of pr) /\
    (same_edge (fst (fst pr)) (fst (snd pr)) u v = true \/
     same_edge (fst (fst pr)) c u v = true \/
     same_edge (fst (snd pr)) c u v = true).
Proof.
  unfold touches. rewrite andb_true_iff, orb_true_iff, truthy_true, existsb_exists.
  split.
  - intros [[c Hc] [H|[c' [Hc' H]]]].
    + exists c. tauto.
    + exists c'. apply orb_true_iff in H. tauto.
  - intros [c [Hc H]]. split; [eauto|].
    destruct H as [H|H]; [tauto|]. right. exists c.
    rewrite orb_true_iff. tauto.
Qed.

Lemma touches_swap u v x y : touches u v (x, y) = true -> touches u v (y, x) = true.
Proof.
  rewrite !touches_true. intros [c [Hc H]]. exists c.
  split; [now apply shared_of_swap|]. simpl in *.
  rewrite (same_edge_swap_l (fst y) (fst x)). tauto.
Qed.

Lemma has_node_build n :
  has_node (build profiles) n = true <->
  In n (professor_names profiles) \/
  exists x y, In x D /\ In y D /\ fst x <> fst y /\ In n (shared_of (x, y)).
Proof.
  rewrite build_eq, has_node_links by apply pairs_names_in.
  rewrite orb_true_iff, has_node_G0, mem_In, existsb_exists.
  rewrite <- (exists_pair (fun pr => In n (shared_of pr))).
  - setoid_rewrite mem_In. tauto.
  - intros x y. apply shared_of_swap.
Qed.

Lemma has_edge_build u v :
  has_edge (build profiles) u v = true <->
  exists x y, In x D /\ In y D /\ fst x <> fst y /\ touches u v (x, y) = true.
Proof.
  rewrite build_eq, has_edge_links by apply wf_graph_after, wf_empty.
  rewrite orb_true_iff, existsb_exists.
  rewrite <- (exists_pair (fun pr => touches u v pr = true)).
  - rewrite has_edge_edge_attr. unfold G0.
    rewrite edge_attr_graph_after by apply wf_empty. simpl.
    split; [intros [H|H]; [discriminate | exact H] | tauto].
  - intros x y. apply touches_swap.
Qed.

Lemma node_type_build n :
  node_type (build profiles) n =
  if existsb (fun pr => mem n (shared_of pr)) pairs
  then Some (VStr "shared_coauthor")
  else if mem n (professor_names profiles) then Some (VStr "professor")
       else None.
Proof.
  rewrite build_eq, node_type_links by apply pairs_names_in.
  unfold G0. rewrite node_type_graph_after. reflexivity.
Qed.

Lemma NoDup_prof_coauthors_value x : In x D -> NoDup (snd x).
Proof.
  intros H. destruct (prof_coauthors_origin x H) as [p [_ [_ ->]]].
  apply NoDup_set_of.
Qed.

Lemma len_shared_of_swap x y :
  In x D -> In y D -> len (shared_of (x, y)) = len (shared_of (y, x)).
Proof.
  intros Hx Hy. unfold len. f_equal. apply Permutation_length.
  apply intersection_comm; now apply NoDup_prof_coauthors_value.
Qed.

Lemma weighs_true u v pr :
  weighs u v pr = true <->
  shared_of pr <> [] /\
  ((fst (fst pr) = u /\ fst (snd pr) = v) \/
   (fst (snd pr) = u /\ fst (fst pr) = v)).
Proof.
  unfold weighs. rewrite andb_true_iff, same_edge_true.
  destruct (shared_of pr); simpl; intuition congruence.
Qed.

Lemma weight_G0 u v : weight G0 u v = None.
Proof.
  unfold weight, edge_get, G0.
  now rewrite edge_attr_graph_after by apply wf_empty.
Qed.

Lemma shared_coauthors_G0 u v : shared_coauthors G0 u v = None.
Proof.
  unfold shared_coauthors, edge_get, G0.
  now rewrite edge_attr_graph_after by apply wf_empty.
Qed.

(** the pair of the loop that sets the attributes of the edge [u]-[v] *)
Lemma find_weighs u v :
  match find (weighs u v) (rev pairs) with
  | Some pr =>
      In (fst pr) D /\ In (snd pr) D /\ fst (fst pr) <> fst (snd pr) /\
      weighs u v pr = true
  | None =>
      forall x y, In x D -> In y D -> fst x <> fst y ->
                  weighs u v (x, y) = false
  end.
Proof.
  destruct (find (weighs u v) (rev pairs)) as [[x y]|] eqn:F.
  - apply find_some in F. destruct F as [F1 F2]. apply in_rev in F1.
    pose proof (combinations2_distinct fst D x y NoDup_prof_coauthors F1).
    apply In_combinations2 in F1. simpl. tauto.
  - intros x y Hx Hy Hne.
    pose proof (find_none _ _ F) as N.
    destruct (combinations2_complete fst D x y Hx Hy Hne) as [H|H];
      apply in_rev in H; apply N in H; [exact H|].
    destruct (weighs u v (x, y)) eqn:E; [|reflexivity].
    apply weighs_true in E. simpl in E.
    assert (E' : weighs u v (y, x) = true).
    { apply weighs_true. simpl. split; [|tauto].
      intros Z. apply (proj1 E). apply truthy_false.
      rewrite truthy_shared_of_swap. now apply truthy_false. }
    congruence.
Qed.

Lemma weight_build u v w :
  weight (build profiles) u v = Some w <->
  exists x y, In x D /\ In y D /\ fst x <> fst y /\
              u = fst x /\ v = fst y /\
              shared_of (x, y) <> [] /\ w = VInt (len (shared_of (x, y))).
Proof.
  rewrite build_eq, weight_links by apply wf_graph_after, wf_empty.
  pose proof (find_weighs u v) as F.
  destruct (find (weighs u v) (rev pairs)) as [[x y]|];
    simpl in F; cbv beta iota.
  - destruct F as [Hx [Hy [Hne F]]]. apply weighs_true in F. simpl in F.
    destruct F as [Hs F]. split.
    + intros [= <-]. destruct F as [[<- <-]|[<- <-]].
      * exists x, y. tauto.
      * exists y, x. repeat split; auto.
        -- intros Z. apply Hs. apply truthy_false.
           rewrite truthy_shared_of_swap. now apply truthy_false.
        -- now rewrite len_shared_of_swap.
    + intros [x' [y' [Hx' [Hy' [Hne' [-> [-> [Hs' ->]]]]]]]].
      destruct F as [[E1 E2]|[E1 E2]].
      * apply (NoDup_map_inj fst D _ _ NoDup_prof_coauthors Hx Hx') in E1.
        apply (NoDup_map_inj fst D _ _ NoDup_prof_coauthors Hy Hy') in E2.
        now subst.
      * apply (NoDup_map_inj fst D _ _ NoDup_prof_coauthors Hy Hx') in E1.
        apply (NoDup_map_inj fst D _ _ NoDup_prof_coauthors Hx Hy') in E2.
        subst. now rewrite len_shared_of_swap.
  - rewrite weight_G0. split; [discriminate|].
    intros [x [y [Hx [Hy [Hne [-> [-> [Hs _]]]]]]]].
    specialize (F x y Hx Hy Hne).
    assert (weighs (fst x) (fst y) (x, y) = true) by (apply weighs_true; simpl; tauto).
    congruence.
Qed.

Lemma shared_coauthors_build u v l :
  shared_coauthors (build profiles) u v = Some l ->
  exists x y s, In x D /\ In y D /\ fst x <> fst y /\
                u = fst x /\ v = fst y /\ l = VList s /\
                Permutation s (shared_of (x, y)).
Proof.
  rewrite build_eq, shared_coauthors_links by apply wf_graph_after, wf_empty.
  pose proof (find_weighs u v) as F.
  destruct (find (weighs u v) (rev pairs)) as [[x y]|];
    simpl in F; cbv beta iota.
  - destruct F as [Hx [Hy [Hne F]]]. apply weighs_true in F. simpl in F.
    destruct F as [Hs F]. intros [= <-]. destruct F as [[<- <-]|[<- <-]].
    + exists x, y, (shared_of (x, y)). repeat split; auto.
    + exists y, x, (shared_of (x, y)). repeat split; auto.
      apply intersection_comm; now apply NoDup_prof_coauthors_value.
  - rewrite shared_coauthors_G0. discriminate.
Qed.

Lemma shared_coauthors_defined u v w :
  weight (build profiles) u v = Some w ->
  exists s, shared_coauthors (build profiles) u v = Some (VList s).
Proof.
  rewrite build_eq, weight_links, shared_coauthors_links
    by apply wf_graph_after, wf_empty.
  destruct (find (weighs u v) (rev pairs)); [eauto|].
  rewrite weight_G0. discriminate.
Qed.

(** *** In terms of the profiles, when the professors' names are distinct *)

Section Distinct.
Hypothesis distinct : NoDup (professor_names profiles).

Lemma In_prof_coauthors x :
  In x D <-> exists p, In p (fetched profiles) /\ x = entry p.
Proof.
  split.
  - intros H. destruct (prof_coauthors_origin x H) as [p [Hp [E1 E2]]].
    exists p. split; [assumption|]. destruct x; simpl in *. now subst.
  - intros [p [Hp ->]]. now apply prof_coauthors_fetched.
Qed.

Lemma In_shared_of_entry p q n :
  In n (shared_of (entry p, entry q)) <->
  In n (coauthor_names p) /\ In n (coauthor_names q).
Proof. unfold shared_of, entry; simpl. now rewrite In_intersection, !In_set_of. Qed.

Lemma exists_entries (P : string * pyset -> string * pyset -> Prop) :
  (exists x y, In x D /\ In y D /\ fst x <> fst y /\ P x y) <->
  (exists p q, In p (fetched profiles) /\ In q (fetched profiles) /\
               name p <> name q /\ P (entry p) (entry q)).
Proof.
  split.
  - intros [x [y [Hx [Hy [Hne HP]]]]].
    apply In_prof_coauthors in Hx, Hy.
    destruct Hx as [p [Hp ->]], Hy as [q [Hq ->]]. exists p, q. auto.
  - intros [p [q [Hp [Hq [Hne HP]]]]]. exists (entry p), (entry q).
    repeat split; auto; apply In_prof_coauthors; eauto.
Qed.

Lemma shared_nodes n :
  has_node (build profiles) n = true <->
  In n (professor_names profiles) \/ shared_name profiles n.
Proof.
  rewrite has_node_build.
  rewrite (exists_entries (fun x y => In n (shared_of (x, y)))).
  unfold shared_name. setoid_rewrite In_shared_of_entry. tauto.
Qed.

Lemma shared_in_pairs n :
  existsb (fun pr => mem n (shared_of pr)) pairs = true <->
  shared_name profiles n.
Proof.
  rewrite existsb_exists. setoid_rewrite mem_In.
  rewrite (exists_pair (fun pr => In n (shared_of pr)))
    by (intros x y; apply shared_of_swap).
  rewrite (exists_entries (fun x y => In n (shared_of (x, y)))).
  unfold shared_name. setoid_rewrite In_shared_of_entry. tauto.
Qed.

Lemma shared_types n t :
  node_type (build profiles) n = Some t <->
  (t = VStr "shared_coauthor" /\ shared_name profiles n) \/
  (t = VStr "professor" /\ In n (professor_names profiles) /\
   ~ shared_name profiles n).
Proof.
  rewrite node_type_build. rewrite <- shared_in_pairs.
  destruct (existsb _ pairs).
  - split; [intros [= <-]; tauto|]. intros [[-> _]|[_ [_ H]]]; congruence.
  - destruct (mem n (professor_names profiles)) eqn:E.
    + apply mem_In in E. split; [intros [= <-]; right; repeat split; auto|].
      intros [[_ H]|[-> _]]; congruence.
    + apply mem_false in E. split; [discriminate|].
      intros [[_ H]|[_ [H _]]]; [discriminate | tauto].
Qed.

Lemma shared_edges u v :
  has_edge (build profiles) u v = true <-> linked profiles u v.
Proof.
  rewrite has_edge_build.
  rewrite (exists_entries (fun x y => touches u v (x, y) = true)).
  unfold linked. split.
  - intros [p [q [Hp [Hq [Hne H]]]]]. apply touches_true in H.
    destruct H as [c [Hc H]]. apply In_shared_of_entry in Hc. simpl in H.
    rewrite !same_edge_true in H.
    destruct H as [[[<- <-]|[<- <-]]|[[[<- <-]|[<- <-]]|[[<- <-]|[<- <-]]]].
    + exists p, q, c. tauto.
    + exists q, p, c. intuition congruence.
    + exists p, q, c. tauto.
    + exists p, q, c. tauto.
    + exists q, p, c. intuition congruence.
    + exists q, p, c. intuition congruence.
  - intros [p [q [c [Hp [Hq [Hne [Hc1 [Hc2 H]]]]]]]].
    exists p, q. repeat split; auto. apply touches_true. exists c.
    split; [apply In_shared_of_entry; tauto|]. simpl.
    rewrite !same_edge_true. intuition congruence.
Qed.

Lemma shared_weights u v w :
  weight (build profiles) u v = Some w <-> weighted profiles u v w.
Proof.
  rewrite weight_build.
  rewrite (exists_entries
             (fun x y => u = fst x /\ v = fst y /\ shared_of (x, y) <> [] /\
                         w = VInt (len (shared_of (x, y))))).
  reflexivity.
Qed.

End Distinct.

End Build.

End Shape.

(** *** The attributes of the two scripts *)

Lemma N_prof_attr_type p a :
  get (update a (N_prof_attr p)) "node_type" = Some (VStr "professor").
Proof. now rewrite get_update. Qed.

Lemma N_shared_attr_type c a :
  get (update a (N_shared_attr c)) "node_type" = Some (VStr "shared_coauthor").
Proof. now rewrite get_update. Qed.

Lemma Final_1_prof_attr_type p a :
  get (update a (Final_1_prof_attr p)) "node_type" = Some (VStr "professor").
Proof. now rewrite get_update. Qed.

Lemma Final_1_shared_attr_type c a :
  get (update a (Final_1_shared_attr c)) "node_type"
  = Some (VStr "shared_coauthor").
Proof. now rewrite get_update. Qed.

Lemma pairwise_shared_name profiles n :
  NoDup (professor_names profiles) ->
  pairwise_shared profiles n <-> shared_name profiles n.
Proof.
  intros Hnd. unfold pairwise_shared, shared_name. split.
  - intros [p [q [H [H1 H2]]]]. exists p, q.
    pose proof (combinations2_distinct name _ p q Hnd H).
    apply In_combinations2 in H. tauto.
  - intros [p [q [Hp [Hq [Hne [H1 H2]]]]]].
    destruct (combinations2_complete name _ p q Hp Hq Hne); eauto.
Qed.

Lemma professors_apart_not_shared profiles n :
  professors_apart profiles -> In n (professor_names profiles) ->
  ~ shared_name profiles n.
Proof.
  intros Ha Hn [p [q [Hp [Hq [_ [H1 _]]]]]].
  apply in_map_iff in Hn. destruct Hn as [r [<- Hr]].
  exact (Ha r p Hr Hp H1).
Qed.

(** *** The node set *)

Section NodeSet.
Variable prof_attr : Profile -> attrs.
Variable shared_attr : string -> attrs.
Hypothesis prof_attr_type :
  forall p a, get (update a (prof_attr p)) "node_type" = Some (VStr "professor").
Hypothesis shared_attr_type :
  forall c a,
    get (update a (shared_attr c)) "node_type" = Some (VStr "shared_coauthor").

Lemma build_node_set profiles :
  NoDup (professor_names profiles) -> professors_apart profiles ->
  let G := build prof_attr shared_attr profiles in
  (forall n, In n (nodes G) <->
             In n (professor_names profiles) \/ pairwise_shared profiles n) /\
  (forall n, In n (professor_names profiles) ->
             node_type G n = Some (VStr "professor")) /\
  (forall n, pairwise_shared profiles n ->
             node_type G n = Some (VStr "shared_coauthor")) /\
  (forall n, node_type G n <> Some (VStr "coauthor")).
Proof.
  intros Hnd Ha G. repeat split.
  - rewrite <- has_node_In. unfold G.
    rewrite (shared_nodes prof_attr shared_attr) by assumption.
    rewrite pairwise_shared_name by assumption. tauto.
  - rewrite <- has_node_In. unfold G.
    rewrite (shared_nodes prof_attr shared_attr) by assumption.
    rewrite pairwise_shared_name by assumption. tauto.
  - intros n Hn.
    apply (shared_types prof_attr shared_attr prof_attr_type shared_attr_type
             profiles Hnd).
    right. repeat split; auto using professors_apart_not_shared.
  - intros n Hn.
    apply (shared_types prof_attr shared_attr prof_attr_type shared_attr_type
             profiles Hnd).
    left. split; [reflexivity|]. now apply pairwise_shared_name.
  - intros n. unfold G.
    rewrite (node_type_build prof_attr shared_attr prof_attr_type
               shared_attr_type).
    destruct (existsb _ _); [discriminate|].
    destruct (mem n _); discriminate.
Qed.

End NodeSet.

(** *** Permuted input *)

Lemma Permutation_fetched l l' :
  Permutation l l' -> Permutation (fetched l) (fetched l').
Proof. apply Permutation_flat_map. Qed.

Section Perm.
Variables l l' : list (option Profile).
Hypothesis perm : Permutation l l'.

Lemma In_fetched_perm p : In p (fetched l) <-> In p (fetched l').
Proof.
  split; apply Permutation_in;
    [|symmetry]; now apply Permutation_fetched.
Qed.

Lemma professor_names_perm :
  Permutation (professor_names l) (professor_names l').
Proof. apply Permutation_map. now apply Permutation_fetched. Qed.

Lemma In_professor_names_perm n :
  In n (professor_names l) <-> In n (professor_names l').
Proof.
  split; apply Permutation_in; [|symmetry]; apply professor_names_perm.
Qed.

Lemma shared_name_perm n : shared_name l n <-> shared_name l' n.
Proof.
  unfold shared_name. setoid_rewrite In_fetched_perm. reflexivity.
Qed.

Lemma linked_perm u v : linked l u v <-> linked l' u v.
Proof. unfold linked. setoid_rewrite In_fetched_perm. reflexivity. Qed.

Lemma weighted_perm u v w : weighted l u v w <-> weighted l' u v w.
Proof. unfold weighted. setoid_rewrite In_fetched_perm. reflexivity. Qed.
End Perm.

Section Permuted.
Variable prof_attr : Profile -> attrs.
Variable shared_attr : string -> attrs.
Hypothesis prof_attr_type :
  forall p a, get (update a (prof_attr p)) "node_type" = Some (VStr "professor").
Hypothesis shared_attr_type :
  forall c a,
    get (update a (shared_attr c)) "node_type" = Some (VStr "shared_coauthor").

#[local] Abbreviation build := (build prof_attr shared_attr).

Lemma build_permutation profiles profiles' :
  NoDup (professor_names profiles) -> Permutation profiles profiles' ->
  isomorphic (build profiles) (build profiles') /\
  Permutation (nodes (build profiles)) (nodes (build profiles')) /\
  (forall n, node_type (build profiles) n = node_type (build profiles') n) /\
  (forall u v, has_edge (build profiles) u v = has_edge (build profiles') u v) /\
  (forall u v, weight (build profiles) u v = weight (build profiles') u v).
Proof.
  intros Hnd Hp.
  assert (Hnd' : NoDup (professor_names profiles')).
  { eapply Permutation_NoDup; [|exact Hnd]. now apply professor_names_perm. }
  assert (HN : Permutation (nodes (build profiles)) (nodes (build profiles'))).
  { apply NoDup_Permutation.
    - apply (wf_nodup _ (wf_build prof_attr shared_attr profiles)).
    - apply (wf_nodup _ (wf_build prof_attr shared_attr profiles')).
    - intros n. rewrite <- !has_node_In.
      rewrite (shared_nodes _ _ profiles Hnd), (shared_nodes _ _ profiles' Hnd').
      now rewrite (shared_name_perm _ _ Hp), (In_professor_names_perm _ _ Hp). }
  assert (HE : forall u v,
             has_edge (build profiles) u v = has_edge (build profiles') u v).
  { intros u v. apply bool_ext.
    rewrite (shared_edges _ _ profiles Hnd), (shared_edges _ _ profiles' Hnd').
    now apply linked_perm. }
  assert (HW : forall u v,
             weight (build profiles) u v = weight (build profiles') u v).
  { intros u v. apply option_ext. intros w.
    rewrite (shared_weights _ _ profiles Hnd),
      (shared_weights _ _ profiles' Hnd').
    now apply weighted_perm. }
  repeat split; auto.
  - exists (fun n => n). rewrite map_id. split; [assumption|].
    intros u v _ _. auto.
  - intros n. apply option_ext. intros t.
    rewrite (shared_types _ _ prof_attr_type shared_attr_type profiles Hnd),
      (shared_types _ _ prof_attr_type shared_attr_type profiles' Hnd').
    now rewrite (shared_name_perm _ _ Hp), (In_professor_names_perm _ _ Hp).
Qed.

End Permuted.

(** *** Three professors sharing coauthors in a cycle *)

Section Scenario.
Variables A B C P1 P2 P3 : string.
Variables p1 p2 p3 : Profile.
Hypothesis names : NoDup [A; B; C; P1; P2; P3].
Hypothesis name1 : name p1 = P1.
Hypothesis name2 : name p2 = P2.
Hypothesis name3 : name p3 = P3.
Hypothesis set1 : forall n, In n (coauthor_names p1) <-> n = A \/ n = B.
Hypothesis set2 : forall n, In n (coauthor_names p2) <-> n = B \/ n = C.
Hypothesis set3 : forall n, In n (coauthor_names p3) <-> n = C \/ n = A.

Let profiles := [Some p1; Some p2; Some p3].

Lemma scenario_distinct :
  A <> B /\ A <> C /\ A <> P1 /\ A <> P2 /\ A <> P3 /\
  B <> C /\ B <> P1 /\ B <> P2 /\ B <> P3 /\
  C <> P1 /\ C <> P2 /\ C <> P3 /\
  P1 <> P2 /\ P1 <> P3 /\ P2 <> P3.
Proof.
  clear - names.
  repeat match goal with
  | H : NoDup (_ :: _) |- _ => inversion H; clear H; subst
  end.
  simpl in *. repeat split; intros ->; tauto.
Qed.

Lemma scenario_names : NoDup (professor_names profiles).
Proof.
  unfold professor_names; simpl. rewrite name1, name2, name3.
  destruct scenario_distinct as (?&?&?&?&?&?&?&?&?&?&?&?&?&?&?).
  repeat constructor; simpl; intuition congruence.
Qed.

Lemma scenario_fetched p : In p (fetched profiles) <-> p = p1 \/ p = p2 \/ p = p3.
Proof. simpl. intuition congruence. Qed.

Ltac use_sets :=
  repeat match goal with
  | H : In _ (coauthor_names p1) |- _ => apply set1 in H
  | H : In _ (coauthor_names p2) |- _ => apply set2 in H
  | H : In _ (coauthor_names p3) |- _ => apply set3 in H
  end.

Ltac in_list := simpl; solve [repeat (first [left; reflexivity | right])].

Ltac names_neq :=
  destruct scenario_distinct as (?&?&?&?&?&?&?&?&?&?&?&?&?&?&?).

Lemma scenario_shared n : shared_name profiles n <-> n = A \/ n = B \/ n = C.
Proof.
  names_neq. unfold shared_name. setoid_rewrite scenario_fetched. split.
  - intros [p [q [Hp [Hq [Hne [Hc1 Hc2]]]]]].
    destruct Hp as [->|[->| ->]], Hq as [->|[->| ->]];
      use_sets; intuition congruence.
  - intros [->|[->| ->]].
    + exists p1, p3. rewrite set1, set3, name1, name3. intuition congruence.
    + exists p1, p2. rewrite set1, set2, name1, name2. intuition congruence.
    + exists p2, p3. rewrite set2, set3, name2, name3. intuition congruence.
Qed.

Lemma scenario_shared_In n : shared_name profiles n <-> In n [A; B; C].
Proof.
  rewrite scenario_shared. simpl.
  split; [intros [->|[->| ->]]; auto | intros [<-|[<-|[<-|[]]]]; auto].
Qed.

Lemma scenario_linked u v :
  linked profiles u v <->
  In (u, v) [(P1, P2); (P2, P1); (P1, P3); (P3, P1); (P2, P3); (P3, P2);
             (P1, A); (A, P1); (P1, B); (B, P1); (P2, B); (B, P2);
             (P2, C); (C, P2); (P3, C); (C, P3); (P3, A); (A, P3)].
Proof.
  names_neq. unfold linked. setoid_rewrite scenario_fetched. split.
  - intros [p [q [c [Hp [Hq [Hne [Hc1 [Hc2 Hd]]]]]]]].
    destruct Hp as [->|[->| ->]], Hq as [->|[->| ->]];
      use_sets;
      rewrite ?name1, ?name2, ?name3 in *; try congruence;
      destruct Hc1 as [->| ->], Hc2 as [E|E]; try congruence;
      destruct Hd as [[-> ->]|[[-> ->]|[-> ->]]]; simpl; tauto.
  - simpl. intros Hd.
    repeat (destruct Hd as [[= <- <-]|Hd]); try contradiction.
    all: first
      [ solve [exists p1, p2, B; rewrite set1, set2, name1, name2;
               intuition congruence]
      | solve [exists p2, p1, B; rewrite set1, set2, name1, name2;
               intuition congruence]
      | solve [exists p1, p3, A; rewrite set1, set3, name1, name3;
               intuition congruence]
      | solve [exists p3, p1, A; rewrite set1, set3, name1, name3;
               intuition congruence]
      | solve [exists p2, p3, C; rewrite set2, set3, name2, name3;
               intuition congruence]
      | solve [exists p3, p2, C; rewrite set2, set3, name2, name3;
               intuition congruence] ].
Qed.

Variable prof_attr : Profile -> attrs.
Variable shared_attr : string -> attrs.
Hypothesis prof_attr_type :
  forall p a, get (update a (prof_attr p)) "node_type" = Some (VStr "professor").
Hypothesis shared_attr_type :
  forall c a,
    get (update a (shared_attr c)) "node_type" = Some (VStr "shared_coauthor").

Let G := build prof_attr shared_attr profiles.

Lemma scenario_professor_names : professor_names profiles = [P1; P2; P3].
Proof. unfold professor_names; simpl. now rewrite name1, name2, name3. Qed.

Lemma scenario_nodes : Permutation (nodes G) [P1; P2; P3; A; B; C].
Proof.
  names_neq. apply NoDup_Permutation.
  - apply (wf_nodup _ (wf_build prof_attr shared_attr profiles)).
  - repeat constructor; simpl; intuition congruence.
  - intros n. rewrite <- has_node_In. unfold G.
    rewrite (shared_nodes _ _ profiles scenario_names).
    rewrite scenario_shared_In, scenario_professor_names. simpl. tauto.
Qed.

Lemma scenario_professors n :
  node_type G n = Some (VStr "professor") <-> In n [P1; P2; P3].
Proof.
  names_neq. unfold G.
  rewrite (shared_types _ _ prof_attr_type shared_attr_type profiles
             scenario_names).
  rewrite scenario_shared_In, scenario_professor_names. simpl.
  split.
  - intros [[E _]|[_ [E _]]]; [discriminate | tauto].
  - intros E. right. intuition congruence.
Qed.

Lemma scenario_shared_coauthors n :
  node_type G n = Some (VStr "shared_coauthor") <-> In n [A; B; C].
Proof.
  unfold G.
  rewrite (shared_types _ _ prof_attr_type shared_attr_type profiles
             scenario_names).
  rewrite scenario_shared_In. simpl.
  split.
  - intros [[_ E]|[E _]]; [tauto | discriminate].
  - intros E. left. tauto.
Qed.

Lemma scenario_edge u v :
  has_edge G u v = true <->
  In (u, v) [(P1, P2); (P2, P1); (P1, P3); (P3, P1); (P2, P3); (P3, P2);
             (P1, A); (A, P1); (P1, B); (B, P1); (P2, B); (B, P2);
             (P2, C); (C, P2); (P3, C); (C, P3); (P3, A); (A, P3)].
Proof.
  unfold G. rewrite (shared_edges _ _ profiles scenario_names).
  apply scenario_linked.
Qed.

Lemma scenario_NoDup_neighbors n : NoDup (neighbors G n).
Proof.
  unfold neighbors, nbrs, get_default.
  destruct (get (_adj G) n) eqn:E; [|constructor].
  apply (wf_nbrs_nodup _ (wf_build prof_attr shared_attr profiles) n _ E).
Qed.

Lemma scenario_neighbors :
  Permutation (neighbors G A) [P1; P3] /\
  Permutation (neighbors G B) [P1; P2] /\
  Permutation (neighbors G C) [P2; P3].
Proof.
  names_neq.
  assert (HN : forall n x y, x <> y ->
             (forall v, has_edge G n v = true <-> v = x \/ v = y) ->
             Permutation (neighbors G n) [x; y]).
  { intros n x y Hxy Hv. apply NoDup_Permutation.
    - apply scenario_NoDup_neighbors.
    - repeat constructor; simpl; intuition congruence.
    - intros v. rewrite In_neighbors, Hv. simpl.
      split; [intros [->| ->]; auto | intros [<-|[<-|[]]]; auto]. }
  repeat split; apply HN; auto; intros v; rewrite scenario_edge; simpl;
    (split; [ intros Hd;
              repeat (destruct Hd as [E|Hd];
                      [ apply pair_equal_spec in E; destruct E as [E1 E2];
                        first [exfalso; congruence | rewrite <- E2; auto] | ]);
              contradiction
            | intros [->| ->]; in_list ]).
Qed.

Lemma scenario_common :
  common p1 p2 = [B] /\ common p2 p1 = [B] /\
  common p2 p3 = [C] /\ common p3 p2 = [C] /\
  common p1 p3 = [A] /\ common p3 p1 = [A].
Proof.
  names_neq.
  repeat split; (apply NoDup_singleton;
    [ apply NoDup_intersection, NoDup_set_of
    | intros x; unfold common; rewrite In_intersection, !In_set_of;
      rewrite ?set1, ?set2, ?set3; intuition congruence ]).
Qed.

Lemma scenario_weight p q c :
  In p (fetched profiles) -> In q (fetched profiles) -> name p <> name q ->
  common p q = [c] -> common q p = [c] ->
  weight G (name p) (name q) = Some (VInt 1) /\
  shared_coauthors G (name p) (name q) = Some (VList [c]).
Proof.
  intros Hp Hq Hne Hc Hc'.
  assert (HW : weight G (name p) (name q) = Some (VInt 1)).
  { unfold G. apply (shared_weights _ _ profiles scenario_names).
    exists p, q. rewrite Hc. repeat split; auto. discriminate. }
  split; [assumption|].
  destruct (shared_coauthors_defined _ _ profiles _ _ _ HW) as [s Hs].
  fold G in Hs. rewrite Hs.
  apply (shared_coauthors_build prof_attr shared_attr) in Hs.
  destruct Hs as [x [y [s' [Hx [Hy [Hxy [E1 [E2 [[= <-] HP]]]]]]]]].
  apply (In_prof_coauthors _ scenario_names) in Hx, Hy.
  destruct Hx as [p' [Hp' ->]], Hy as [q' [Hq' ->]]. simpl in *.
  assert (p' = p).
  { apply (NoDup_map_inj name (fetched profiles)); auto using scenario_names. }
  assert (q' = q).
  { apply (NoDup_map_inj name (fetched profiles)); auto using scenario_names. }
  subst p' q'.
  change (shared_of (entry p, entry q)) with (common p q) in HP.
  rewrite Hc in HP. apply Permutation_sym, Permutation_length_1_inv in HP.
  now subst.
Qed.

Lemma scenario_professor_edges :
  List.length (filter (professor_edge G) (edges G)) = 3%nat.
Proof.
  names_neq.
  apply (three_clique_edges G (is_professor G) P1 P2 P3); auto.
  - apply (wf_build prof_attr shared_attr).
  - intros n. unfold is_professor, is_str.
    pose proof (scenario_professors n) as Hn. simpl in Hn.
    assert (Hflip : P1 = n \/ P2 = n \/ P3 = n \/ False
                    <-> n = P1 \/ n = P2 \/ n = P3).
    { split; [intros [<-|[<-|[<-|[]]]]; auto | intros [->|[->| ->]]; auto]. }
    rewrite <- Hflip, <- Hn.
    destruct (node_type G n) as [[t| |]|]; try (split; congruence).
    rewrite String.eqb_eq. split; congruence.
  - apply scenario_edge. in_list.
  - apply scenario_edge. in_list.
  - apply scenario_edge. in_list.
  - destruct (has_edge G P1 P1) eqn:E; [|reflexivity].
    apply scenario_edge in E. simpl in E. intuition congruence.
  - destruct (has_edge G P2 P2) eqn:E; [|reflexivity].
    apply scenario_edge in E. simpl in E. intuition congruence.
  - destruct (has_edge G P3 P3) eqn:E; [|reflexivity].
    apply scenario_edge in E. simpl in E. intuition congruence.
Qed.

Lemma scenario_build :
  Permutation (nodes G) [P1; P2; P3; A; B; C] /\
  (forall n, node_type G n = Some (VStr "professor") <-> In n [P1; P2; P3]) /\
  (forall n, node_type G n = Some (VStr "shared_coauthor")
             <-> In n [A; B; C]) /\
  Permutation (neighbors G A) [P1; P3] /\
  Permutation (neighbors G B) [P1; P2] /\
  Permutation (neighbors G C) [P2; P3] /\
  List.length (filter (professor_edge G) (edges G)) = 3%nat /\
  (weight G P1 P2 = Some (VInt 1) /\
   shared_coauthors G P1 P2 = Some (VList [B])) /\
  (weight G P2 P3 = Some (VInt 1) /\
   shared_coauthors G P2 P3 = Some (VList [C])) /\
  (weight G P1 P3 = Some (VInt 1) /\
   shared_coauthors G P1 P3 = Some (VList [A])).
Proof.
  names_neq.
  destruct scenario_common as (c12 & c21 & c23 & c32 & c13 & c31).
  destruct scenario_neighbors as (nA & nB & nC).
  split; [apply scenario_nodes|].
  split; [apply scenario_professors|].
  split; [apply scenario_shared_coauthors|].
  split; [assumption|]. split; [assumption|]. split; [assumption|].
  split; [apply scenario_professor_edges|].
  rewrite <- name1, <- name2, <- name3.
  repeat split; eapply scenario_weight; eauto;
    rewrite ?scenario_fetched, ?name1, ?name2, ?name3; auto.
Qed.

End Scenario.

End SharedFacts.

(* ================================================================= *)
(** ** Properties of the shared-connections builder *)

Section SharedClaims.
Import Py PyFacts NX NXFacts SharedShape SharedFacts.

(** C10, as stated, fails when two records carry the same professor name:
    [prof_coauthors] keeps one coauthor set per name, the last one.  Here "A"
    is a coauthor of the first record of "P" and of "Q", no professor name is
    a coauthor, and yet "A" is not a node. *)
Lemma shared_connections_node_set_duplicate_names :
  professors_apart c10_input /\
  ~ (forall n,
       In n (nodes (N.find_shared_connections c10_input)) <->
       In n (professor_names c10_input) \/ pairwise_shared c10_input n).
Proof.
  split.
  - intros p q Hp Hq. simpl in Hp, Hq.
    destruct Hp as [<-|[<-|[<-|[]]]], Hq as [<-|[<-|[<-|[]]]]; simpl;
      intros [H|[]]; discriminate.
  - intros H. specialize (H "A"). destruct H as [_ H].
    assert (HA : In "A" (nodes (N.find_shared_connections c10_input))).
    { apply H. right.
      exists (mkProfile "P" "" "" [mkCoauthor "A"]),
             (mkProfile "Q" "" "" [mkCoauthor "A"]).
      simpl. tauto. }
    vm_compute in HA. destruct HA as [HA|[HA|[]]]; discriminate.
Qed.

(** C10, amended: when the professor names are pairwise distinct and none of
    them occurs in a coauthor list, the nodes of the graph are exactly the
    professor names and the names shared by two records; the former are
    professors, the latter shared coauthors, and no node is a plain
    coauthor.  Both versions of the builder. *)
Theorem shared_connections_node_set profiles builder :
  In builder [N.find_shared_connections; Final_1.find_shared_connections] ->
  NoDup (professor_names profiles) -> professors_apart profiles ->
  (forall n, In n (nodes (builder profiles)) <->
             In n (professor_names profiles) \/ pairwise_shared profiles n) /\
  (forall n, In n (professor_names profiles) ->
             node_type (builder profiles) n = Some (VStr "professor")) /\
  (forall n, pairwise_shared profiles n ->
             node_type (builder profiles) n = Some (VStr "shared_coauthor")) /\
  (forall n, node_type (builder profiles) n <> Some (VStr "coauthor")).
Proof.
  intros [<-|[<-|[]]] Hnd Ha.
  - rewrite N_shape.
    apply (build_node_set _ _ N_prof_attr_type N_shared_attr_type); assumption.
  - rewrite Final_1_shape.
    apply (build_node_set _ _ Final_1_prof_attr_type Final_1_shared_attr_type);
      assumption.
Qed.

Lemma shared_connections_node_set_witness :
  let l := [profile_of "P" ["A"; "B"]; profile_of "Q" ["B"; "C"]] in
  let G := N.find_shared_connections l in
  (forall n, In n (nodes G) <-> In n (professor_names l) \/ pairwise_shared l n)
  /\ (forall n, In n (professor_names l) ->
                node_type G n = Some (VStr "professor"))
  /\ (forall n, pairwise_shared l n ->
                node_type G n = Some (VStr "shared_coauthor"))
  /\ (forall n, node_type G n <> Some (VStr "coauthor")).
Proof.
  apply (shared_connections_node_set _ N.find_shared_connections).
  - simpl. auto.
  - simpl. repeat constructor; simpl; intuition discriminate.
  - intros p q Hp Hq. simpl in Hp, Hq.
    destruct Hp as [<-|[<-|[]]], Hq as [<-|[<-|[]]]; simpl;
      intuition discriminate.
Defined.

(** C3, as stated, fails when two records carry the same professor name: the
    record that comes last decides the coauthor set of that name, so
    reversing the list changes the graph (2 nodes against 3). *)
Lemma shared_connections_permutation_duplicate_names :
  Permutation c3_input (rev c3_input) /\
  ~ isomorphic (N.find_shared_connections c3_input)
               (N.find_shared_connections (rev c3_input)).
Proof.
  split; [apply Permutation_rev|].
  intros [f [H _]]. apply Permutation_length in H.
  rewrite length_map in H. vm_compute in H. discriminate.
Qed.

(** C3, amended: when the professor names are pairwise distinct, running the
    builder on a permutation of the list yields an isomorphic graph (the
    identity on names is the isomorphism) with the same node kinds, the same
    edges and the same weights.  Both versions of the builder. *)
Theorem shared_connections_permutation profiles profiles' builder :
  In builder [N.find_shared_connections; Final_1.find_shared_connections] ->
  NoDup (professor_names profiles) -> Permutation profiles profiles' ->
  isomorphic (builder profiles) (builder profiles') /\
  Permutation (nodes (builder profiles)) (nodes (builder profiles')) /\
  (forall n, node_type (builder profiles) n = node_type (builder profiles') n) /\
  (forall u v,
     has_edge (builder profiles) u v = has_edge (builder profiles') u v) /\
  (forall u v, weight (builder profiles) u v = weight (builder profiles') u v).
Proof.
  intros [<-|[<-|[]]] Hnd Hp.
  - apply (build_permutation _ _ N_prof_attr_type N_shared_attr_type);
      assumption.
  - apply (build_permutation _ _ Final_1_prof_attr_type
             Final_1_shared_attr_type); assumption.
Qed.

Lemma shared_connections_permutation_witness :
  let l := [profile_of "P" ["A"]; profile_of "Q" ["A"]] in
  let G := N.find_shared_connections l in
  let G' := N.find_shared_connections (rev l) in
  isomorphic G G' /\
  Permutation (nodes G) (nodes G') /\
  (forall n, node_type G n = node_type G' n) /\
  (forall u v, has_edge G u v = has_edge G' u v) /\
  (forall u v, weight G u v = weight G' u v).
Proof.
  apply (shared_connections_permutation _ _ N.find_shared_connections).
  - simpl. auto.
  - simpl. repeat constructor; simpl; intuition discriminate.
  - apply Permutation_rev.
Defined.

(** C5: three profiles P1 {A, B}, P2 {B, C}, P3 {C, A} with six distinct
    names.  The graph has the six nodes; P1, P2, P3 are its professor nodes
    and A, B, C its shared_coauthor nodes; each of A, B, C has exactly two
    neighbours, both professors; [G.edges()] lists exactly three edges between
    professors, and each of them has weight 1 and a one-element
    shared_coauthors list.  Both versions of the builder. *)
Theorem three_profiles_scenario (A B C P1 P2 P3 : string) (p1 p2 p3 : Profile)
        builder :
  In builder [N.find_shared_connections; Final_1.find_shared_connections] ->
  NoDup [A; B; C; P1; P2; P3] ->
  name p1 = P1 -> name p2 = P2 -> name p3 = P3 ->
  (forall n, In n (coauthor_names p1) <-> n = A \/ n = B) ->
  (forall n, In n (coauthor_names p2) <-> n = B \/ n = C) ->
  (forall n, In n (coauthor_names p3) <-> n = C \/ n = A) ->
  let G := builder [Some p1; Some p2; Some p3] in
  Permutation (nodes G) [P1; P2; P3; A; B; C] /\
  (forall n, node_type G n = Some (VStr "professor") <-> In n [P1; P2; P3]) /\
  (forall n, node_type G n = Some (VStr "shared_coauthor")
             <-> In n [A; B; C]) /\
  Permutation (neighbors G A) [P1; P3] /\
  Permutation (neighbors G B) [P1; P2] /\
  Permutation (neighbors G C) [P2; P3] /\
  List.length (filter (professor_edge G) (edges G)) = 3%nat /\
  (weight G P1 P2 = Some (VInt 1) /\
   shared_coauthors G P1 P2 = Some (VList [B])) /\
  (weight G P2 P3 = Some (VInt 1) /\
   shared_coauthors G P2 P3 = Some (VList [C])) /\
  (weight G P1 P3 = Some (VInt 1) /\
   shared_coauthors G P1 P3 = Some (VList [A])).
Proof.
  intros [<-|[<-|[]]] Hnd H1 H2 H3 S1 S2 S3 G.
  - apply (scenario_build A B C P1 P2 P3 p1 p2 p3 Hnd H1 H2 H3 S1 S2 S3
             N_prof_attr N_shared_attr N_prof_attr_type N_shared_attr_type).
  - apply (scenario_build A B C P1 P2 P3 p1 p2 p3 Hnd H1 H2 H3 S1 S2 S3
             Final_1_prof_attr Final_1_shared_attr Final_1_prof_attr_type
             Final_1_shared_attr_type).
Qed.

Lemma three_profiles_scenario_witness :
  let G := N.find_shared_connections
             [profile_of "P1" ["A"; "B"]; profile_of "P2" ["B"; "C"];
              profile_of "P3" ["C"; "A"]] in
  Permutation (nodes G) ["P1"; "P2"; "P3"; "A"; "B"; "C"] /\
  (forall n, node_type G n = Some (VStr "professor")
             <-> In n ["P1"; "P2"; "P3"]) /\
  (forall n, node_type G n = Some (VStr "shared_coauthor")
             <-> In n ["A"; "B"; "C"]) /\
  Permutation (neighbors G "A") ["P1"; "P3"] /\
  Permutation (neighbors G "B") ["P1"; "P2"] /\
  Permutation (neighbors G "C") ["P2"; "P3"] /\
  List.length (filter (professor_edge G) (edges G)) = 3%nat /\
  (weight G "P1" "P2" = Some (VInt 1) /\
   shared_coauthors G "P1" "P2" = Some (VList ["B"])) /\
  (weight G "P2" "P3" = Some (VInt 1) /\
   shared_coauthors G "P2" "P3" = Some (VList ["C"])) /\
  (weight G "P1" "P3" = Some (VInt 1) /\
   shared_coauthors G "P1" "P3" = Some (VList ["A"])).
Proof.
  apply (three_profiles_scenario "A" "B" "C" "P1" "P2" "P3"
           (mkProfile "P1" "" "" [mkCoauthor "A"; mkCoauthor "B"])
           (mkProfile "P2" "" "" [mkCoauthor "B"; mkCoauthor "C"])
           (mkProfile "P3" "" "" [mkCoauthor "C"; mkCoauthor "A"])
           N.find_shared_connections).
  - simpl. auto.
  - repeat constructor; simpl; intuition discriminate.
  - reflexivity.
  - reflexivity.
  - reflexivity.
  - intros n. simpl.
    split; [intros [<-|[<-|[]]]; auto | intros [->| ->]; auto].
  - intros n. simpl.
    split; [intros [<-|[<-|[]]]; auto | intros [->| ->]; auto].
  - intros n. simpl.
    split; [intros [<-|[<-|[]]]; auto | intros [->| ->]; auto].
Defined.

End SharedClaims.

(* ================================================================= *)
(** ** The combined builder *)

Module CombinedFacts.
Import Py PyFacts NX NXFacts SharedShape SharedFacts CombinedShape.

Lemma add_profile_eq G p :
  Final_main.add_profile G (Some p)
  = fold_left (add_coauthor (name p)) (coauthor_names p)
      (add_node G (name p) (professor_attr p)).
Proof.
  unfold Final_main.add_profile, coauthor_names.
  now rewrite fold_left_map_names.
Qed.

Lemma group_add_node G n a m :
  group (add_node G n a) m =
  if String.eqb n m then get (update (attrs_or_empty (node_attr G n)) a) "group"
  else group G m.
Proof. apply node_get_add_node. Qed.

(** *** One coauthor *)

Section AddCoauthor.
Variable prof : string.

Lemma wf_add_coauthor G c : wf G -> wf (add_coauthor prof G c).
Proof.
  intros W. unfold add_coauthor. apply wf_add_edge.
  destruct (negb (has_node G c)); auto using wf_add_node.
Qed.

Lemma has_node_add_coauthor G c n :
  has_node G prof = true ->
  has_node (add_coauthor prof G c) n = String.eqb c n || has_node G n.
Proof.
  intros Hp. unfold add_coauthor. rewrite has_node_add_edge.
  destruct (has_node G c) eqn:Ec; simpl.
  - destruct (String.eqb c n) eqn:E.
    + apply String.eqb_eq in E; subst. now rewrite Ec, orb_true_r.
    + destruct (String.eqb prof n) eqn:E'; [|reflexivity].
      apply String.eqb_eq in E'; subst. now rewrite Hp.
  - rewrite has_node_add_node.
    destruct (String.eqb c n); [now rewrite orb_true_r|].
    destruct (String.eqb prof n) eqn:E'; [|reflexivity].
    apply String.eqb_eq in E'; subst. now rewrite Hp.
Qed.

Lemma edge_attr_add_coauthor G c u v :
  wf G ->
  edge_attr (add_coauthor prof G c) u v =
  match edge_attr G u v with
  | Some a => Some a
  | None => if same_edge prof c u v then Some [] else None
  end.
Proof.
  intros W. unfold add_coauthor.
  destruct (negb (has_node G c)).
  - rewrite edge_attr_add_edge_nil, edge_attr_add_node by auto using wf_add_node.
    reflexivity.
  - now rewrite edge_attr_add_edge_nil.
Qed.

Lemma group_add_coauthor G c n :
  has_node G prof = true ->
  group (add_coauthor prof G c) n =
  if String.eqb c n && negb (has_node G c) then Some (VStr "coauthor")
  else group G n.
Proof.
  intros Hp. unfold add_coauthor, group, node_get.
  destruct (has_node G c) eqn:Ec; simpl.
  - rewrite node_attr_add_edge_existing by assumption.
    now rewrite andb_false_r.
  - rewrite node_attr_add_edge_existing, node_attr_add_node.
    + rewrite andb_true_r. destruct (String.eqb c n); [|reflexivity].
      now rewrite get_update.
    + rewrite has_node_add_node, Hp. apply orb_true_r.
    + rewrite has_node_add_node, String.eqb_refl. reflexivity.
Qed.

Lemma wf_add_coauthors l G : wf G -> wf (fold_left (add_coauthor prof) l G).
Proof.
  revert G. induction l as [|c l IH]; intros G W; simpl; auto using wf_add_coauthor.
Qed.

Lemma has_node_add_coauthors l G n :
  has_node G prof = true ->
  has_node (fold_left (add_coauthor prof) l G) n = mem n l || has_node G n.
Proof.
  revert G. induction l as [|c l IH]; intros G Hp; simpl; [reflexivity|].
  rewrite IH, has_node_add_coauthor by (rewrite ?has_node_add_coauthor, ?Hp, ?orb_true_r; auto).
  rewrite (String.eqb_sym n). now destruct (String.eqb c n), (mem n l).
Qed.

Lemma edge_attr_add_coauthors l G u v :
  wf G ->
  edge_attr (fold_left (add_coauthor prof) l G) u v =
  match edge_attr G u v with
  | Some a => Some a
  | None => if existsb (fun c => same_edge prof c u v) l then Some [] else None
  end.
Proof.
  revert G. induction l as [|c l IH]; intros G W; simpl.
  - now destruct (edge_attr G u v).
  - rewrite IH, edge_attr_add_coauthor by auto using wf_add_coauthor.
    destruct (edge_attr G u v); [reflexivity|].
    now destruct (same_edge prof c u v).
Qed.

Lemma group_add_coauthors l G n :
  has_node G prof = true ->
  group (fold_left (add_coauthor prof) l G) n =
  if mem n l && negb (has_node G n) then Some (VStr "coauthor") else group G n.
Proof.
  revert G. induction l as [|c l IH]; intros G Hp; simpl; [reflexivity|].
  rewrite IH, group_add_coauthor, has_node_add_coauthor
    by (rewrite ?has_node_add_coauthor, ?Hp, ?orb_true_r; auto).
  rewrite (String.eqb_sym n).
  destruct (String.eqb c n) eqn:E; simpl.
  - apply String.eqb_eq in E; subst c.
    destruct (has_node G n), (mem n l); reflexivity.
  - destruct (mem n l), (has_node G n); reflexivity.
Qed.

End AddCoauthor.

(** *** One profile *)

Lemma has_node_professor G p :
  has_node (add_node G (name p) (professor_attr p)) (name p) = true.
Proof. now rewrite has_node_add_node, String.eqb_refl. Qed.

Lemma wf_add_profile G o : wf G -> wf (Final_main.add_profile G o).
Proof.
  intros W. destruct o as [p|]; [|assumption].
  rewrite add_profile_eq. auto using wf_add_coauthors, wf_add_node.
Qed.

Lemma has_node_add_profile G p n :
  has_node (Final_main.add_profile G (Some p)) n
  = String.eqb (name p) n || mem n (coauthor_names p) || has_node G n.
Proof.
  rewrite add_profile_eq, has_node_add_coauthors by apply has_node_professor.
  rewrite has_node_add_node.
  now destruct (String.eqb (name p) n), (mem n (coauthor_names p)).
Qed.

Lemma edge_attr_add_profile G p u v :
  wf G ->
  edge_attr (Final_main.add_profile G (Some p)) u v =
  match edge_attr G u v with
  | Some a => Some a
  | None => if existsb (fun c => same_edge (name p) c u v) (coauthor_names p)
            then Some [] else None
  end.
Proof.
  intros W. rewrite add_profile_eq, edge_attr_add_coauthors by auto using wf_add_node.
  now rewrite edge_attr_add_node.
Qed.

Lemma group_add_profile G p n :
  group (Final_main.add_profile G (Some p)) n =
  if String.eqb (name p) n then Some (VStr "professor")
  else if mem n (coauthor_names p) && negb (has_node G n)
       then Some (VStr "coauthor") else group G n.
Proof.
  rewrite add_profile_eq, group_add_coauthors by apply has_node_professor.
  rewrite has_node_add_node, group_add_node, get_update.
  destruct (String.eqb (name p) n); simpl.
  - now rewrite andb_false_r.
  - reflexivity.
Qed.

(** *** The first loop *)

Lemma wf_add_profiles ps G :
  wf G -> wf (fold_left Final_main.add_profile ps G).
Proof.
  revert G. induction ps as [|o ps IH]; intros G W; simpl; auto using wf_add_profile.
Qed.

Lemma has_node_add_profiles ps G n :
  has_node (fold_left Final_main.add_profile ps G) n
  = mem n (professor_names ps) || coauthor_somewhere ps n || has_node G n.
Proof.
  revert G. induction ps as [|[p|] ps IH]; intros G; cbn [fold_left].
  - reflexivity.
  - rewrite IH, has_node_add_profile.
    unfold professor_names, coauthor_somewhere; simpl.
    rewrite (String.eqb_sym n).
    destruct (String.eqb (name p) n), (mem n (coauthor_names p)),
      (mem n (map name (fetched ps))), (existsb _ (fetched ps)); reflexivity.
  - apply IH.
Qed.

Lemma edge_attr_add_profiles ps G u v :
  wf G ->
  edge_attr (fold_left Final_main.add_profile ps G) u v =
  match edge_attr G u v with
  | Some a => Some a
  | None => if direct ps u v then Some [] else None
  end.
Proof.
  revert G. induction ps as [|[p|] ps IH]; intros G W; cbn [fold_left].
  - now destruct (edge_attr G u v).
  - rewrite IH, edge_attr_add_profile by auto using wf_add_profile.
    unfold direct; simpl.
    destruct (edge_attr G u v); [reflexivity|].
    now destruct (existsb _ (coauthor_names p)).
  - now apply IH.
Qed.

Lemma group_add_profiles ps G n :
  group (fold_left Final_main.add_profile ps G) n =
  if mem n (professor_names ps) then Some (VStr "professor")
  else if coauthor_somewhere ps n && negb (has_node G n)
       then Some (VStr "coauthor") else group G n.
Proof.
  revert G. induction ps as [|[p|] ps IH]; intros G; cbn [fold_left].
  - reflexivity.
  - rewrite IH, group_add_profile, has_node_add_profile.
    unfold professor_names, coauthor_somewhere; simpl.
    rewrite (String.eqb_sym n).
    destruct (String.eqb (name p) n), (mem n (coauthor_names p)),
      (mem n (map name (fetched ps))), (existsb _ (fetched ps)),
      (has_node G n); reflexivity.
  - apply IH.
Qed.

(** *** The merged graph *)

Section Merged.
Variable profiles : list (option Profile).
Let G1 := merged profiles.

Lemma wf_merged : wf G1.
Proof. apply wf_add_profiles, wf_empty. Qed.

Lemma has_node_merged n :
  has_node G1 n = mem n (professor_names profiles) || coauthor_somewhere profiles n.
Proof.
  unfold G1, merged. rewrite has_node_add_profiles. apply orb_false_r.
Qed.

Lemma edge_attr_merged u v :
  edge_attr G1 u v = if direct profiles u v then Some [] else None.
Proof.
  unfold G1, merged. now rewrite edge_attr_add_profiles by apply wf_empty.
Qed.

Lemma has_edge_merged u v : has_edge G1 u v = direct profiles u v.
Proof.
  rewrite has_edge_edge_attr, edge_attr_merged. now destruct (direct profiles u v).
Qed.

Lemma weight_merged u v : weight G1 u v = None.
Proof.
  unfold weight, edge_get. rewrite edge_attr_merged.
  now destruct (direct profiles u v).
Qed.

Lemma group_merged n :
  group G1 n =
  if mem n (professor_names profiles) then Some (VStr "professor")
  else if coauthor_somewhere profiles n then Some (VStr "coauthor") else None.
Proof.
  unfold G1, merged. rewrite group_add_profiles. simpl.
  now rewrite andb_true_r.
Qed.

End Merged.

(** *** One pair of professors of the second loop *)

Lemma edge_get_edge_set G a b key x u v key' :
  wf G ->
  edge_get (edge_set G a b key x) u v key' =
  if has_edge G a b && same_edge a b u v
  then (if String.eqb key key' then Some x else edge_get G u v key')
  else edge_get G u v key'.
Proof.
  intros W. unfold edge_get. rewrite edge_attr_edge_set, has_edge_edge_attr.
  destruct (edge_attr G a b) as [at0|] eqn:E; simpl; [|reflexivity].
  destruct (same_edge a b u v) eqn:S; [|reflexivity].
  assert (E' : edge_attr G u v = Some at0).
  { apply same_edge_true in S. destruct S as [[<- <-]|[<- <-]]; [assumption|].
    now rewrite (wf_sym _ W). }
  rewrite E', get_setitem. reflexivity.
Qed.

Lemma wnum_sym G u v : wf G -> wnum G u v = wnum G v u.
Proof.
  intros W. unfold wnum, weight, edge_get.
  now rewrite !has_edge_edge_attr, (wf_sym _ W u v).
Qed.

Lemma wnum_same_edge G a b u v :
  wf G -> same_edge a b u v = true -> wnum G a b = wnum G u v.
Proof.
  intros W S. apply same_edge_true in S.
  destruct S as [[<- <-]|[<- <-]]; [reflexivity | now apply wnum_sym].
Qed.

Section Connect.
Variable node : string.


#[local] Abbreviation connect := (Final_main.connect node).

Lemma wf_connect G pr : wf G -> wf (connect G pr).
Proof.
  intros W. destruct pr as [a b]. unfold Final_main.connect.
  destruct (has_edge G a b).
  - destruct (edge_get _ a b "shared_coauthors") as [[| |l]|];
      auto using wf_edge_set.
  - now apply wf_add_edge.
Qed.

Lemma node_attr_connect G pr n :
  has_node G (fst pr) = true -> has_node G (snd pr) = true ->
  node_attr (connect G pr) n = node_attr G n.
Proof.
  destruct pr as [a b]; simpl. intros Ha Hb. unfold Final_main.connect.
  destruct (has_edge G a b).
  - destruct (edge_get _ a b "shared_coauthors") as [[| |l]|];
      now rewrite ?node_attr_edge_set.
  - now apply node_attr_add_edge_existing.
Qed.

Lemma has_edge_connect G pr u v :
  wf G ->
  has_edge (connect G pr) u v
  = has_edge G u v || same_edge (fst pr) (snd pr) u v.
Proof.
  destruct pr as [a b]; simpl. intros W. unfold Final_main.connect.
  destruct (has_edge G a b) eqn:E.
  - assert (same_edge a b u v = true -> has_edge G u v = true).
    { intros S. apply same_edge_true in S.
      destruct S as [[<- <-]|[<- <-]]; [assumption|].
      rewrite has_edge_edge_attr in *. now rewrite (wf_sym _ W). }
    assert (R : has_edge G u v || same_edge a b u v = has_edge G u v).
    { destruct (same_edge a b u v); [|apply orb_false_r].
      rewrite H by reflexivity. reflexivity. }
    rewrite R.
    destruct (edge_get _ a b "shared_coauthors") as [[| |l]|];
      now rewrite ?has_edge_edge_set by auto using wf_edge_set.
  - rewrite has_edge_add_edge by assumption. apply orb_comm.
Qed.

Lemma weight_connect G pr u v :
  wf G ->
  weight (connect G pr) u v =
  if same_edge (fst pr) (snd pr) u v
  then Some (VInt (wnum G (fst pr) (snd pr) + 1))
  else weight G u v.
Proof.
  destruct pr as [a b]; simpl. intros W.
  unfold Final_main.connect, wnum, weight.
  destruct (has_edge G a b) eqn:E.
  - set (G' := edge_set G a b "weight" _).
    assert (W' : wf G') by now apply wf_edge_set.
    assert (E' : has_edge G' a b = true) by (unfold G'; now rewrite has_edge_edge_set).
    assert (R : edge_get G' u v "weight" =
                if same_edge a b u v
                then Some (VInt (int_or 1 (edge_get G a b "weight") + 1))
                else edge_get G u v "weight").
    { unfold G'. rewrite edge_get_edge_set, E by assumption. simpl.
      now destruct (same_edge a b u v). }
    destruct (edge_get G' a b "shared_coauthors") as [[| |l]|];
      rewrite ?edge_get_edge_set, ?E' by assumption; simpl;
      try exact R; now destruct (same_edge a b u v).
  - unfold edge_get. rewrite edge_attr_add_edge by assumption.
    destruct (same_edge a b u v); [|reflexivity].
    now rewrite get_update.
Qed.

Lemma wnum_connect G pr u v :
  wf G ->
  wnum (connect G pr) u v =
  if same_edge (fst pr) (snd pr) u v then wnum G u v + 1 else wnum G u v.
Proof.
  intros W. unfold wnum at 1.
  rewrite has_edge_connect, weight_connect by assumption.
  destruct (same_edge (fst pr) (snd pr) u v) eqn:S.
  - rewrite orb_true_r. simpl. now rewrite (wnum_same_edge G _ _ u v W S).
  - now rewrite orb_false_r.
Qed.

Lemma both_nodes_connect G pr pr' :
  both_nodes G pr -> both_nodes G pr' -> both_nodes (connect G pr) pr'.
Proof.
  intros [H1 H2] [H3 H4]. split; rewrite has_node_node_attr, node_attr_connect,
    <- has_node_node_attr; assumption.
Qed.

Lemma both_nodes_connect_all G pr L :
  both_nodes G pr -> Forall (both_nodes G) L ->
  Forall (both_nodes (connect G pr)) L.
Proof.
  intros H HL. eapply Forall_impl; [|exact HL].
  intros pr'. now apply both_nodes_connect.
Qed.

Lemma wf_connect_all L G : wf G -> wf (fold_left connect L G).
Proof.
  revert G. induction L as [|pr L IH]; intros G W; simpl; auto using wf_connect.
Qed.

Lemma node_attr_connect_all L G n :
  Forall (both_nodes G) L ->
  node_attr (fold_left connect L G) n = node_attr G n.
Proof.
  revert G. induction L as [|pr L IH]; intros G H; cbn [fold_left]; [reflexivity|].
  inversion H as [|? ? [H1 H2] HL]; subst.
  rewrite IH by (apply both_nodes_connect_all; [split|]; assumption).
  now apply node_attr_connect.
Qed.

Lemma has_edge_connect_all L G u v :
  wf G ->
  has_edge (fold_left connect L G) u v
  = has_edge G u v || (0 <? hits u v L)%nat.
Proof.
  revert G. induction L as [|pr L IH]; intros G W; cbn [fold_left].
  - now rewrite orb_false_r.
  - rewrite IH, has_edge_connect by auto using wf_connect.
    unfold hits; simpl.
    destruct (same_edge (fst pr) (snd pr) u v); simpl.
    + now rewrite !orb_true_r.
    + now rewrite orb_false_r.
Qed.

Lemma wnum_connect_all L G u v :
  wf G ->
  wnum (fold_left connect L G) u v = wnum G u v + Z.of_nat (hits u v L).
Proof.
  revert G. induction L as [|pr L IH]; intros G W; cbn [fold_left].
  - unfold hits; simpl. lia.
  - rewrite IH, wnum_connect by auto using wf_connect.
    unfold hits. cbn [filter].
    destruct (same_edge (fst pr) (snd pr) u v); cbn [List.length]; lia.
Qed.

Lemma weight_connect_all L G u v :
  wf G ->
  weight (fold_left connect L G) u v =
  if (0 <? hits u v L)%nat
  then Some (VInt (wnum G u v + Z.of_nat (hits u v L)))
  else weight G u v.
Proof.
  revert G. induction L as [|pr L IH]; intros G W; cbn [fold_left].
  - reflexivity.
  - rewrite IH, wnum_connect, weight_connect by auto using wf_connect.
    unfold hits. cbn [filter].
    destruct (same_edge (fst pr) (snd pr) u v) eqn:S; cbn [List.length].
    + rewrite (wnum_same_edge G _ _ u v W S).
      destruct (List.length _) as [|k]; cbn [Nat.ltb Nat.leb];
        apply f_equal, f_equal; lia.
    + reflexivity.
Qed.

End Connect.

(** *** Pairs of a duplicate-free list *)

Lemma hits_nil u v : hits u v [] = 0%nat.
Proof. reflexivity. Qed.

Lemma hits_app u v L L' : hits u v (L ++ L') = (hits u v L + hits u v L')%nat.
Proof. unfold hits. now rewrite filter_app, length_app. Qed.

Lemma hits_map_pair a l u v :
  NoDup l -> ~ In a l ->
  hits u v (map (pair a) l) =
  if (String.eqb a u && mem v l) || (String.eqb a v && mem u l) then 1%nat
  else 0%nat.
Proof.
  intros Hnd Ha. induction l as [|x l IH].
  - simpl. now rewrite !andb_false_r.
  - inversion Hnd as [|? ? Hx Hl]; subst.
    assert (Ha' : ~ In a l) by (simpl in Ha; tauto).
    assert (Hax : a <> x) by (simpl in Ha; intros ->; tauto).
    unfold hits in *. simpl map. simpl filter. simpl fst. simpl snd.
    specialize (IH Hl Ha').
    assert (Hm : forall z, String.eqb z x = true -> mem z l = false).
    { intros z E. apply String.eqb_eq in E; subst. now apply mem_false. }
    unfold same_edge at 1. simpl mem.
    destruct (String.eqb a u) eqn:Eu, (String.eqb a v) eqn:Ev;
      destruct (String.eqb x v) eqn:Exv, (String.eqb x u) eqn:Exu;
      rewrite ?(String.eqb_sym v x), ?(String.eqb_sym u x), ?Exv, ?Exu;
      simpl; rewrite ?IH; simpl;
      repeat match goal with
      | E : String.eqb _ _ = true |- _ => apply String.eqb_eq in E
      end; subst; try congruence;
      rewrite ?String.eqb_refl, ?(proj2 (mem_false _ _) Hx),
        ?(proj2 (mem_false _ _) Ha'); simpl;
      rewrite ?andb_false_r; try reflexivity.
Qed.

Lemma hits_combinations2 l u v :
  NoDup l ->
  hits u v (combinations2 l) =
  if negb (String.eqb u v) && mem u l && mem v l then 1%nat else 0%nat.
Proof.
  induction 1 as [|a l Ha Hl IH].
  - simpl. now rewrite andb_false_r.
  - cbn [combinations2]. rewrite hits_app, hits_map_pair, IH by assumption.
    cbn [mem existsb].
    rewrite (String.eqb_sym u a), (String.eqb_sym v a).
    pose proof (proj2 (mem_false a l) Ha) as Ma.
    destruct (String.eqb_spec a u) as [Eu|Eu], (String.eqb_spec a v) as [Ev|Ev],
      (String.eqb_spec u v) as [Euv|Euv]; subst; try congruence;
      rewrite ?Ma; simpl; rewrite ?andb_false_r; simpl;
      try reflexivity.
    all: unfold mem;
      repeat match goal with
      | |- context [existsb ?f ?l'] => destruct (existsb f l')
      end; reflexivity.
Qed.

(** *** One node of the second loop *)

Lemma reclassify_eq G node :
  Final_main.reclassify G node =
  if fires G node
  then fold_left (Final_main.connect node)
         (combinations2 (professors_of G node)) (marked G node)
  else G.
Proof.
  unfold Final_main.reclassify, fires, group.
  destruct (is_str (node_get G node "group") "coauthor"); [|reflexivity].
  reflexivity.
Qed.

Lemma wf_marked G node : wf G -> wf (marked G node).
Proof. intros W. unfold marked. auto using wf_node_set. Qed.

Lemma has_node_marked G node n : has_node (marked G node) n = has_node G n.
Proof. unfold marked. now rewrite !has_node_node_set. Qed.

Lemma edge_attr_marked G node u v :
  edge_attr (marked G node) u v = edge_attr G u v.
Proof. unfold marked. now rewrite !edge_attr_node_set. Qed.

Lemma has_edge_marked G node u v : has_edge (marked G node) u v = has_edge G u v.
Proof. now rewrite !has_edge_edge_attr, edge_attr_marked. Qed.

Lemma weight_marked G node u v : weight (marked G node) u v = weight G u v.
Proof. unfold weight, edge_get. now rewrite edge_attr_marked. Qed.

Lemma wnum_marked G node u v : wnum (marked G node) u v = wnum G u v.
Proof. unfold wnum. now rewrite has_edge_marked, weight_marked. Qed.

Lemma group_node_set G n key x m :
  group (node_set G n key x) m =
  if String.eqb n m && has_node G n
  then (if String.eqb key "group" then Some x else group G m)
  else group G m.
Proof.
  unfold group, node_get. rewrite node_attr_node_set, has_node_node_attr.
  destruct (String.eqb n m) eqn:E; [|reflexivity].
  apply String.eqb_eq in E; subst m.
  destruct (node_attr G n); [|reflexivity]. simpl.
  now rewrite get_setitem.
Qed.

Lemma group_marked G node n :
  group (marked G node) n =
  if String.eqb node n && has_node G node then Some (VStr "shared_coauthor")
  else group G n.
Proof.
  unfold marked. rewrite !group_node_set, !has_node_node_set. simpl.
  now destruct (String.eqb node n && has_node G node).
Qed.

Lemma professors_of_nodes G node :
  wf G -> Forall (both_nodes G) (combinations2 (professors_of G node)).
Proof.
  intros W. apply Forall_forall. intros [a b] H.
  apply In_combinations2 in H. destruct H as [Ha Hb].
  unfold professors_of in Ha, Hb. apply filter_In in Ha, Hb.
  destruct Ha as [Ha _], Hb as [Hb _]. apply In_neighbors in Ha, Hb.
  rewrite has_edge_edge_attr in Ha, Hb. split; simpl.
  - apply (wf_closed _ W node a). now destruct (edge_attr G node a).
  - apply (wf_closed _ W node b). now destruct (edge_attr G node b).
Qed.

Lemma NoDup_neighbors G node : wf G -> NoDup (neighbors G node).
Proof.
  intros W. unfold neighbors, nbrs, get_default.
  destruct (get (_adj G) node) eqn:E; [|constructor].
  apply (wf_nbrs_nodup _ W node _ E).
Qed.

Lemma NoDup_professors_of G node : wf G -> NoDup (professors_of G node).
Proof. intros W. apply NoDup_filter. now apply NoDup_neighbors. Qed.

Lemma In_professors_of G node n :
  In n (professors_of G node) <->
  has_edge G node n = true /\ is_str (group G n) "professor" = true.
Proof. unfold professors_of. now rewrite filter_In, In_neighbors. Qed.

Section Reclassify.
Variables (G : Graph) (node : string).
Hypothesis W : wf G.

Lemma wf_reclassify : wf (Final_main.reclassify G node).
Proof.
  rewrite reclassify_eq. destruct (fires G node); [|assumption].
  now apply wf_connect_all, wf_marked.
Qed.

Lemma marked_both_nodes :
  Forall (both_nodes (marked G node)) (combinations2 (professors_of G node)).
Proof.
  eapply Forall_impl; [|apply professors_of_nodes, W].
  intros pr [H1 H2]. split; now rewrite has_node_marked.
Qed.

Lemma has_node_reclassify n :
  has_node (Final_main.reclassify G node) n = has_node G n.
Proof.
  rewrite reclassify_eq. destruct (fires G node); [|reflexivity].
  rewrite has_node_node_attr, node_attr_connect_all, <- has_node_node_attr
    by apply marked_both_nodes.
  apply has_node_marked.
Qed.

Lemma group_reclassify n :
  group (Final_main.reclassify G node) n =
  if fires G node && String.eqb node n && has_node G node
  then Some (VStr "shared_coauthor") else group G n.
Proof.
  rewrite reclassify_eq. destruct (fires G node); [|reflexivity].
  unfold group at 1, node_get.
  rewrite node_attr_connect_all by apply marked_both_nodes.
  apply group_marked.
Qed.

Lemma hits_professors u v :
  (if fires G node
   then hits u v (combinations2 (professors_of G node)) else 0%nat)
  = if pair_hit G node u v then 1%nat else 0%nat.
Proof.
  unfold pair_hit. destruct (fires G node); [|reflexivity].
  rewrite hits_combinations2 by now apply NoDup_professors_of.
  reflexivity.
Qed.

Lemma has_edge_reclassify u v :
  has_edge (Final_main.reclassify G node) u v
  = has_edge G u v || pair_hit G node u v.
Proof.
  pose proof (hits_professors u v) as H.
  rewrite reclassify_eq. destruct (fires G node).
  - rewrite has_edge_connect_all, has_edge_marked, H by now apply wf_marked.
    now destruct (pair_hit G node u v).
  - destruct (pair_hit G node u v); [discriminate|]. now rewrite orb_false_r.
Qed.

Lemma wnum_reclassify u v :
  wnum (Final_main.reclassify G node) u v
  = wnum G u v + (if pair_hit G node u v then 1 else 0).
Proof.
  pose proof (hits_professors u v) as H.
  rewrite reclassify_eq. destruct (fires G node).
  - rewrite wnum_connect_all, wnum_marked, H by now apply wf_marked.
    now destruct (pair_hit G node u v).
  - destruct (pair_hit G node u v); [discriminate|]. lia.
Qed.

Lemma weight_reclassify u v :
  weight (Final_main.reclassify G node) u v =
  if pair_hit G node u v then Some (VInt (wnum G u v + 1)) else weight G u v.
Proof.
  pose proof (hits_professors u v) as H.
  rewrite reclassify_eq. destruct (fires G node).
  - rewrite weight_connect_all, wnum_marked, weight_marked, H
      by now apply wf_marked.
    now destruct (pair_hit G node u v).
  - now destruct (pair_hit G node u v).
Qed.

End Reclassify.

(** *** The second loop *)

Section SecondLoop.
Variable G1 : Graph.
Hypothesis W1 : wf G1.

Lemma inv_start : inv G1 G1 [].
Proof.
  split; auto; intros; unfold total; simpl; try reflexivity.
  - now rewrite orb_false_r.
  - lia.
Qed.

Lemma total_snoc done x u v :
  total G1 (done ++ [x]) u v
  = (total G1 done u v + if pair_hit G1 x u v then 1 else 0)%nat.
Proof.
  unfold total. rewrite filter_app, length_app. simpl.
  now destruct (pair_hit G1 x u v).
Qed.

Lemma total_positive done u v :
  (0 < total G1 done u v)%nat ->
  exists y, In y done /\ pair_hit G1 y u v = true.
Proof.
  unfold total. intros H.
  destruct (filter (fun x => pair_hit G1 x u v) done) as [|y l] eqn:E.
  - simpl in H. lia.
  - exists y. apply (filter_In (fun x => pair_hit G1 x u v)).
    rewrite E. now left.
Qed.

Lemma pair_hit_professor y u v :
  pair_hit G1 y u v = true ->
  is_str (group G1 u) "professor" = true /\
  is_str (group G1 v) "professor" = true.
Proof.
  unfold pair_hit. rewrite !andb_true_iff, !mem_In, !In_professors_of. tauto.
Qed.

Lemma is_str_exclusive o : is_str o "coauthor" = true -> is_str o "professor" = false.
Proof.
  destruct o as [[s| |]|]; simpl; try discriminate.
  intros H. apply String.eqb_eq in H. now subst.
Qed.

Section Step.
Variables (G : Graph) (done : list string) (x : string).
Hypothesis I : inv G1 G done.
Hypothesis fresh : ~ In x done.

Lemma step_group_x : group G x = group G1 x.
Proof.
  rewrite (inv_group _ _ _ I). now rewrite (proj2 (mem_false x done) fresh).
Qed.

Lemma step_professor n :
  is_str (group G n) "professor" = is_str (group G1 n) "professor".
Proof.
  rewrite (inv_group _ _ _ I).
  destruct (mem n done && fires G1 n && has_node G1 n) eqn:E; [|reflexivity].
  apply andb_true_iff in E. destruct E as [E _].
  apply andb_true_iff in E. destruct E as [_ E].
  unfold fires in E. apply andb_true_iff in E. destruct E as [E _].
  now rewrite (is_str_exclusive _ E).
Qed.

Lemma step_edges_x n :
  is_str (group G1 x) "coauthor" = true ->
  has_edge G x n = has_edge G1 x n.
Proof.
  intros Hx. rewrite (inv_edges _ _ _ I).
  destruct (Nat.ltb_spec 0 (total G1 done x n)) as [H|H]; [|apply orb_false_r].
  apply total_positive in H. destruct H as [y [_ H]].
  apply pair_hit_professor in H. destruct H as [H _].
  rewrite (is_str_exclusive _ Hx) in H. discriminate.
Qed.

Lemma step_professors_of :
  is_str (group G1 x) "coauthor" = true ->
  Permutation (professors_of G x) (professors_of G1 x).
Proof.
  intros Hx. apply NoDup_Permutation.
  - apply NoDup_professors_of, I.
  - now apply NoDup_professors_of.
  - intros n. rewrite !In_professors_of, step_edges_x, step_professor by assumption.
    reflexivity.
Qed.

Lemma mem_Permutation (l l' : list string) n :
  Permutation l l' -> mem n l = mem n l'.
Proof.
  intros H. apply bool_ext. rewrite !mem_In.
  split; apply Permutation_in; [|symmetry]; assumption.
Qed.

Lemma step_fires : fires G x = fires G1 x.
Proof.
  unfold fires. rewrite step_group_x.
  destruct (is_str (group G1 x) "coauthor") eqn:Hx; [|reflexivity]. simpl.
  now rewrite (Permutation_length (step_professors_of Hx)).
Qed.

Lemma step_pair_hit u v : pair_hit G x u v = pair_hit G1 x u v.
Proof.
  unfold pair_hit. rewrite step_fires.
  destruct (fires G1 x) eqn:F; [|reflexivity]. simpl.
  unfold fires in F. apply andb_true_iff in F. destruct F as [Hx _].
  now rewrite !(mem_Permutation _ _ _ (step_professors_of Hx)).
Qed.

Lemma inv_step : inv G1 (Final_main.reclassify G x) (done ++ [x]).
Proof.
  pose proof (inv_wf _ _ _ I) as W.
  split.
  - now apply wf_reclassify.
  - intros n. rewrite has_node_reclassify by assumption. apply I.
  - intros n. rewrite group_reclassify, step_fires, (inv_nodes _ _ _ I)
      by assumption.
    rewrite (inv_group _ _ _ I).
    assert (M : mem n (done ++ [x]) = mem n done || String.eqb x n).
    { unfold mem. rewrite existsb_app. simpl.
      now rewrite orb_false_r, (String.eqb_sym n x). }
    rewrite M.
    destruct (String.eqb x n) eqn:E.
    + apply String.eqb_eq in E; subst n.
      rewrite (proj2 (mem_false x done) fresh). simpl.
      rewrite andb_true_r.
      now destruct (fires G1 x && has_node G1 x).
    + rewrite andb_false_r, orb_false_r. reflexivity.
  - intros u v. rewrite has_edge_reclassify, step_pair_hit, (inv_edges _ _ _ I)
      by assumption.
    rewrite total_snoc.
    destruct (pair_hit G1 x u v); destruct (total G1 done u v);
      simpl; now rewrite ?orb_true_r, ?orb_false_r.
  - intros u v. rewrite wnum_reclassify, step_pair_hit, (inv_wnum _ _ _ I)
      by assumption.
    rewrite total_snoc. destruct (pair_hit G1 x u v); lia.
  - intros u v.
    rewrite weight_reclassify, step_pair_hit, (inv_wnum _ _ _ I),
      (inv_weight _ _ _ I) by assumption.
    rewrite total_snoc.
    destruct (pair_hit G1 x u v).
    + replace (0 <? total G1 done u v + 1)%nat with true
        by (symmetry; apply Nat.ltb_lt; lia).
      apply f_equal, f_equal. lia.
    + now rewrite Nat.add_0_r.
Qed.

End Step.

Lemma inv_loop todo done G :
  NoDup (done ++ todo) -> inv G1 G done ->
  inv G1 (fold_left Final_main.reclassify todo G) (done ++ todo).
Proof.
  revert done G. induction todo as [|x todo IH]; intros done G Hnd I.
  - now rewrite app_nil_r.
  - cbn [fold_left].
    replace (done ++ x :: todo) with ((done ++ [x]) ++ todo)
      by now rewrite <- app_assoc.
    apply IH.
    + now rewrite <- app_assoc.
    + apply inv_step; [assumption|].
      apply NoDup_remove_2 in Hnd. rewrite in_app_iff in Hnd. tauto.
Qed.

Lemma inv_final :
  inv G1 (fold_left Final_main.reclassify (nodes G1) G1) (nodes G1).
Proof.
  apply (inv_loop (nodes G1) [] G1); [apply W1 | apply inv_start].
Qed.

End SecondLoop.

(** *** In terms of the profiles *)

Lemma length_gt_1 (l : list string) :
  NoDup l ->
  (1 < List.length l)%nat <-> exists a b, a <> b /\ In a l /\ In b l.
Proof.
  intros Hnd. split.
  - destruct l as [|a [|b l]]; simpl; try lia. intros _.
    exists a, b. inversion Hnd as [|? ? Ha _]; subst.
    split; [|auto]. intros ->. apply Ha. now left.
  - intros [a [b [Hne [Ha Hb]]]].
    destruct l as [|x [|y l]]; simpl in *; try lia; try tauto.
    intuition congruence.
Qed.

Lemma is_str_true o s : is_str o s = true <-> o = Some (VStr s).
Proof.
  destruct o as [[t| |]|]; simpl; try (split; congruence).
  rewrite String.eqb_eq. split; congruence.
Qed.

Lemma direct_true profiles u v :
  direct profiles u v = true <->
  exists p c, In p (fetched profiles) /\ In c (coauthor_names p) /\
              ((name p = u /\ c = v) \/ (c = u /\ name p = v)).
Proof.
  unfold direct. rewrite existsb_exists. split.
  - intros [p [Hp H]]. apply existsb_exists in H. destruct H as [c [Hc H]].
    apply same_edge_true in H. exists p, c. tauto.
  - intros [p [c [Hp [Hc H]]]]. exists p. split; [assumption|].
    apply existsb_exists. exists c. split; [assumption|].
    apply same_edge_true. tauto.
Qed.

Lemma coauthor_somewhere_true profiles n :
  coauthor_somewhere profiles n = true <->
  exists p, In p (fetched profiles) /\ In n (coauthor_names p).
Proof.
  unfold coauthor_somewhere. rewrite existsb_exists.
  now setoid_rewrite mem_In.
Qed.

Section Combined.
Variable profiles : list (option Profile).
Let G1 := merged profiles.
Let Gc := Final_main.create_combined_network profiles.

Lemma combined_inv : inv G1 Gc (nodes G1).
Proof. apply inv_final, wf_merged. Qed.

Lemma wf_combined : wf Gc.
Proof. apply combined_inv. Qed.

Lemma In_nodes_merged n : In n (nodes G1) <-> has_node G1 n = true.
Proof. symmetry. apply has_node_In. Qed.

Lemma has_node_combined n :
  has_node Gc n = true <->
  In n (professor_names profiles) \/
  exists p, In p (fetched profiles) /\ In n (coauthor_names p).
Proof.
  rewrite (inv_nodes _ _ _ combined_inv). unfold G1.
  rewrite has_node_merged, orb_true_iff, mem_In, coauthor_somewhere_true.
  reflexivity.
Qed.

Lemma group_merged_professor n :
  group G1 n = Some (VStr "professor") <-> In n (professor_names profiles).
Proof.
  unfold G1. rewrite group_merged, <- mem_In.
  destruct (mem n (professor_names profiles)); [tauto|].
  destruct (coauthor_somewhere profiles n); split; congruence.
Qed.

Lemma group_merged_coauthor n :
  group G1 n = Some (VStr "coauthor") <->
  ~ In n (professor_names profiles) /\ coauthor_somewhere profiles n = true.
Proof.
  unfold G1. rewrite group_merged, <- mem_false.
  destruct (mem n (professor_names profiles)); [intuition congruence|].
  destruct (coauthor_somewhere profiles n); intuition congruence.
Qed.

Lemma fires_professor n :
  In n (professor_names profiles) -> fires G1 n = false.
Proof.
  intros H. unfold fires. apply group_merged_professor in H.
  now rewrite H.
Qed.

(** the professor classification survives both loops *)
Lemma combined_professor n :
  In n (professor_names profiles) -> group Gc n = Some (VStr "professor").
Proof.
  intros H. rewrite (inv_group _ _ _ combined_inv), (fires_professor n H).
  rewrite andb_false_r. now apply group_merged_professor.
Qed.

Lemma combined_group n :
  group Gc n =
  if fires G1 n && has_node G1 n then Some (VStr "shared_coauthor")
  else group G1 n.
Proof.
  rewrite (inv_group _ _ _ combined_inv).
  destruct (has_node G1 n) eqn:E.
  - now rewrite (proj2 (mem_In _ _) (proj2 (In_nodes_merged n) E)).
  - now rewrite !andb_false_r.
Qed.

Lemma total_loop done u : total G1 done u u = 0%nat.
Proof.
  unfold total. induction done as [|x l IH]; [reflexivity|]. simpl.
  unfold pair_hit at 1. rewrite String.eqb_refl. simpl.
  now rewrite andb_false_r.
Qed.

Lemma combined_no_self_loops :
  no_self_coauthor profiles -> no_self_loops Gc.
Proof.
  intros H u. rewrite (inv_edges _ _ _ combined_inv), total_loop. simpl.
  rewrite orb_false_r. unfold G1. rewrite has_edge_merged.
  destruct (direct profiles u u) eqn:E; [|reflexivity].
  apply direct_true in E. destruct E as [p [c [Hp [Hc E]]]].
  exfalso. apply (H p Hp).
  destruct E as [[-> <-]|[-> ->]]; assumption.
Qed.

(** *** Distinct professors that are nobody's coauthor *)

Section Agreement.
Hypothesis distinct : NoDup (professor_names profiles).
Hypothesis apart : professors_apart profiles.

Lemma apart_coauthor p c :
  In p (fetched profiles) -> In c (coauthor_names p) ->
  ~ In c (professor_names profiles).
Proof.
  intros Hp Hc Hn. apply in_map_iff in Hn. destruct Hn as [q [<- Hq]].
  exact (apart q p Hq Hp Hc).
Qed.

Lemma same_name p q :
  In p (fetched profiles) -> In q (fetched profiles) -> name p = name q ->
  p = q.
Proof. intros. now apply (NoDup_map_inj name (fetched profiles)). Qed.

Lemma direct_coauthor x p :
  In p (fetched profiles) ->
  direct profiles x (name p) = true <-> In x (coauthor_names p).
Proof.
  intros Hp. rewrite direct_true. split.
  - intros [q [c [Hq [Hc [[E1 E2]|[E1 E2]]]]]].
    + exfalso. apply (apart_coauthor q c Hq Hc). rewrite E2.
      now apply in_map.
    + apply (same_name q p Hq Hp) in E2. now subst.
  - intros Hx. exists p, x. tauto.
Qed.

Lemma direct_professors p q :
  In p (fetched profiles) -> In q (fetched profiles) ->
  direct profiles (name p) (name q) = false.
Proof.
  intros Hp Hq. destruct (direct profiles (name p) (name q)) eqn:E;
    [|reflexivity].
  apply (direct_coauthor (name p) q Hq) in E.
  exfalso. apply (apart p q Hp Hq E).
Qed.

Lemma In_professors_of_merged x p :
  In p (fetched profiles) ->
  In (name p) (professors_of G1 x) <-> In x (coauthor_names p).
Proof.
  intros Hp. rewrite In_professors_of, is_str_true, group_merged_professor.
  unfold G1. rewrite has_edge_merged, (direct_coauthor x p Hp).
  split; [tauto|]. intros H. split; [assumption|]. now apply in_map.
Qed.

Lemma professors_of_merged_name x a :
  In a (professors_of G1 x) ->
  exists p, In p (fetched profiles) /\ name p = a.
Proof.
  rewrite In_professors_of, is_str_true, group_merged_professor.
  intros [_ H]. apply in_map_iff in H. destruct H as [p [E Hp]]. eauto.
Qed.

Lemma fires_merged x :
  fires G1 x = true <-> shared_name profiles x.
Proof.
  unfold fires. rewrite andb_true_iff, is_str_true, group_merged_coauthor.
  rewrite Nat.ltb_lt, length_gt_1 by apply NoDup_professors_of, wf_merged.
  unfold shared_name. split.
  - intros [_ [a [b [Hne [Ha Hb]]]]].
    destruct (professors_of_merged_name x a Ha) as [p [Hp <-]].
    destruct (professors_of_merged_name x b Hb) as [q [Hq <-]].
    apply In_professors_of_merged in Ha, Hb; try assumption.
    exists p, q. tauto.
  - intros [p [q [Hp [Hq [Hne [Hx Hy]]]]]]. split; [split|].
    + now apply (apart_coauthor p x).
    + apply coauthor_somewhere_true. eauto.
    + exists (name p), (name q). split; [assumption|].
      split; now apply In_professors_of_merged.
Qed.

Lemma combined_shared_coauthor n :
  group Gc n = Some (VStr "shared_coauthor") <-> shared_name profiles n.
Proof.
  rewrite combined_group, <- fires_merged.
  destruct (fires G1 n) eqn:F; simpl.
  - assert (H : has_node G1 n = true).
    { apply fires_merged in F. destruct F as [p [_ [Hp [_ [_ [Hn _]]]]]].
      unfold G1. rewrite has_node_merged. apply orb_true_iff. right.
      apply coauthor_somewhere_true. eauto. }
    rewrite H. tauto.
  - unfold G1. rewrite group_merged.
    destruct (mem n (professor_names profiles)); [split; congruence|].
    destruct (coauthor_somewhere profiles n); split; congruence.
Qed.

Lemma pair_hit_merged x p q :
  In p (fetched profiles) -> In q (fetched profiles) -> name p <> name q ->
  pair_hit G1 x (name p) (name q) = true <->
  In x (coauthor_names p) /\ In x (coauthor_names q).
Proof.
  intros Hp Hq Hne. unfold pair_hit.
  rewrite !andb_true_iff, negb_true_iff, String.eqb_neq, !mem_In.
  rewrite !In_professors_of_merged by assumption.
  rewrite fires_merged. split; [tauto|].
  intros [Hx Hy]. repeat split; auto. exists p, q. tauto.
Qed.

Lemma total_common p q :
  In p (fetched profiles) -> In q (fetched profiles) -> name p <> name q ->
  total G1 (nodes G1) (name p) (name q) = List.length (common p q).
Proof.
  intros Hp Hq Hne. unfold total. apply Permutation_length.
  apply NoDup_Permutation.
  - apply NoDup_filter, wf_merged.
  - apply NoDup_intersection, NoDup_set_of.
  - intros x. rewrite filter_In, pair_hit_merged by assumption.
    unfold common. rewrite In_intersection, !In_set_of, In_nodes_merged.
    split; [tauto|]. intros [Hx Hy]. split; [|tauto].
    unfold G1. rewrite has_node_merged. apply orb_true_iff. right.
    apply coauthor_somewhere_true. eauto.
Qed.

Lemma weight_combined p q :
  In p (fetched profiles) -> In q (fetched profiles) -> name p <> name q ->
  weight Gc (name p) (name q) =
  if truthy (common p q) then Some (VInt (len (common p q))) else None.
Proof.
  intros Hp Hq Hne.
  rewrite (inv_weight _ _ _ combined_inv), total_common by assumption.
  unfold G1 at 2. rewrite weight_merged.
  unfold wnum, G1. rewrite has_edge_merged, direct_professors by assumption.
  unfold len. now destruct (common p q).
Qed.

Lemma has_edge_combined_professors p q :
  In p (fetched profiles) -> In q (fetched profiles) -> name p <> name q ->
  has_edge Gc (name p) (name q) = truthy (common p q).
Proof.
  intros Hp Hq Hne.
  rewrite (inv_edges _ _ _ combined_inv), total_common by assumption.
  unfold G1. rewrite has_edge_merged, direct_professors by assumption.
  now destruct (common p q).
Qed.

Lemma has_edge_combined_direct u v :
  direct profiles u v = true -> has_edge Gc u v = true.
Proof.
  intros H. rewrite (inv_edges _ _ _ combined_inv). unfold G1.
  now rewrite has_edge_merged, H.
Qed.

End Agreement.

End Combined.

End CombinedFacts.

(* ================================================================= *)
(** ** The individual builder, in general *)

Module IndividualFacts.
Import Py PyFacts NX NXFacts IndividualShape.

Lemma N_individual p :
  N.create_individual_network (Some p)
  = Some (build N_prof_attr N_coauthor_attr p).
Proof.
  unfold N.create_individual_network, build, coauthor_names.
  now rewrite fold_left_map_names.
Qed.

Lemma Final_main_individual p :
  Final_main.create_individual_network (Some p)
  = Some (build CombinedShape.professor_attr CombinedShape.coauthor_attr p).
Proof.
  unfold Final_main.create_individual_network, build, coauthor_names.
  now rewrite fold_left_map_names.
Qed.

Lemma Final_1_individual p :
  Final_1.create_individual_network (Some p)
  = Some (build Final_1_prof_attr Final_1_coauthor_attr p).
Proof.
  unfold Final_1.create_individual_network, build, coauthor_names.
  now rewrite fold_left_map_names.
Qed.

Section Build.
Variable prof_attr : Profile -> attrs.
Variable coauthor_attr : string -> attrs.

#[local] Abbreviation step := (step coauthor_attr).

Lemma wf_steps prof l G : wf G -> wf (fold_left (step prof) l G).
Proof.
  revert G. induction l as [|c l IH]; intros G W; simpl; [assumption|].
  apply IH. unfold IndividualShape.step. auto using wf_add_edge, wf_add_node.
Qed.

Lemma has_edge_steps prof l G u v :
  wf G ->
  has_edge (fold_left (step prof) l G) u v
  = has_edge G u v || existsb (fun c => same_edge prof c u v) l.
Proof.
  revert G. induction l as [|c l IH]; intros G W; simpl.
  - now rewrite orb_false_r.
  - rewrite IH by (unfold IndividualShape.step; auto using wf_add_edge, wf_add_node).
    unfold IndividualShape.step.
    rewrite has_edge_add_edge by auto using wf_add_node.
    rewrite !has_edge_edge_attr, edge_attr_add_node by assumption.
    destruct (edge_attr G u v), (same_edge prof c u v); reflexivity.
Qed.

Lemma wf_individual p : wf (build prof_attr coauthor_attr p).
Proof. apply wf_steps, wf_add_node, wf_empty. Qed.

Lemma has_edge_individual p u v :
  has_edge (build prof_attr coauthor_attr p) u v
  = existsb (fun c => same_edge (name p) c u v) (coauthor_names p).
Proof.
  unfold build. rewrite has_edge_steps by apply wf_add_node, wf_empty.
  rewrite has_edge_edge_attr, edge_attr_add_node by apply wf_empty.
  reflexivity.
Qed.

Lemma individual_no_self_loops p :
  ~ In (name p) (coauthor_names p) ->
  no_self_loops (build prof_attr coauthor_attr p).
Proof.
  intros H u. rewrite has_edge_individual.
  destruct (existsb _ _) eqn:E; [|reflexivity].
  apply existsb_exists in E. destruct E as [c [Hc E]].
  apply same_edge_true in E. exfalso. apply H.
  destruct E as [[-> <-]|[-> ->]]; assumption.
Qed.

End Build.

(** *** Adding an edge that exists *)

Lemma edges_from_skeleton adj adj' seen :
  skeleton adj = skeleton adj' -> edges_from adj seen = edges_from adj' seen.
Proof.
  revert adj' seen. induction adj as [|[n nb] adj IH];
    intros [|[n' nb'] adj'] seen H; simpl in *; try discriminate.
  - reflexivity.
  - injection H as -> E1 E2. rewrite E1. f_equal. now apply IH.
Qed.

Lemma skeleton_setitem (adj : dict (dict attrs)) k nb old :
  get adj k = Some old -> keys nb = keys old ->
  skeleton (setitem adj k nb) = skeleton adj.
Proof.
  induction adj as [|[k0 v0] adj IH]; simpl; [discriminate|].
  destruct (String.eqb k0 k) eqn:E; simpl.
  - intros [= ->] H. now rewrite H.
  - intros H1 H2. f_equal. now apply IH.
Qed.

Lemma skeleton_set_adj adj u v d :
  adj_get adj u v <> None -> skeleton (set_adj adj u v d) = skeleton adj.
Proof.
  unfold adj_get, set_adj, get_default.
  destruct (get adj u) as [nb|] eqn:E; [|congruence].
  intros H. apply (skeleton_setitem adj u _ nb E).
  rewrite keys_setitem. unfold contains. now destruct (get nb v).
Qed.

Lemma touch_existing G u : has_node G u = true -> touch G u = G.
Proof. unfold touch, has_node. now intros ->. Qed.

(** adding an edge between two connected nodes creates no second edge: the
    edge list is unchanged and the attributes are merged into the existing
    ones *)
Lemma add_edge_existing G u v a :
  wf G -> has_edge G u v = true ->
  edges (add_edge G u v a) = edges G /\
  number_of_edges (add_edge G u v a) = number_of_edges G /\
  edge_attr (add_edge G u v a) u v
  = Some (update (attrs_or_empty (edge_attr G u v)) a).
Proof.
  intros W H.
  assert (E : edges (add_edge G u v a) = edges G).
  { assert (Hn : edge_attr G u v <> None).
    { rewrite has_edge_edge_attr in H. now destruct (edge_attr G u v). }
    destruct (wf_edge_nodes G u v W Hn) as [Hu Hv].
    unfold edges, add_edge. rewrite (touch_existing G u Hu), (touch_existing G v Hv).
    cbn [_adj]. apply edges_from_skeleton.
    rewrite skeleton_set_adj, skeleton_set_adj; auto.
    rewrite adj_get_set_adj. destruct (String.eqb u v && String.eqb v u);
      [discriminate|].
    rewrite <- edge_attr_adj_get, <- (wf_sym _ W). assumption. }
  split; [assumption|]. split.
  - unfold number_of_edges. now rewrite E.
  - now rewrite edge_attr_add_edge, same_edge_refl.
Qed.

End IndividualFacts.

Section BuilderClaims.
Import Py PyFacts NX NXFacts SharedShape SharedFacts CombinedShape CombinedFacts
       IndividualShape IndividualFacts.

Lemma In_fetched profiles p : In p (fetched profiles) <-> In (Some p) profiles.
Proof.
  unfold fetched. rewrite in_flat_map. split.
  - intros [[q|] [H1 H2]]; simpl in H2; [|contradiction].
    destruct H2 as [->|[]]. assumption.
  - intros H. exists (Some p). simpl. auto.
Qed.

Lemma shared_no_self_loops prof_attr shared_attr profiles :
  no_self_coauthor profiles ->
  no_self_loops (SharedShape.build prof_attr shared_attr profiles).
Proof.
  intros H u.
  destruct (has_edge _ u u) eqn:E; [|reflexivity]. exfalso.
  apply has_edge_build in E. destruct E as [x [y [Hx [Hy [Hne E]]]]].
  apply touches_true in E. destruct E as [c [Hc E]]. simpl in E.
  unfold shared_of in Hc. simpl in Hc. apply In_intersection in Hc.
  destruct Hc as [Hcx Hcy].
  destruct (prof_coauthors_origin profiles x Hx) as [p [Hp [Np Sp]]].
  destruct (prof_coauthors_origin profiles y Hy) as [q [Hq [Nq Sq]]].
  rewrite Sp, In_set_of in Hcx. rewrite Sq, In_set_of in Hcy.
  rewrite !same_edge_true in E.
  destruct E as [[[E1 E2]|[E1 E2]]|[[[E1 E2]|[E1 E2]]|[[E1 E2]|[E1 E2]]]];
    try (apply Hne; congruence).
  - apply (H p Hp). rewrite Np, E1, <- E2. assumption.
  - apply (H p Hp). rewrite Np, E2, <- E1. assumption.
  - apply (H q Hq). rewrite Nq, E1, <- E2. assumption.
  - apply (H q Hq). rewrite Nq, E2, <- E1. assumption.
Qed.

Lemma built_wf profiles G : built profiles G -> wf G.
Proof.
  intros [[p [_ H]]|H]; cbn [In] in H.
  - rewrite N_individual, Final_main_individual, Final_1_individual in H.
    destruct H as [[= <-]|[[= <-]|[[= <-]|[]]]]; apply wf_individual.
  - destruct H as [<-|[<-|[<-|[]]]].
    + rewrite N_shape. apply wf_build.
    + rewrite Final_1_shape. apply wf_build.
    + apply wf_combined.
Qed.

(** C9, as stated, fails on a profile that lists its own name among its
    coauthors: the individual builder adds the edge from the professor to
    itself. *)
Lemma self_coauthor_self_loop :
  exists G, built c9_input G /\ ~ no_self_loops G.
Proof.
  exists (build N_prof_attr N_coauthor_attr (mkProfile "P" "" "" [mkCoauthor "P"])).
  split.
  - left. exists (mkProfile "P" "" "" [mkCoauthor "P"]). simpl. auto.
  - intros H. specialize (H "P"). vm_compute in H. discriminate.
Qed.

(** C9, amended: every graph produced by a builder has no parallel edges, and
    adding an edge between two connected nodes leaves the number of edges
    unchanged and merges the attributes into the existing ones; when no
    profile lists its own name among its coauthors, the graph has no
    self-loop either. *)
Theorem built_graphs_simple profiles G :
  built profiles G ->
  no_parallel_edges G /\
  (forall u v a,
     has_edge G u v = true ->
     number_of_edges (add_edge G u v a) = number_of_edges G /\
     edge_attr (add_edge G u v a) u v
     = Some (update (attrs_or_empty (edge_attr G u v)) a)) /\
  (no_self_coauthor profiles -> no_self_loops G).
Proof.
  intros B. pose proof (built_wf profiles G B) as W.
  split; [now apply wf_no_parallel_edges|]. split.
  - intros u v a H. now apply add_edge_existing.
  - intros Hs. destruct B as [[p [Hp H]]|H]; cbn [In] in H.
    + apply In_fetched in Hp.
      rewrite N_individual, Final_main_individual, Final_1_individual in H.
      destruct H as [[= <-]|[[= <-]|[[= <-]|[]]]];
        apply individual_no_self_loops, Hs, Hp.
    + destruct H as [<-|[<-|[<-|[]]]].
      * rewrite N_shape. now apply shared_no_self_loops.
      * rewrite Final_1_shape. now apply shared_no_self_loops.
      * now apply combined_no_self_loops.
Qed.

Lemma built_graphs_simple_witness :
  let profiles := [profile_of "P" ["A"]; profile_of "Q" ["A"]] in
  let G := Final_main.create_combined_network profiles in
  built profiles G /\ no_self_coauthor profiles /\
  no_parallel_edges G /\ no_self_loops G.
Proof.
  intros profiles G.
  assert (B : built profiles G) by (right; simpl; auto).
  assert (S : no_self_coauthor profiles).
  { intros p Hp. simpl in Hp.
    destruct Hp as [<-|[<-|[]]]; simpl; intuition discriminate. }
  destruct (built_graphs_simple profiles G B) as [H1 [_ H3]].
  auto.
Defined.

(** C1 at the shared-connections builder: "P3" is a professor of the input and
    a coauthor of the professors "P1" and "P2"; [find_shared_connections]
    re-adds it as a shared coauthor, which overwrites its kind.  The combined
    builder keeps it a professor. *)
Theorem shared_connections_downgrades_professor :
  In "P3" (professor_names c1_input) /\
  node_type (N.find_shared_connections c1_input) "P3"
  = Some (VStr "shared_coauthor") /\
  group (Final_main.create_combined_network c1_input) "P3"
  = Some (VStr "professor").
Proof. repeat split. simpl. auto. Qed.

(** The combined builder never downgrades a professor. *)
Lemma combined_professor_wins profiles n :
  In n (professor_names profiles) ->
  group (Final_main.create_combined_network profiles) n
  = Some (VStr "professor").
Proof. apply combined_professor. Qed.

Lemma combined_professor_wins_witness :
  group (Final_main.create_combined_network c1_input) "P3"
  = Some (VStr "professor").
Proof. apply combined_professor_wins. simpl. auto. Defined.

(** In the shared-connections builder a professor who is a coauthor shared by
    two other records ends as a shared coauthor. *)
Lemma shared_professor_downgraded profiles n :
  NoDup (professor_names profiles) ->
  In n (professor_names profiles) -> shared_name profiles n ->
  node_type (N.find_shared_connections profiles) n
  = Some (VStr "shared_coauthor").
Proof.
  intros Hnd _ Hs. rewrite N_shape.
  apply (shared_types _ _ N_prof_attr_type N_shared_attr_type profiles Hnd).
  left. auto.
Qed.

End BuilderClaims.

Section Equivalence.
Import Py PyFacts NX NXFacts SharedShape SharedFacts CombinedShape CombinedFacts.

Lemma weight_shared profiles p q :
  NoDup (professor_names profiles) ->
  In p (fetched profiles) -> In q (fetched profiles) -> name p <> name q ->
  weight (N.find_shared_connections profiles) (name p) (name q) =
  if truthy (common p q) then Some (VInt (len (common p q))) else None.
Proof.
  intros Hnd Hp Hq Hne. apply option_ext. intros w.
  rewrite N_shape, (shared_weights _ _ profiles Hnd). unfold weighted. split.
  - intros [p' [q' [Hp' [Hq' [_ [E1 [E2 [Hc ->]]]]]]]].
    apply (NoDup_map_inj name _ _ _ Hnd Hp Hp') in E1.
    apply (NoDup_map_inj name _ _ _ Hnd Hq Hq') in E2. subst p' q'.
    now destruct (common p q).
  - intros H. exists p, q. repeat split; auto.
    + intros E. rewrite E in H. discriminate.
    + destruct (common p q); [discriminate|]. now injection H.
Qed.

(** C2, as stated, fails.  The combined graph keeps a node for a coauthor of
    a single professor, which the shared-connections graph does not have; and
    when a professor is a coauthor shared by two others, the two builders
    weigh the edge between these differently. *)
Lemma combined_differs_from_shared :
  (has_node (Final_main.create_combined_network c2_nodes_input) "A" = true /\
   has_node (N.find_shared_connections c2_nodes_input) "A" = false) /\
  (weight (Final_main.create_combined_network c2_weights_input) "P1" "P2"
   = Some (VInt 1) /\
   weight (N.find_shared_connections c2_weights_input) "P1" "P2"
   = Some (VInt 2)).
Proof. repeat split. Qed.

(** C2, amended: when the professor names are pairwise distinct and none of
    them occurs in a coauthor list, the two builders agree on the edges
    between professors and on their weights, which are the sizes of the
    intersections of the coauthor sets; they agree on which nodes are
    professors and which are shared coauthors; every node and edge of the
    shared-connections graph is in the combined graph; and the nodes that only
    the combined graph has are plain coauthors. *)
Theorem combined_agrees_with_shared profiles :
  NoDup (professor_names profiles) -> professors_apart profiles ->
  let Gc := Final_main.create_combined_network profiles in
  let Gs := N.find_shared_connections profiles in
  (forall p q,
     In p (fetched profiles) -> In q (fetched profiles) -> name p <> name q ->
     has_edge Gc (name p) (name q) = has_edge Gs (name p) (name q) /\
     weight Gc (name p) (name q) = weight Gs (name p) (name q) /\
     weight Gc (name p) (name q)
     = if truthy (common p q) then Some (VInt (len (common p q))) else None) /\
  (forall n, In n (professor_names profiles) ->
             group Gc n = Some (VStr "professor") /\
             node_type Gs n = Some (VStr "professor")) /\
  (forall n, group Gc n = Some (VStr "shared_coauthor") <->
             node_type Gs n = Some (VStr "shared_coauthor")) /\
  (forall n, has_node Gs n = true -> has_node Gc n = true) /\
  (forall u v, has_edge Gs u v = true -> has_edge Gc u v = true) /\
  (forall n, has_node Gc n = true -> has_node Gs n = false ->
             group Gc n = Some (VStr "coauthor")).
Proof.
  intros Hnd Ha Gc Gs.
  assert (T : forall n t, node_type Gs n = Some t <->
               (t = VStr "shared_coauthor" /\ shared_name profiles n) \/
               (t = VStr "professor" /\ In n (professor_names profiles) /\
                ~ shared_name profiles n)).
  { intros n t. unfold Gs. rewrite N_shape.
    apply (shared_types _ _ N_prof_attr_type N_shared_attr_type profiles Hnd). }
  assert (Nd : forall n, has_node Gs n = true <->
                In n (professor_names profiles) \/ shared_name profiles n).
  { intros n. unfold Gs. rewrite N_shape. now apply shared_nodes. }
  assert (Ed : forall u v, has_edge Gs u v = true <-> linked profiles u v).
  { intros u v. unfold Gs. rewrite N_shape. now apply shared_edges. }
  repeat split.
  - unfold Gc. rewrite (has_edge_combined_professors profiles Hnd Ha p q)
      by assumption.
    apply bool_ext. rewrite Ed, truthy_true. unfold linked, common. split.
    + intros [c Hc]. apply In_intersection in Hc. rewrite !In_set_of in Hc.
      exists p, q, c. tauto.
    + intros [p' [q' [c [Hp' [Hq' [Hne' [Hc1 [Hc2 Hd]]]]]]]].
      destruct Hd as [[E1 E2]|[[E1 E2]|[E1 E2]]].
      * apply (NoDup_map_inj name _ _ _ Hnd H Hp') in E1.
        apply (NoDup_map_inj name _ _ _ Hnd H0 Hq') in E2. subst.
        exists c. apply In_intersection. now rewrite !In_set_of.
      * exfalso. apply (Ha q p' H0 Hp'). now rewrite E2.
      * exfalso. apply (Ha p p' H Hp'). now rewrite E1.
  - unfold Gc, Gs.
    now rewrite (weight_combined profiles Hnd Ha p q), weight_shared.
  - unfold Gc. now apply weight_combined.
  - now apply combined_professor.
  - apply T. right. repeat split; auto.
    intros [p [q [Hp [_ [_ [Hc _]]]]]].
    apply in_map_iff in H. destruct H as [r [<- Hr]].
    exact (Ha r p Hr Hp Hc).
  - intros H. apply (combined_shared_coauthor profiles Hnd Ha) in H.
    apply T. left. auto.
  - intros H. apply T in H. destruct H as [[_ H]|[H _]]; [|discriminate].
    now apply (combined_shared_coauthor profiles Hnd Ha).
  - intros n H. apply Nd in H. apply has_node_combined.
    destruct H as [H|[p [_ [Hp [_ [_ [Hc _]]]]]]]; eauto.
  - intros u v H. apply Ed in H.
    destruct H as [p [q [c [Hp [Hq [Hne [Hc1 [Hc2 Hd]]]]]]]].
    destruct Hd as [[-> ->]|[[-> ->]|[-> ->]]].
    + unfold Gc. rewrite (has_edge_combined_professors profiles Hnd Ha p q)
        by assumption.
      apply truthy_true. exists c. unfold common.
      apply In_intersection. now rewrite !In_set_of.
    + apply has_edge_combined_direct, direct_true. exists p, c. tauto.
    + apply has_edge_combined_direct, direct_true. exists p, c. tauto.
  - intros n Hc Hs.
    assert (Hn : ~ (In n (professor_names profiles) \/ shared_name profiles n)).
    { intros H. apply Nd in H. congruence. }
    apply has_node_combined in Hc.
    destruct Hc as [Hc|[p [Hp Hc]]]; [tauto|].
    unfold Gc. rewrite combined_group.
    destruct (fires (merged profiles) n) eqn:F.
    + apply (fires_merged profiles Hnd Ha) in F. tauto.
    + simpl. apply group_merged_coauthor. split; [tauto|].
      apply coauthor_somewhere_true. eauto.
Qed.

Lemma combined_agrees_with_shared_witness :
  let profiles := [profile_of "P" ["A"; "B"]; profile_of "Q" ["B"; "C"]] in
  let Gc := Final_main.create_combined_network profiles in
  let Gs := N.find_shared_connections profiles in
  (forall p q,
     In p (fetched profiles) -> In q (fetched profiles) -> name p <> name q ->
     has_edge Gc (name p) (name q) = has_edge Gs (name p) (name q) /\
     weight Gc (name p) (name q) = weight Gs (name p) (name q) /\
     weight Gc (name p) (name q)
     = if truthy (common p q) then Some (VInt (len (common p q))) else None) /\
  (forall n, In n (professor_names profiles) ->
             group Gc n = Some (VStr "professor") /\
             node_type Gs n = Some (VStr "professor")) /\
  (forall n, group Gc n = Some (VStr "shared_coauthor") <->
             node_type Gs n = Some (VStr "shared_coauthor")) /\
  (forall n, has_node Gs n = true -> has_node Gc n = true) /\
  (forall u v, has_edge Gs u v = true -> has_edge Gc u v = true) /\
  (forall n, has_node Gc n = true -> has_node Gs n = false ->
             group Gc n = Some (VStr "coauthor")).
Proof.
  apply combined_agrees_with_shared.
  - simpl. repeat constructor; simpl; intuition discriminate.
  - intros p q Hp Hq. simpl in Hp, Hq.
    destruct Hp as [<-|[<-|[]]], Hq as [<-|[<-|[]]]; simpl;
      intuition discriminate.
Defined.

End Equivalence.

(* ================================================================= *)
(** ** The individual network is a star *)

Module StarFacts.
Import Py PyFacts NX NXFacts IndividualShape IndividualFacts StarShape.

Section Star.

Lemma contains_mem_keys {V} (d : dict V) k : contains d k = mem k (keys d).
Proof.
  destruct (contains d k) eqn:E; symmetry.
  - apply mem_In, contains_keys, E.
  - apply mem_false, contains_false_keys, E.
Qed.

Lemma keys_setitem_add {V} (d : dict V) k v :
  keys (setitem d k v) = add (keys d) k.
Proof. rewrite keys_setitem, contains_mem_keys. reflexivity. Qed.

Lemma setitem_new {V} (d : dict V) k v :
  get d k = None -> setitem d k v = d ++ [(k, v)].
Proof.
  induction d as [|[k' v'] d IH]; simpl; [reflexivity|].
  destruct (String.eqb k' k); [discriminate|]. intros H. now rewrite IH.
Qed.

Lemma skeleton_app adj adj' : skeleton (adj ++ adj') = skeleton adj ++ skeleton adj'.
Proof. apply map_app. Qed.

Lemma skeleton_set_adj_add adj u v d :
  contains adj u = true ->
  skeleton (set_adj adj u v d) = add_neighbor (skeleton adj) u v.
Proof.
  unfold set_adj, get_default, contains.
  induction adj as [|[k nb] adj IH]; simpl; [discriminate|].
  destruct (String.eqb k u) eqn:E; simpl.
  - intros _. now rewrite keys_setitem_add.
  - intros H. f_equal. destruct (get adj u) eqn:G; [|discriminate].
    now apply IH.
Qed.

Lemma keys_skeleton (adj : dict (dict attrs)) : keys (skeleton adj) = keys adj.
Proof. unfold keys, skeleton. rewrite map_map. reflexivity. Qed.

Lemma add_neighbor_spokes prof S c :
  add_neighbor (map (spoke prof) S) c prof = map (spoke prof) S.
Proof.
  induction S as [|x S IH]; simpl; [reflexivity|].
  destruct (String.eqb x c).
  - unfold add. simpl. now rewrite String.eqb_refl.
  - now rewrite IH.
Qed.

Lemma add_neighbor_last sk c ks v :
  ~ In c (map fst sk) ->
  add_neighbor (sk ++ [(c, ks)]) c v = sk ++ [(c, add ks v)].
Proof.
  induction sk as [|[k l] sk IH]; simpl; intros H.
  - now rewrite String.eqb_refl.
  - destruct (String.eqb k c) eqn:E.
    + apply String.eqb_eq in E. tauto.
    + rewrite IH by tauto. reflexivity.
Qed.

Lemma keys_add_neighbor sk u v : map fst (add_neighbor sk u v) = map fst sk.
Proof.
  induction sk as [|[k ks] sk IH]; simpl; [reflexivity|].
  destruct (String.eqb k u); simpl; [reflexivity|now rewrite IH].
Qed.

Lemma map_fst_spokes prof S : map fst (map (spoke prof) S) = S.
Proof. rewrite map_map. simpl. apply map_id. Qed.

Variable prof_attr : Profile -> attrs.
Variable coauthor_attr : string -> attrs.

(** the shape of the graph while [create_individual_network] runs: the
    professor first, then the coauthors met so far, each joined to the
    professor only *)
Lemma star_steps prof l G S :
  ~ In prof l -> ~ In prof S -> NoDup S ->
  nodes G = prof :: S ->
  skeleton (_adj G) = (prof, S) :: map (spoke prof) S ->
  let G' := fold_left (step coauthor_attr prof) l G in
  nodes G' = prof :: fold_left add l S /\
  skeleton (_adj G') = (prof, fold_left add l S)
                         :: map (spoke prof) (fold_left add l S).
Proof.
  revert G S. induction l as [|c l IH]; intros G S Hl HS ND HN HA;
    [split; assumption|].
  cbn [fold_left]. 
  assert (Hc : c <> prof) by (intros ->; apply Hl; now left).
  assert (Hp : has_node G prof = true).
  { apply has_node_In. rewrite HN. now left. }
  assert (Had : keys (_adj G) = prof :: S).
  { rewrite <- keys_skeleton, HA. unfold keys. cbn [map fst].
    now rewrite map_fst_spokes. }
  apply IH.
  - intros H. apply Hl. now right.
  - intros H. apply In_add in H. destruct H as [H| ->]; [tauto|].
    apply Hl. now left.
  - now apply NoDup_add.
  - unfold step.
    rewrite nodes_add_edge, nodes_touch, nodes_touch, !has_node_touch,
      !has_node_add_node, Hp, !String.eqb_refl, !orb_true_r.
    cbn [orb]. rewrite nodes_add_node, HN.
    assert (E : has_node G c = mem c S).
    { destruct (mem c S) eqn:M.
      - apply has_node_In. rewrite HN. right. now apply mem_In.
      - apply has_node_false_In. rewrite HN. apply mem_false in M.
        intros [H|H]; [congruence|tauto]. }
    rewrite E. unfold add. destruct (mem c S); reflexivity.
  - unfold step, add_edge.
    rewrite !touch_existing
      by (rewrite ?has_node_touch, ?has_node_add_node, ?Hp, ?String.eqb_refl;
          cbn [orb]; rewrite ?orb_true_r; reflexivity).
    cbn [_adj].
    assert (B : skeleton (_adj (add_node G c (coauthor_attr c)))
                = if mem c S then (prof, S) :: map (spoke prof) S
                  else ((prof, S) :: map (spoke prof) S) ++ [(c, [])]).
    { unfold add_node. destruct (get (_node G) c) eqn:Gc.
      - cbn [_adj]. rewrite HA.
        assert (M : mem c S = true).
        { apply mem_In. assert (In c (nodes G)).
          { apply get_Some_keys. eauto. }
          rewrite HN in H. destruct H; [congruence|assumption]. }
        now rewrite M.
      - cbn [_adj].
        assert (M : mem c S = false).
        { apply mem_false. intros H. apply get_None_keys in Gc. apply Gc.
          change (In c (nodes G)). rewrite HN. now right. }
        rewrite M. rewrite setitem_new.
        + now rewrite skeleton_app, HA.
        + apply get_None_keys. rewrite Had. apply mem_false in M.
          intros [H|H]; [congruence|tauto]. }
    set (A1 := _adj (add_node G c (coauthor_attr c))) in *.
    assert (K1 : contains A1 prof = true).
    { apply contains_keys. rewrite <- keys_skeleton, B.
      destruct (mem c S); left; reflexivity. }
    assert (K2 : In c (map fst (skeleton A1))).
    { rewrite B. destruct (mem c S) eqn:M.
      - cbn [map fst]. rewrite map_fst_spokes. right. now apply mem_In.
      - rewrite map_app. apply in_or_app. right. now left. }
    rewrite skeleton_set_adj_add.
    2:{ apply contains_keys. rewrite <- keys_skeleton.
        rewrite skeleton_set_adj_add by assumption.
        unfold keys. now rewrite keys_add_neighbor. }
    rewrite skeleton_set_adj_add by assumption. rewrite B.
    destruct (mem c S) eqn:M.
    + simpl. rewrite String.eqb_refl. simpl.
      rewrite (eqb_sym_false prof c) by congruence.
      rewrite add_neighbor_spokes.
      assert (A : add S c = S) by (unfold add; now rewrite M).
      now rewrite A.
    + simpl. rewrite String.eqb_refl. simpl.
      rewrite (eqb_sym_false prof c) by congruence.
      rewrite add_neighbor_last.
      2:{ rewrite map_fst_spokes. now apply mem_false. }
      assert (A : add S c = S ++ [c]) by (unfold add; now rewrite M).
      rewrite A, map_app. reflexivity.
Qed.


Lemma edges_from_spokes prof S rest seen :
  skeleton rest = map (spoke prof) S -> In prof seen ->
  edges_from rest seen = [].
Proof.
  revert S seen. induction rest as [|[k nb] rest IH]; intros S seen H Hs;
    [reflexivity|].
  destruct S as [|c S]; [discriminate|]. simpl in H.
  injection H as -> K R. cbn [edges_from]. rewrite K. cbn [filter].
  assert (M : mem prof seen = true) by now apply mem_In.
  rewrite M. cbn [negb map app]. apply (IH S); [assumption|now right].
Qed.

Lemma skeleton_get (adj : dict (dict attrs)) k :
  get (skeleton adj) k = option_map keys (get adj k).
Proof.
  induction adj as [|[k' nb] adj IH]; simpl; [reflexivity|].
  destruct (String.eqb k' k); [reflexivity|assumption].
Qed.

Lemma neighbors_skeleton G n :
  neighbors G n = match get (skeleton (_adj G)) n with
                  | Some ks => ks | None => [] end.
Proof.
  unfold neighbors, nbrs, get_default. rewrite skeleton_get.
  now destruct (get (_adj G) n).
Qed.

Lemma degree_neighbors G n :
  degree G n = (List.length (neighbors G n)
                + if mem n (neighbors G n) then 1 else 0)%nat.
Proof.
  unfold degree, neighbors. rewrite contains_mem_keys.
  unfold keys. now rewrite length_map.
Qed.

Lemma get_spokes prof S c :
  get (map (spoke prof) S) c = if mem c S then Some [prof] else None.
Proof.
  induction S as [|x S IH]; simpl; [reflexivity|].
  rewrite (String.eqb_sym c x). destruct (String.eqb x c); [reflexivity|].
  exact IH.
Qed.

(** [create_individual_network] on a profile that does not list its own
    name *)
Lemma star_build p :
  ~ In (name p) (coauthor_names p) ->
  let G := build prof_attr coauthor_attr p in
  let S := set_of (coauthor_names p) in
  nodes G = name p :: S /\
  skeleton (_adj G) = (name p, S) :: map (spoke (name p)) S.
Proof.
  intros H. unfold build, set_of.
  apply star_steps; auto; constructor.
Qed.

Lemma star_edges p :
  ~ In (name p) (coauthor_names p) ->
  edges (build prof_attr coauthor_attr p)
  = map (pair (name p)) (set_of (coauthor_names p)).
Proof.
  intros H. destruct (star_build p H) as [_ K]. unfold edges.
  destruct (_adj (build prof_attr coauthor_attr p)) as [|[k nb] rest];
    [discriminate|].
  simpl in K. injection K as -> K R. cbn [edges_from]. rewrite K.
  rewrite (edges_from_spokes (name p) _ rest [name p] R) by now left.
  rewrite app_nil_r. f_equal.
  apply forallb_filter_id. apply forallb_forall. reflexivity.
Qed.

Lemma star_neighbors p n :
  ~ In (name p) (coauthor_names p) ->
  neighbors (build prof_attr coauthor_attr p) n
  = if String.eqb (name p) n then set_of (coauthor_names p)
    else if mem n (coauthor_names p) then [name p] else [].
Proof.
  intros H. destruct (star_build p H) as [_ K].
  rewrite neighbors_skeleton, K. cbn [get].
  destruct (String.eqb (name p) n); [reflexivity|].
  rewrite get_spokes.
  assert (E : mem n (set_of (coauthor_names p)) = mem n (coauthor_names p)).
  { apply bool_ext. now rewrite !mem_In, In_set_of. }
  rewrite E. now destruct (mem n (coauthor_names p)).
Qed.


(** the kind of a node, stored under [key] *)
Section Kinds.
Variable key : string.
Hypothesis prof_kind :
  forall p a, get (update a (prof_attr p)) key = Some (VStr "professor").
Hypothesis coauthor_kind :
  forall c a, get (update a (coauthor_attr c)) key = Some (VStr "coauthor").

Lemma kind_steps prof l G n :
  has_node G prof = true ->
  node_get (fold_left (step coauthor_attr prof) l G) n key
  = if mem n l then Some (VStr "coauthor") else node_get G n key.
Proof.
  revert G. induction l as [|c l IH]; intros G Hp; [reflexivity|].
  cbn [fold_left]. rewrite IH.
  2:{ unfold step. rewrite has_node_add_edge, String.eqb_refl. reflexivity. }
  unfold step. unfold node_get at 1.
  rewrite node_attr_add_edge_existing
    by (rewrite has_node_add_node, ?Hp, ?String.eqb_refl, ?orb_true_r;
        reflexivity).
  fold (node_get (add_node G c (coauthor_attr c)) n key).
  rewrite node_get_add_node, coauthor_kind. unfold mem. cbn [existsb].
  rewrite (String.eqb_sym n c).
  destruct (String.eqb c n), (existsb (String.eqb n) l); reflexivity.
Qed.

Lemma kind_build p n :
  node_get (build prof_attr coauthor_attr p) n key
  = if mem n (coauthor_names p) then Some (VStr "coauthor")
    else if String.eqb (name p) n then Some (VStr "professor") else None.
Proof.
  unfold build. rewrite kind_steps.
  2:{ rewrite has_node_add_node, String.eqb_refl. reflexivity. }
  rewrite node_get_add_node, prof_kind.
  destruct (mem n (coauthor_names p)); [reflexivity|].
  destruct (String.eqb (name p) n); reflexivity.
Qed.
End Kinds.

End Star.

End StarFacts.

(* ================================================================= *)
(** ** Further properties of the individual builder *)

Section IndividualProperties.
Import Py PyFacts NX NXFacts IndividualShape IndividualFacts StarShape StarFacts.

Lemma individual_builders p build :
  In build [N.create_individual_network;
            Final_main.create_individual_network;
            Final_1.create_individual_network] ->
  exists prof_attr coauthor_attr,
    build (Some p) = Some (IndividualShape.build prof_attr coauthor_attr p).
Proof.
  intros [<-|[<-|[<-|[]]]].
  - rewrite N_individual. eauto.
  - rewrite Final_main_individual. eauto.
  - rewrite Final_1_individual. eauto.
Qed.

(** The graph of [create_individual_network] is a star.  For a profile that
    does not list its own name, the nodes are the professor followed by the
    distinct coauthor names in order of first occurrence, [G.edges()] lists
    one edge from the professor to each of them, and the professor is the
    only neighbour of a coauthor: a name repeated in the coauthor list adds
    neither a node nor an edge. *)
Theorem individual_network_star p build :
  ~ In (name p) (coauthor_names p) ->
  In build [N.create_individual_network;
            Final_main.create_individual_network;
            Final_1.create_individual_network] ->
  exists G,
    build (Some p) = Some G /\
    nodes G = name p :: set_of (coauthor_names p) /\
    edges G = map (pair (name p)) (set_of (coauthor_names p)) /\
    neighbors G (name p) = set_of (coauthor_names p) /\
    (forall c, In c (coauthor_names p) -> neighbors G c = [name p]).
Proof.
  intros H Hb. destruct (individual_builders p build Hb) as [pa [ca E]].
  exists (IndividualShape.build pa ca p). split; [assumption|].
  split; [apply (star_build pa ca p H)|].
  split; [apply star_edges, H|]. split.
  - rewrite star_neighbors by assumption. now rewrite String.eqb_refl.
  - intros c Hc. rewrite star_neighbors by assumption.
    rewrite eqb_sym_false by (intros E'; apply H; now rewrite E').
    apply mem_In in Hc. now rewrite Hc.
Qed.

Lemma individual_network_star_witness :
  exists G,
    N.create_individual_network (profile_of "P" ["A"; "B"; "A"]) = Some G /\
    nodes G = ["P"; "A"; "B"] /\
    edges G = [("P", "A"); ("P", "B")] /\
    neighbors G "P" = ["A"; "B"] /\
    (forall c, In c ["A"; "B"; "A"] -> neighbors G c = ["P"]).
Proof.
  apply (individual_network_star
           (mkProfile "P" "" "" [mkCoauthor "A"; mkCoauthor "B"; mkCoauthor "A"])
           N.create_individual_network).
  - simpl. intuition discriminate.
  - simpl. auto.
Defined.

Lemma N_coauthor_attr_type c a :
  get (update a (N_coauthor_attr c)) "node_type" = Some (VStr "coauthor").
Proof. rewrite get_update. reflexivity. Qed.

Lemma Final_1_coauthor_attr_type c a :
  get (update a (Final_1_coauthor_attr c)) "node_type" = Some (VStr "coauthor").
Proof. rewrite get_update. reflexivity. Qed.

Lemma professor_attr_group p a :
  get (update a (CombinedShape.professor_attr p)) "group"
  = Some (VStr "professor").
Proof. rewrite get_update. reflexivity. Qed.

Lemma coauthor_attr_group c a :
  get (update a (CombinedShape.coauthor_attr c)) "group"
  = Some (VStr "coauthor").
Proof. rewrite get_update. reflexivity. Qed.

(** The kind of a node of an individual network, in the three scripts: a name
    of the coauthor list is a coauthor, also when it is the professor's own
    name (the later [add_node] overwrites the kind); otherwise the
    professor's name is a professor; no other name has a kind. *)
Theorem individual_network_kinds p n :
  let kind := if mem n (coauthor_names p) then Some (VStr "coauthor")
              else if String.eqb (name p) n then Some (VStr "professor")
              else None in
  option_map (fun G => node_type G n) (N.create_individual_network (Some p))
  = Some kind /\
  option_map (fun G => node_type G n) (Final_1.create_individual_network (Some p))
  = Some kind /\
  option_map (fun G => group G n) (Final_main.create_individual_network (Some p))
  = Some kind.
Proof.
  intros kind.
  rewrite N_individual, Final_1_individual, Final_main_individual.
  cbn [option_map]. unfold node_type, group, kind.
  rewrite (kind_build _ _ "node_type"
             SharedFacts.N_prof_attr_type N_coauthor_attr_type).
  rewrite (kind_build _ _ "node_type"
             SharedFacts.Final_1_prof_attr_type Final_1_coauthor_attr_type).
  rewrite (kind_build _ _ "group" professor_attr_group coauthor_attr_group).
  auto.
Qed.



End IndividualProperties.

(* ================================================================= *)
(** ** Further properties of the statistics *)

Module StatisticsFacts.
Import Py PyFacts NX NXFacts IndividualShape IndividualFacts StarShape StarFacts.






Section Returns.
Variables (cl bt : Graph -> dict Q) (eig : Graph -> nat -> Q -> result (dict Q)).
Variable fmt3 : Q -> string.
Variables (G : Graph) (professor_name : string).

#[local] Abbreviation ev := (eig G 1000%nat (1 # 1000000)%Q).

Hypothesis professor_node : In professor_name (nodes G).
Hypothesis cl_total : forall n, In n (nodes G) -> exists c, get (cl G) n = Some c.
Hypothesis bt_total : forall n, In n (nodes G) -> exists b, get (bt G) n = Some b.
Hypothesis typed : forall n, In n (nodes G) -> exists t, node_type G n = Some t.
Hypothesis eig_total :
  forall d, ev = Ok d -> forall n, In n (nodes G) -> exists e, get d n = Some e.


End Returns.

End StatisticsFacts.

Section StatisticsProperties.
Import Py PyFacts NX NXFacts IndividualShape IndividualFacts StarFacts
       StatisticsFacts.

(** [Final/1.py]: [analyze_network_statistics] reads
    [degree_centrality[professor_name]] before anything else is printed;
    when [professor_name] is not a node of [G] the call ends in
    [KeyError(professor_name)], whatever the centrality routines return. *)
Theorem Final_1_statistics_missing_professor cl bt eig fmt3 G professor_name :
  ~ In professor_name (nodes G) ->
  Final_1.analyze_network_statistics cl bt eig fmt3 G professor_name
  = Raise (KeyError professor_name).
Proof.
  intros H. unfold Final_1.analyze_network_statistics.
  assert (E : Final_1.lookup (degree_centrality G) professor_name
              = Raise (KeyError professor_name)).
  { unfold Final_1.lookup, degree_centrality.
    destruct (number_of_nodes G <=? 1)%nat; rewrite get_map_const;
      destruct (in_dec string_dec professor_name (nodes G)); tauto. }
  destruct (eig G 1000%nat (1 # 1000000)%Q); rewrite E; reflexivity.
Qed.

Lemma Final_1_statistics_missing_professor_witness :
  Final_1.analyze_network_statistics
    (fun _ => []) (fun _ => []) (fun _ _ _ => Ok []) (fun _ => "")
    (add_node empty "P" [("node_type", VStr "professor")]) "Q"
  = Raise (KeyError "Q").
Proof.
  apply Final_1_statistics_missing_professor. simpl. intuition discriminate.
Defined.



Lemma degree_le G n :
  wf G -> has_edge G n n = false -> In n (nodes G) ->
  (degree G n <= number_of_nodes G - 1)%nat.
Proof.
  intros W Hs Hn. rewrite degree_neighbors.
  assert (M : mem n (neighbors G n) = false).
  { apply mem_false. now rewrite In_neighbors, Hs. }
  rewrite M, Nat.add_0_r.
  assert (L : (List.length (n :: neighbors G n) <= List.length (nodes G))%nat).
  { apply NoDup_incl_length.
    - constructor; [now apply mem_false|].
      now apply CombinedFacts.NoDup_neighbors.
    - intros x [<-|Hx]; [assumption|].
      apply has_node_In. apply In_neighbors in Hx.
      apply (wf_closed _ W n x). rewrite has_edge_edge_attr in Hx.
      now destruct (edge_attr G n x). }
  simpl in L. unfold number_of_nodes. unfold nodes, keys in L.
  rewrite length_map in L. lia.
Qed.

Lemma built_no_self_loops profiles G :
  built profiles G -> no_self_coauthor profiles -> no_self_loops G.
Proof.
  intros B Hs. destruct B as [[p [Hp H]]|H]; cbn [In] in H.
  - apply In_fetched in Hp.
    rewrite N_individual, Final_main_individual, Final_1_individual in H.
    destruct H as [[= <-]|[[= <-]|[[= <-]|[]]]];
      apply individual_no_self_loops, Hs, Hp.
  - destruct H as [<-|[<-|[<-|[]]]].
    + rewrite SharedFacts.N_shape. now apply shared_no_self_loops.
    + rewrite SharedFacts.Final_1_shape. now apply shared_no_self_loops.
    + now apply CombinedFacts.combined_no_self_loops.
Qed.

(** Degree centrality stays within [0, 1] on every graph the builders
    produce, provided no profile lists its own name among its coauthors (a
    self-loop counts twice in the degree). *)
Theorem degree_centrality_bounds profiles G n q :
  built profiles G -> no_self_coauthor profiles ->
  get (degree_centrality G) n = Some q -> (0 <= q <= 1)%Q.
Proof.
  intros B Hs H.
  assert (Hn : In n (nodes G)).
  { unfold degree_centrality in H.
    destruct (number_of_nodes G <=? 1)%nat;
      rewrite get_map_const in H;
      destruct (in_dec string_dec n (nodes G)); congruence. }
  rewrite (degree_centrality_get G n Hn) in H. injection H as <-.
  destruct (number_of_nodes G <=? 1)%nat eqn:L.
  - split; discriminate.
  - apply Nat.leb_gt in L.
    pose proof (degree_le G n (built_wf profiles G B)
                  (built_no_self_loops profiles G B Hs n) Hn) as D.
    set (d := degree G n) in *. set (N := number_of_nodes G) in *.
    assert (E : inject_Z (Z.of_nat N) - 1 == inject_Z (Z.of_nat (N - 1))).
    { rewrite Nat2Z.inj_sub by lia. unfold Z.sub. rewrite inject_Z_plus.
      rewrite inject_Z_opp. change (inject_Z (Z.of_nat 1)) with 1%Q. ring. }
    rewrite E.
    assert (P : (0 < inject_Z (Z.of_nat (N - 1)))%Q).
    { change 0%Q with (inject_Z 0). rewrite <- Zlt_Qlt. lia. }
    split.
    + apply Qmult_le_0_compat.
      * change 0%Q with (inject_Z 0). rewrite <- Zle_Qle. lia.
      * apply Qlt_le_weak. unfold Qdiv. rewrite Qmult_1_l.
        now apply Qinv_lt_0_compat.
    + unfold Qdiv. rewrite Qmult_1_l.
      apply Qle_shift_div_r; [assumption|].
      rewrite Qmult_1_l. rewrite <- Zle_Qle. lia.
Qed.

Lemma degree_centrality_bounds_witness :
  exists q,
    get (degree_centrality
           (Final_main.create_combined_network
              [profile_of "P" ["A"]; profile_of "Q" ["A"]])) "A" = Some q /\
    (0 <= q <= 1)%Q.
Proof.
  eexists. split; [reflexivity|].
  apply (degree_centrality_bounds
           [profile_of "P" ["A"]; profile_of "Q" ["A"]]
           (Final_main.create_combined_network
              [profile_of "P" ["A"]; profile_of "Q" ["A"]]) "A").
  - right. simpl. auto.
  - intros p Hp. simpl in Hp.
    destruct Hp as [<-|[<-|[]]]; simpl; intuition discriminate.
  - reflexivity.
Defined.

End StatisticsProperties.

(* ================================================================= *)
(** ** Further properties of the shared-connections builder *)

Module SharedMore.
Import Py PyFacts NX NXFacts SharedShape SharedFacts.

Lemma fold_left_fetched {A} (f : A -> option Profile -> A) l a :
  (forall a, f a None = a) ->
  fold_left f l a = fold_left f (map Some (fetched l)) a.
Proof.
  intros H. revert a. induction l as [|[p|] l IH]; intros a; simpl.
  - reflexivity.
  - apply IH.
  - rewrite H. apply IH.
Qed.

Section Shape.
Variable prof_attr : Profile -> attrs.
Variable shared_attr : string -> attrs.
Hypothesis prof_attr_type :
  forall p a, get (update a (prof_attr p)) "node_type" = Some (VStr "professor").
Hypothesis shared_attr_type :
  forall c a, get (update a (shared_attr c)) "node_type"
              = Some (VStr "shared_coauthor").

Variable profiles : list (option Profile).
#[local] Abbreviation G := (build prof_attr shared_attr profiles).
#[local] Abbreviation pairs := (combinations2 (prof_coauthors profiles)).

Lemma weight_closed u v :
  weight G u v = match find (weighs u v) (rev pairs) with
                 | Some pr => Some (VInt (len (shared_of pr)))
                 | None => None
                 end.
Proof.
  rewrite build_eq, weight_links by apply wf_graph_after, wf_empty.
  now rewrite weight_G0.
Qed.

Lemma shared_coauthors_closed u v :
  shared_coauthors G u v = match find (weighs u v) (rev pairs) with
                           | Some pr => Some (VList (shared_of pr))
                           | None => None
                           end.
Proof.
  rewrite build_eq, shared_coauthors_links by apply wf_graph_after, wf_empty.
  now rewrite shared_coauthors_G0.
Qed.

Lemma has_edge_closed u v :
  has_edge G u v = existsb (touches u v) pairs.
Proof.
  rewrite build_eq, has_edge_links by apply wf_graph_after, wf_empty.
  rewrite has_edge_edge_attr, edge_attr_graph_after by apply wf_empty.
  reflexivity.
Qed.

Lemma has_node_closed n :
  has_node G n = existsb (fun pr => mem n (shared_of pr)) pairs
                 || mem n (professor_names profiles).
Proof.
  rewrite build_eq, has_node_links by apply pairs_names_in.
  now rewrite has_node_G0.
Qed.

Lemma found_pair u v pr :
  find (weighs u v) (rev pairs) = Some pr ->
  In pr pairs /\ shared_of pr <> [] /\ NoDup (shared_of pr) /\
  ((fst (fst pr) = u /\ fst (snd pr) = v) \/
   (fst (snd pr) = u /\ fst (fst pr) = v)).
Proof.
  intros F. apply find_some in F. destruct F as [Hin W].
  apply in_rev in Hin. apply weighs_true in W. destruct W as [Hne Hd].
  repeat split; try assumption.
  destruct pr as [x y]. apply In_combinations2 in Hin.
  apply NoDup_intersection.
  apply (NoDup_prof_coauthors_value profiles x). tauto.
Qed.

Lemma edge_attributes u v :
  (weight G u v = None <-> shared_coauthors G u v = None) /\
  (forall w, weight G u v = Some w ->
     exists s, shared_coauthors G u v = Some (VList s) /\
               w = VInt (len s) /\ s <> [] /\ NoDup s /\
               forall c, In c s ->
                 node_type G c = Some (VStr "shared_coauthor") /\
                 has_edge G u c = true /\ has_edge G v c = true).
Proof.
  rewrite weight_closed, shared_coauthors_closed.
  destruct (find (weighs u v) (rev pairs)) as [pr|] eqn:F.
  - split; [split; discriminate|].
    intros w [= <-]. exists (shared_of pr).
    destruct (found_pair u v pr F) as [Hin [Hne [Hnd Hd]]].
    repeat split; try assumption.
    + rewrite (node_type_build prof_attr shared_attr prof_attr_type
                 shared_attr_type).
      assert (E : existsb (fun pr => mem c (shared_of pr)) pairs = true).
      { apply existsb_exists. exists pr. split; [assumption|].
        now apply mem_In. }
      now rewrite E.
    + rewrite has_edge_closed. apply existsb_exists. exists pr.
      split; [assumption|]. apply touches_true. exists c.
      split; [assumption|]. right.
      destruct Hd as [[<- _]|[<- _]]; [left|right]; apply same_edge_refl.
    + rewrite has_edge_closed. apply existsb_exists. exists pr.
      split; [assumption|]. apply touches_true. exists c.
      split; [assumption|]. right.
      destruct Hd as [[_ <-]|[_ <-]]; [right|left]; apply same_edge_refl.
  - split; [tauto|discriminate].
Qed.

End Shape.

Lemma copies_agree profiles :
  let G := build N_prof_attr N_shared_attr profiles in
  let G' := build Final_1_prof_attr Final_1_shared_attr profiles in
  (forall n, has_node G n = has_node G' n) /\
  (forall n, node_type G n = node_type G' n) /\
  (forall u v, has_edge G u v = has_edge G' u v) /\
  (forall u v, weight G u v = weight G' u v) /\
  (forall u v, shared_coauthors G u v = shared_coauthors G' u v).
Proof.
  repeat split; intros.
  - now rewrite !has_node_closed.
  - rewrite (node_type_build _ _ N_prof_attr_type N_shared_attr_type).
    now rewrite (node_type_build _ _ Final_1_prof_attr_type
                   Final_1_shared_attr_type).
  - now rewrite !has_edge_closed.
  - now rewrite !weight_closed.
  - now rewrite !shared_coauthors_closed.
Qed.

End SharedMore.

Section SharedProperties.
Import Py PyFacts NX NXFacts SharedShape SharedFacts SharedMore.

(** A failed fetch is skipped: a [None] anywhere in the list of profiles
    changes nothing in the graph of [find_shared_connections] or of
    [create_combined_network]. *)
Theorem failed_fetches_skipped profiles :
  N.find_shared_connections profiles
  = N.find_shared_connections (map Some (fetched profiles)) /\
  Final_1.find_shared_connections profiles
  = Final_1.find_shared_connections (map Some (fetched profiles)) /\
  Final_main.create_combined_network profiles
  = Final_main.create_combined_network (map Some (fetched profiles)).
Proof.
  unfold N.find_shared_connections, Final_1.find_shared_connections,
    Final_main.create_combined_network.
  rewrite <- (fold_left_fetched N.collect) by reflexivity.
  rewrite <- (fold_left_fetched Final_1.collect) by reflexivity.
  rewrite <- (fold_left_fetched Final_main.add_profile) by reflexivity.
  auto.
Qed.

(** The two copies of [find_shared_connections] ([N.py], [Final/1.py]) build
    graphs with the same nodes, node kinds, edges, weights and lists of
    shared coauthors; they differ in the [title] attribute only. *)
Theorem shared_connections_copies_agree profiles :
  let G := N.find_shared_connections profiles in
  let G' := Final_1.find_shared_connections profiles in
  (forall n, has_node G n = has_node G' n) /\
  (forall n, node_type G n = node_type G' n) /\
  (forall u v, has_edge G u v = has_edge G' u v) /\
  (forall u v, weight G u v = weight G' u v) /\
  (forall u v, shared_coauthors G u v = shared_coauthors G' u v).
Proof. rewrite N_shape, Final_1_shape. apply copies_agree. Qed.

(** In the graph of [find_shared_connections], for every input: an edge has
    a weight exactly when it has a list of shared coauthors; the weight is
    the length of that list, which is non-empty and duplicate-free; and every
    name on it is a shared_coauthor node adjacent to both ends of the
    edge. *)
Theorem shared_connections_edge_attributes profiles builder u v :
  In builder [N.find_shared_connections; Final_1.find_shared_connections] ->
  let G := builder profiles in
  (weight G u v = None <-> shared_coauthors G u v = None) /\
  (forall w, weight G u v = Some w ->
     exists s, shared_coauthors G u v = Some (VList s) /\
               w = VInt (len s) /\ s <> [] /\ NoDup s /\
               forall c, In c s ->
                 node_type G c = Some (VStr "shared_coauthor") /\
                 has_edge G u c = true /\ has_edge G v c = true).
Proof.
  intros [<-|[<-|[]]] G; unfold G.
  - rewrite N_shape.
    apply (edge_attributes _ _ N_prof_attr_type N_shared_attr_type).
  - rewrite Final_1_shape.
    apply (edge_attributes _ _ Final_1_prof_attr_type Final_1_shared_attr_type).
Qed.

Lemma shared_connections_edge_attributes_witness :
  let G := N.find_shared_connections
             [profile_of "P" ["A"; "B"]; profile_of "Q" ["B"; "A"]] in
  (weight G "P" "Q" = None <-> shared_coauthors G "P" "Q" = None) /\
  (forall w, weight G "P" "Q" = Some w ->
     exists s, shared_coauthors G "P" "Q" = Some (VList s) /\
               w = VInt (len s) /\ s <> [] /\ NoDup s /\
               forall c, In c s ->
                 node_type G c = Some (VStr "shared_coauthor") /\
                 has_edge G "P" c = true /\ has_edge G "Q" c = true).
Proof.
  apply (shared_connections_edge_attributes
           [profile_of "P" ["A"; "B"]; profile_of "Q" ["B"; "A"]]
           N.find_shared_connections "P" "Q").
  simpl. auto.
Defined.

(** A shared coauthor who is not a professor is joined to every professor
    who lists it, and to nothing else; these are at least two. *)
Theorem shared_coauthor_neighbours profiles builder c :
  In builder [N.find_shared_connections; Final_1.find_shared_connections] ->
  NoDup (professor_names profiles) ->
  ~ In c (professor_names profiles) -> shared_name profiles c ->
  let G := builder profiles in
  node_type G c = Some (VStr "shared_coauthor") /\
  (forall v, has_edge G c v = true <->
             exists p, In p (fetched profiles) /\ name p = v /\
                       In c (coauthor_names p)) /\
  (2 <= degree G c)%nat.
Proof.
  intros Hb Hnd Hc Hs G.
  assert (K : forall pa sa,
             (forall p a, get (update a (pa p)) "node_type"
                          = Some (VStr "professor")) ->
             (forall c a, get (update a (sa c)) "node_type"
                          = Some (VStr "shared_coauthor")) ->
             let G := build pa sa profiles in
             node_type G c = Some (VStr "shared_coauthor") /\
             (forall v, has_edge G c v = true <->
                        exists p, In p (fetched profiles) /\ name p = v /\
                                  In c (coauthor_names p)) /\
             (2 <= degree G c)%nat).
  { intros pa sa Hpa Hsa G0.
    assert (E : forall v, has_edge G0 c v = true <->
                  exists p, In p (fetched profiles) /\ name p = v /\
                            In c (coauthor_names p)).
    { intros v. unfold G0. rewrite (shared_edges pa sa profiles Hnd).
      unfold linked. split.
      - intros [p [q [c' [Hp [Hq [Hne [H1 [H2 Hd]]]]]]]].
        destruct Hd as [[E1 _]|[[E1 _]|[E1 E2]]].
        + exfalso. apply Hc. rewrite E1. now apply in_map.
        + exfalso. apply Hc. rewrite E1. now apply in_map.
        + subst c'. exists p. auto.
      - intros [p [Hp [<- Hl]]].
        destruct Hs as [p1 [q1 [Hp1 [Hq1 [Hne [L1 L2]]]]]].
        destruct (string_dec (name p) (name p1)) as [Ee|Ee].
        + exists p, q1, c. repeat split; auto. congruence.
        + exists p, p1, c. repeat split; auto. }
    split; [|split; [exact E|]].
    - apply (shared_types pa sa Hpa Hsa profiles Hnd). left. auto.
    - rewrite StarFacts.degree_neighbors.
      assert (L : (1 < List.length (neighbors G0 c))%nat).
      { apply CombinedFacts.length_gt_1.
        - apply CombinedFacts.NoDup_neighbors, wf_build.
        - destruct Hs as [p1 [q1 [Hp1 [Hq1 [Hne [L1 L2]]]]]].
          exists (name p1), (name q1). split; [assumption|].
          rewrite !In_neighbors, !E.
          split; [exists p1|exists q1]; auto. }
      lia. }
  destruct Hb as [<-|[<-|[]]]; unfold G.
  - rewrite N_shape. apply K; [apply N_prof_attr_type|apply N_shared_attr_type].
  - rewrite Final_1_shape.
    apply K; [apply Final_1_prof_attr_type|apply Final_1_shared_attr_type].
Qed.

Lemma shared_coauthor_neighbours_witness :
  let profiles := [profile_of "P" ["A"; "B"]; profile_of "Q" ["B"; "C"]] in
  let G := N.find_shared_connections profiles in
  node_type G "B" = Some (VStr "shared_coauthor") /\
  (forall v, has_edge G "B" v = true <->
             exists p, In p (fetched profiles) /\ name p = v /\
                       In "B" (coauthor_names p)) /\
  (2 <= degree G "B")%nat.
Proof.
  intros profiles.
  apply (shared_coauthor_neighbours profiles N.find_shared_connections "B").
  - simpl. auto.
  - simpl. repeat constructor; simpl; intuition discriminate.
  - simpl. intuition discriminate.
  - exists (mkProfile "P" "" "" [mkCoauthor "A"; mkCoauthor "B"]),
           (mkProfile "Q" "" "" [mkCoauthor "B"; mkCoauthor "C"]).
    simpl. intuition discriminate.
Defined.

(** A professor without coauthors whose own name is not shared between two
    other professors stays an isolated professor node. *)
Theorem shared_connections_isolated_professor profiles builder p :
  In builder [N.find_shared_connections; Final_1.find_shared_connections] ->
  NoDup (professor_names profiles) ->
  In p (fetched profiles) -> coauthors p = [] ->
  ~ shared_name profiles (name p) ->
  let G := builder profiles in
  node_type G (name p) = Some (VStr "professor") /\
  neighbors G (name p) = [] /\ degree G (name p) = 0%nat.
Proof.
  intros Hb Hnd Hp He Hs G.
  assert (K : forall pa sa,
             (forall p a, get (update a (pa p)) "node_type"
                          = Some (VStr "professor")) ->
             (forall c a, get (update a (sa c)) "node_type"
                          = Some (VStr "shared_coauthor")) ->
             let G := build pa sa profiles in
             node_type G (name p) = Some (VStr "professor") /\
             neighbors G (name p) = [] /\ degree G (name p) = 0%nat).
  { intros pa sa Hpa Hsa G0.
    assert (N : neighbors G0 (name p) = []).
    { destruct (neighbors G0 (name p)) as [|v l] eqn:E; [reflexivity|].
      exfalso. assert (H : In v (neighbors G0 (name p))) by (rewrite E; now left).
      apply In_neighbors in H. unfold G0 in H.
      rewrite (shared_edges pa sa profiles Hnd) in H.
      destruct H as [p0 [q0 [c [Hp0 [Hq0 [Hne [H1 [H2 Hd]]]]]]]].
      assert (Ec : coauthor_names p = []) by (unfold coauthor_names; now rewrite He).
      destruct Hd as [[E1 _]|[[E1 _]|[E1 _]]].
      - apply (NoDup_map_inj name _ _ _ Hnd Hp Hp0) in E1. subst p0.
        rewrite Ec in H1. contradiction.
      - apply (NoDup_map_inj name _ _ _ Hnd Hp Hp0) in E1. subst p0.
        rewrite Ec in H1. contradiction.
      - apply Hs. exists p0, q0. rewrite E1. auto. }
    split; [|split; [exact N|]].
    - apply (shared_types pa sa Hpa Hsa profiles Hnd). right.
      repeat split; auto. now apply in_map.
    - rewrite StarFacts.degree_neighbors, N. reflexivity. }
  destruct Hb as [<-|[<-|[]]]; unfold G.
  - rewrite N_shape. apply K; [apply N_prof_attr_type|apply N_shared_attr_type].
  - rewrite Final_1_shape.
    apply K; [apply Final_1_prof_attr_type|apply Final_1_shared_attr_type].
Qed.

Lemma shared_connections_isolated_professor_witness :
  let G := N.find_shared_connections
             [profile_of "P" ["A"]; profile_of "Q" ["A"]; profile_of "R" []] in
  node_type G "R" = Some (VStr "professor") /\
  neighbors G "R" = [] /\ degree G "R" = 0%nat.
Proof.
  apply (shared_connections_isolated_professor
           [profile_of "P" ["A"]; profile_of "Q" ["A"]; profile_of "R" []]
           N.find_shared_connections (mkProfile "R" "" "" [])).
  - simpl. auto.
  - simpl. repeat constructor; simpl; intuition discriminate.
  - simpl. auto.
  - reflexivity.
  - intros [p [q [Hp [Hq [_ [H1 _]]]]]]. simpl in Hp.
    destruct Hp as [<-|[<-|[<-|[]]]]; simpl in H1; intuition discriminate.
Defined.

End SharedProperties.

(* ================================================================= *)
(** ** The combined builder on every input *)

Module CombinedMore.
Import Py PyFacts NX NXFacts CombinedShape CombinedFacts.

Lemma shared_same_edge G a b u v :
  wf G -> same_edge a b u v = true ->
  shared_coauthors G a b = shared_coauthors G u v.
Proof.
  intros W S. apply same_edge_true in S.
  destruct S as [[<- <-]|[<- <-]]; [reflexivity|].
  unfold shared_coauthors, edge_get. now rewrite (wf_sym _ W).
Qed.

Section Connect.
Variable node : string.
#[local] Abbreviation connect := (Final_main.connect node).

Lemma shared_connect G pr u v :
  wf G ->
  shared_coauthors (connect G pr) u v =
  if same_edge (fst pr) (snd pr) u v
  then appended (shared_coauthors G (fst pr) (snd pr)) node
  else shared_coauthors G u v.
Proof.
  destruct pr as [a b]; cbn [fst snd]. intros W.
  unfold Final_main.connect, shared_coauthors.
  destruct (has_edge G a b) eqn:E.
  - set (G' := edge_set G a b "weight" _).
    assert (W' : wf G') by now apply wf_edge_set.
    assert (E' : has_edge G' a b = true)
      by (unfold G'; now rewrite has_edge_edge_set).
    assert (R : forall x y, edge_get G' x y "shared_coauthors"
                            = edge_get G x y "shared_coauthors").
    { intros x y. unfold G'. rewrite edge_get_edge_set by assumption.
      now destruct (has_edge G a b && same_edge a b x y). }
    rewrite R.
    destruct (same_edge a b u v) eqn:S.
    + pose proof (shared_same_edge G a b u v W S) as Q.
      unfold shared_coauthors in Q.
      destruct (edge_get G a b "shared_coauthors") as [[s|z|l]|] eqn:Ea;
        cbn [appended];
        rewrite ?edge_get_edge_set, ?E', ?S, ?R by assumption;
        cbn [andb]; rewrite ?String.eqb_refl; congruence.
    + destruct (edge_get G a b "shared_coauthors") as [[s|z|l]|] eqn:Ea;
        rewrite ?edge_get_edge_set, ?E', ?S, ?R by assumption;
        cbn [andb]; reflexivity.
  - unfold edge_get at 1. rewrite edge_attr_add_edge by assumption.
    destruct (same_edge a b u v) eqn:S; [|reflexivity].
    rewrite get_update. cbn.
    rewrite has_edge_edge_attr in E. unfold edge_get.
    destruct (edge_attr G a b); [discriminate|]. reflexivity.
Qed.

Lemma iter_appended_succ k o :
  Nat.iter k (fun o => appended o node) (appended o node)
  = Nat.iter (S k) (fun o => appended o node) o.
Proof.
  induction k as [|k IH]; [reflexivity|].
  simpl in *. now rewrite IH.
Qed.

Lemma shared_connect_all L G u v :
  wf G ->
  shared_coauthors (fold_left connect L G) u v
  = Nat.iter (hits u v L) (fun o => appended o node) (shared_coauthors G u v).
Proof.
  revert G. induction L as [|pr L IH]; intros G W; cbn [fold_left].
  - reflexivity.
  - rewrite IH, shared_connect by auto using wf_connect.
    unfold hits. cbn [filter].
    destruct (same_edge (fst pr) (snd pr) u v) eqn:S; cbn [List.length].
    + rewrite (shared_same_edge G _ _ u v W S). apply iter_appended_succ.
    + reflexivity.
Qed.

End Connect.

Lemma shared_marked G node u v :
  shared_coauthors (marked G node) u v = shared_coauthors G u v.
Proof. unfold shared_coauthors, edge_get. now rewrite edge_attr_marked. Qed.

Lemma shared_reclassify G node u v :
  wf G ->
  shared_coauthors (Final_main.reclassify G node) u v =
  if pair_hit G node u v then appended (shared_coauthors G u v) node
  else shared_coauthors G u v.
Proof.
  intros W. pose proof (hits_professors G node W u v) as H.
  rewrite reclassify_eq. destruct (fires G node).
  - rewrite shared_connect_all, shared_marked, H by now apply wf_marked.
    now destruct (pair_hit G node u v).
  - now destruct (pair_hit G node u v).
Qed.

Section SecondLoop.
Variable G1 : Graph.
Hypothesis W1 : wf G1.
Hypothesis no_lists : forall u v, shared_coauthors G1 u v = None.

#[local] Abbreviation lists := (lists G1).

Lemma lists_step G done x :
  inv G1 G done -> ~ In x done -> lists G done ->
  lists (Final_main.reclassify G x) (done ++ [x]).
Proof.
  intros I F K u v.
  rewrite shared_reclassify by apply I.
  rewrite (step_pair_hit G1 W1 G done x I F), K, total_snoc.
  unfold sharers. rewrite filter_app. cbn [filter].
  destruct (pair_hit G1 x u v).
  - replace (0 <? total G1 done u v + 1)%nat with true
      by (symmetry; apply Nat.ltb_lt; lia).
    unfold total.
    destruct (filter (fun x0 => pair_hit G1 x0 u v) done); reflexivity.
  - now rewrite Nat.add_0_r, app_nil_r.
Qed.

Lemma lists_loop todo done G :
  NoDup (done ++ todo) -> inv G1 G done -> lists G done ->
  lists (fold_left Final_main.reclassify todo G) (done ++ todo).
Proof.
  revert done G. induction todo as [|x todo IH]; intros done G Hnd I K.
  - now rewrite app_nil_r.
  - cbn [fold_left].
    assert (F : ~ In x done).
    { apply NoDup_remove_2 in Hnd. rewrite in_app_iff in Hnd. tauto. }
    replace (done ++ x :: todo) with ((done ++ [x]) ++ todo)
      by now rewrite <- app_assoc.
    apply IH.
    + now rewrite <- app_assoc.
    + now apply inv_step.
    + now apply lists_step.
Qed.

Lemma lists_final :
  lists (fold_left Final_main.reclassify (nodes G1) G1) (nodes G1).
Proof.
  apply (lists_loop (nodes G1) [] G1).
  - apply W1.
  - now apply inv_start.
  - intros u v. rewrite no_lists. reflexivity.
Qed.

End SecondLoop.


Section Combined.
Variable profiles : list (option Profile).
#[local] Abbreviation G1 := (merged profiles).
#[local] Abbreviation Gc := (Final_main.create_combined_network profiles).
#[local] Abbreviation listed := (listed_by profiles).

Lemma shared_merged u v : shared_coauthors G1 u v = None.
Proof.
  unfold shared_coauthors, edge_get. rewrite edge_attr_merged.
  now destruct (direct profiles u v).
Qed.

Lemma shared_combined u v :
  shared_coauthors Gc u v =
  if (0 <? total G1 (nodes G1) u v)%nat
  then Some (VList (sharers G1 (nodes G1) u v)) else None.
Proof.
  apply (lists_final G1 (wf_merged profiles) shared_merged).
Qed.

Lemma wnum_merged u v : wnum G1 u v = if direct profiles u v then 1 else 0.
Proof.
  unfold wnum. rewrite has_edge_merged, weight_merged. reflexivity.
Qed.

Lemma weight_combined_closed u v :
  weight Gc u v =
  if (0 <? total G1 (nodes G1) u v)%nat
  then Some (VInt ((if direct profiles u v then 1 else 0)
                   + Z.of_nat (total G1 (nodes G1) u v)))
  else None.
Proof.
  rewrite (inv_weight _ _ _ (combined_inv profiles)).
  now rewrite wnum_merged, weight_merged.
Qed.

Lemma has_edge_combined_closed u v :
  has_edge Gc u v = direct profiles u v || (0 <? total G1 (nodes G1) u v)%nat.
Proof.
  rewrite (inv_edges _ _ _ (combined_inv profiles)).
  now rewrite has_edge_merged.
Qed.

Lemma direct_listed u v :
  direct profiles u v = true <-> listed v u \/ listed u v.
Proof.
  rewrite direct_true. unfold listed_by. split.
  - intros [p [c [Hp [Hc [[<- <-]|[<- <-]]]]]]; [left|right]; eauto.
  - intros [[p [Hp [<- Hc]]]|[p [Hp [<- Hc]]]]; exists p; eauto 6.
Qed.

Lemma listed_not_professor x u :
  ~ In x (professor_names profiles) ->
  direct profiles x u = true <-> listed x u.
Proof.
  intros Hx. rewrite direct_listed. split; [|tauto].
  intros [[p [Hp [E _]]]|H]; [|assumption].
  exfalso. apply Hx. rewrite <- E. now apply in_map.
Qed.

Lemma listed_professor x u : listed x u -> In u (professor_names profiles).
Proof. intros [p [Hp [<- _]]]. now apply in_map. Qed.

Lemma professors_of_merged x a :
  ~ In x (professor_names profiles) ->
  In a (professors_of G1 x) <-> listed x a.
Proof.
  intros Hx. rewrite In_professors_of, has_edge_merged, is_str_true.
  rewrite group_merged_professor, listed_not_professor by assumption.
  split; [tauto|]. intros H. split; [assumption|].
  now apply (listed_professor x).
Qed.

Lemma coauthor_somewhere_listed x :
  coauthor_somewhere profiles x = true <-> exists u, listed x u.
Proof.
  rewrite coauthor_somewhere_true. unfold listed_by. split.
  - intros [p [Hp Hc]]. eauto.
  - intros [u [p [Hp [_ Hc]]]]. eauto.
Qed.

Lemma fires_listed x :
  fires G1 x = true <->
  ~ In x (professor_names profiles) /\
  exists u v, u <> v /\ listed x u /\ listed x v.
Proof.
  unfold fires. rewrite andb_true_iff, is_str_true, group_merged_coauthor.
  rewrite Nat.ltb_lt.
  rewrite (length_gt_1 _ (NoDup_professors_of G1 x (wf_merged profiles))).
  split.
  - intros [[Hx _] [a [b [Hab [Ha Hb]]]]]. split; [assumption|].
    apply professors_of_merged in Ha, Hb; try assumption. eauto.
  - intros [Hx [u [v [Huv [Hu Hv]]]]]. repeat split; try assumption.
    + apply coauthor_somewhere_listed. eauto.
    + exists u, v. rewrite !professors_of_merged by assumption. auto.
Qed.

Lemma pair_hit_listed x u v :
  pair_hit G1 x u v = true <->
  ~ In x (professor_names profiles) /\ u <> v /\ listed x u /\ listed x v.
Proof.
  unfold pair_hit. rewrite !andb_true_iff, negb_true_iff, !mem_In.
  rewrite String.eqb_neq, fires_listed. split.
  - intros [[[[Hx _] Huv] Hu] Hv].
    apply professors_of_merged in Hu, Hv; auto.
  - intros [Hx [Huv [Hu Hv]]].
    rewrite !professors_of_merged by assumption. repeat split; eauto.
Qed.

Lemma fires_node x : fires G1 x = true -> has_node G1 x = true.
Proof.
  intros F. apply fires_listed in F. destruct F as [_ [u [_ [_ [Hu _]]]]].
  rewrite has_node_merged. apply orb_true_iff. right.
  apply coauthor_somewhere_listed. eauto.
Qed.

Lemma total_listed u v :
  (0 < total G1 (nodes G1) u v)%nat <->
  u <> v /\ exists x, ~ In x (professor_names profiles) /\
                      listed x u /\ listed x v.
Proof.
  split.
  - intros H. apply total_positive in H. destruct H as [x [_ H]].
    apply pair_hit_listed in H. destruct H as [Hx [Huv H]]. eauto.
  - intros [Huv [x [Hx [Hu Hv]]]].
    assert (P : pair_hit G1 x u v = true) by (apply pair_hit_listed; auto).
    assert (In x (sharers G1 (nodes G1) u v)).
    { apply filter_In. split; [|assumption].
      apply has_node_In, fires_node.
      apply fires_listed. split; eauto. }
    unfold total. unfold sharers in H.
    destruct (filter _ (nodes G1)); [contradiction|simpl; lia].
Qed.

Lemma group_combined_closed n :
  group Gc n =
  if fires G1 n then Some (VStr "shared_coauthor")
  else if mem n (professor_names profiles) then Some (VStr "professor")
  else if coauthor_somewhere profiles n then Some (VStr "coauthor")
  else None.
Proof.
  rewrite combined_group, group_merged.
  destruct (fires G1 n) eqn:F; [|reflexivity].
  now rewrite (fires_node n F).
Qed.

Lemma professors_of_combined n :
  ~ In n (professor_names profiles) ->
  Permutation (professors_of Gc n) (professors_of G1 n).
Proof.
  intros Hn. apply NoDup_Permutation.
  - apply NoDup_professors_of, wf_combined.
  - apply NoDup_professors_of, wf_merged.
  - intros a. rewrite !In_professors_of, has_edge_combined_closed,
      has_edge_merged.
    assert (T : (0 <? total G1 (nodes G1) n a)%nat = false).
    { apply Nat.ltb_ge. destruct (total G1 (nodes G1) n a) eqn:E; [lia|].
      exfalso. assert (H : (0 < total G1 (nodes G1) n a)%nat) by lia.
      apply total_listed in H. destruct H as [_ [x [_ [Hx _]]]].
      apply Hn. now apply (listed_professor x). }
    rewrite T, orb_false_r.
    assert (P : is_str (group Gc a) "professor"
                = is_str (group G1 a) "professor").
    { rewrite group_combined_closed, group_merged.
      destruct (fires G1 a) eqn:F; [|reflexivity].
      apply fires_listed in F. destruct F as [Ha _].
      apply mem_false in Ha. rewrite Ha.
      now destruct (coauthor_somewhere profiles a). }
    now rewrite P.
Qed.

End Combined.

End CombinedMore.

Module CombinedLists.
Import Py PyFacts NX NXFacts CombinedShape CombinedFacts CombinedMore.

Section Lists.
Variable profiles : list (option Profile).
#[local] Abbreviation G1 := (merged profiles).
#[local] Abbreviation Gc := (Final_main.create_combined_network profiles).
#[local] Abbreviation listed := (listed_by profiles).

Lemma weight_and_list u v :
  (weight Gc u v = None <-> shared_coauthors Gc u v = None) /\
  (forall w, weight Gc u v = Some w ->
     exists l, shared_coauthors Gc u v = Some (VList l) /\
               l <> [] /\ NoDup l /\ u <> v /\
               (forall x, In x l <->
                          ~ In x (professor_names profiles) /\
                          listed x u /\ listed x v) /\
               w = VInt (len l + if direct profiles u v then 1 else 0)) /\
  (direct profiles u v = true <-> listed v u \/ listed u v).
Proof.
  rewrite weight_combined_closed, shared_combined.
  split; [|split; [|apply direct_listed]].
  - destruct (0 <? total G1 (nodes G1) u v)%nat; split; congruence.
  - intros w.
    destruct (0 <? total G1 (nodes G1) u v)%nat eqn:T; [|discriminate].
    intros [= <-]. exists (sharers G1 (nodes G1) u v).
    apply Nat.ltb_lt in T.
    assert (I : forall x, In x (sharers G1 (nodes G1) u v) <->
                  ~ In x (professor_names profiles) /\
                  listed x u /\ listed x v).
    { intros x. unfold sharers. rewrite filter_In, pair_hit_listed. split.
      - tauto.
      - intros [Hx [Hu Hv]].
        apply total_listed in T. destruct T as [Huv _].
        repeat split; auto.
        apply has_node_In, fires_node, fires_listed. split; eauto. }
    split; [reflexivity|]. split; [|split; [|split; [|split; [exact I|]]]].
    + unfold total in T. unfold sharers.
      destruct (filter _ (nodes G1)); [simpl in T; lia|discriminate].
    + apply NoDup_filter, (wf_merged profiles).
    + apply total_listed in T. tauto.
    + unfold total, sharers, len. apply f_equal. lia.
Qed.

End Lists.

End CombinedLists.

Section CombinedProperties.
Import Py PyFacts NX NXFacts CombinedShape CombinedFacts CombinedMore.

Variable profiles : list (option Profile).
#[local] Abbreviation G1 := (merged profiles).
#[local] Abbreviation Gc := (Final_main.create_combined_network profiles).
#[local] Abbreviation listed := (listed_by profiles).

(** The nodes of the combined network and their groups, for every input: the
    nodes are the professors and the names they list; a professor name is a
    professor; a listed name that is not a professor is a shared_coauthor
    when two professors of different names list it and a coauthor otherwise;
    so every node carries one of the three groups. *)
Theorem combined_network_groups :
  (forall n, has_node Gc n = true <->
             In n (professor_names profiles) \/ exists u, listed n u) /\
  (forall n, group Gc n = Some (VStr "professor") <->
             In n (professor_names profiles)) /\
  (forall n, group Gc n = Some (VStr "shared_coauthor") <->
             ~ In n (professor_names profiles) /\
             exists u v, u <> v /\ listed n u /\ listed n v) /\
  (forall n, group Gc n = Some (VStr "coauthor") <->
             ~ In n (professor_names profiles) /\ (exists u, listed n u) /\
             ~ exists u v, u <> v /\ listed n u /\ listed n v) /\
  (forall n, has_node Gc n = true ->
             exists g, group Gc n = Some (VStr g) /\
                       In g ["professor"; "coauthor"; "shared_coauthor"]).
Proof.
  assert (N : forall n, has_node Gc n = true <->
                In n (professor_names profiles) \/ exists u, listed n u).
  { intros n. rewrite has_node_combined. unfold listed_by. split.
    - intros [H|[p [Hp Hc]]]; eauto 7.
    - intros [H|[u [p [Hp [_ Hc]]]]]; eauto. }
  assert (C : forall n,
             group Gc n =
             if fires G1 n then Some (VStr "shared_coauthor")
             else if mem n (professor_names profiles)
                  then Some (VStr "professor")
                  else if coauthor_somewhere profiles n
                       then Some (VStr "coauthor") else None)
    by apply group_combined_closed.
  assert (F : forall n, fires G1 n = true <->
                ~ In n (professor_names profiles) /\
                exists u v, u <> v /\ listed n u /\ listed n v)
    by apply fires_listed.
  split; [exact N|]. split; [|split; [|split]].
  - intros n. rewrite C. destruct (fires G1 n) eqn:Fn.
    + apply F in Fn. split; [discriminate|tauto].
    + destruct (mem n (professor_names profiles)) eqn:M.
      * apply mem_In in M. tauto.
      * apply mem_false in M.
        destruct (coauthor_somewhere profiles n); split;
          try discriminate; tauto.
  - intros n. rewrite C. pose proof (F n) as Fn. destruct (fires G1 n).
    + split; [intros _; now apply Fn|reflexivity].
    + split; [|intros H; apply Fn in H; discriminate].
      destruct (mem n (professor_names profiles));
        [|destruct (coauthor_somewhere profiles n)]; discriminate.
  - intros n. rewrite C.
    destruct (fires G1 n) eqn:Fn.
    + split; [discriminate|]. intros [Hn [_ H]]. destruct H.
      now apply F.
    + destruct (mem n (professor_names profiles)) eqn:M.
      * apply mem_In in M. split; [discriminate|tauto].
      * apply mem_false in M.
        destruct (coauthor_somewhere profiles n) eqn:S.
        -- apply coauthor_somewhere_listed in S.
           split; [|reflexivity]. intros _. repeat split; auto.
           intros H. assert (fires G1 n = true) by (apply F; auto).
           congruence.
        -- split; [discriminate|]. intros [_ [H _]].
           apply coauthor_somewhere_listed in H. congruence.
  - intros n Hn. rewrite C.
    destruct (fires G1 n); [exists "shared_coauthor"; simpl; auto|].
    destruct (mem n (professor_names profiles)) eqn:M;
      [exists "professor"; simpl; auto|].
    destruct (coauthor_somewhere profiles n) eqn:S;
      [exists "coauthor"; simpl; auto|].
    exfalso. apply N in Hn. apply mem_false in M.
    destruct Hn as [H|H]; [tauto|].
    apply coauthor_somewhere_listed in H. congruence.
Qed.

(** In the combined network, for every input, a node is a shared_coauthor
    exactly when it is not a professor and at least two of its neighbours
    are professors. *)
Theorem combined_shared_iff_two_professors n :
  group Gc n = Some (VStr "shared_coauthor") <->
  group Gc n <> Some (VStr "professor") /\
  (2 <= List.length (professors_of Gc n))%nat.
Proof.
  rewrite group_combined_closed.
  destruct (fires G1 n) eqn:F.
  - split; [|reflexivity]. intros _. split; [discriminate|].
    pose proof F as F'. apply fires_listed in F'. destruct F' as [Hn _].
    rewrite (Permutation_length (professors_of_combined profiles n Hn)).
    unfold fires in F. apply andb_true_iff in F. destruct F as [_ F].
    apply Nat.ltb_lt in F. lia.
  - destruct (mem n (professor_names profiles)) eqn:M.
    + split; [discriminate|]. intros [H _]. congruence.
    + apply mem_false in M. split.
      * destruct (coauthor_somewhere profiles n); discriminate.
      * intros [_ L]. exfalso.
        rewrite (Permutation_length (professors_of_combined profiles n M)) in L.
        assert (F' : fires G1 n = true); [|congruence].
        apply fires_listed. split; [assumption|].
        apply (length_gt_1 _ (NoDup_professors_of G1 n (wf_merged profiles)))
          in L.
        destruct L as [a [b [Hab [Ha Hb]]]].
        apply professors_of_merged in Ha, Hb; eauto.
Qed.

(** The edges of the combined network, for every input: [u] and [v] are
    adjacent exactly when one of them lists the other as a coauthor, or they
    are professors of different names who both list a name that is not a
    professor. *)
Theorem combined_network_edges u v :
  has_edge Gc u v = true <->
  listed v u \/ listed u v \/
  (u <> v /\ exists x, ~ In x (professor_names profiles) /\
                       listed x u /\ listed x v).
Proof.
  rewrite has_edge_combined_closed, orb_true_iff, direct_listed.
  rewrite Nat.ltb_lt, total_listed. tauto.
Qed.

(** Weights and lists of shared coauthors in the combined network, for every
    input: an edge has a weight exactly when it has a list of shared
    coauthors; the list is duplicate-free and holds the names that are not
    professors and are listed by both ends; the weight is the length of the
    list, plus one when one end lists the other as a coauthor (the edge then
    existed before the first shared coauthor was counted). *)
Theorem combined_weight_counts_shared u v :
  (weight Gc u v = None <-> shared_coauthors Gc u v = None) /\
  (forall w, weight Gc u v = Some w ->
     exists l, shared_coauthors Gc u v = Some (VList l) /\
               l <> [] /\ NoDup l /\ u <> v /\
               (forall x, In x l <->
                          ~ In x (professor_names profiles) /\
                          listed x u /\ listed x v) /\
               w = VInt (len l + if direct profiles u v then 1 else 0)) /\
  (direct profiles u v = true <-> listed v u \/ listed u v).
Proof. apply CombinedLists.weight_and_list. Qed.

(** With professor names that are pairwise distinct and occur in no coauthor
    list, the combined builder and the shared-connections builder record the
    same shared coauthors on the edge between two professors, up to order:
    the intersection of the two coauthor sets. *)
Theorem combined_shared_lists_agree p q :
  NoDup (professor_names profiles) -> professors_apart profiles ->
  In p (fetched profiles) -> In q (fetched profiles) -> name p <> name q ->
  let Gs := N.find_shared_connections profiles in
  (common p q = [] ->
   shared_coauthors Gc (name p) (name q) = None /\
   shared_coauthors Gs (name p) (name q) = None) /\
  (common p q <> [] ->
   exists l l',
     shared_coauthors Gc (name p) (name q) = Some (VList l) /\
     shared_coauthors Gs (name p) (name q) = Some (VList l') /\
     Permutation l (common p q) /\ Permutation l' (common p q)).
Proof.
  intros Hnd Ha Hp Hq Hne Gs.
  assert (L : forall x, listed x (name p) <-> In x (coauthor_names p)).
  { intros x. unfold listed_by. split.
    - intros [p' [Hp' [E Hx]]].
      apply (NoDup_map_inj name _ _ _ Hnd Hp' Hp) in E. now subst.
    - eauto. }
  assert (L' : forall x, listed x (name q) <-> In x (coauthor_names q)).
  { intros x. unfold listed_by. split.
    - intros [p' [Hp' [E Hx]]].
      apply (NoDup_map_inj name _ _ _ Hnd Hp' Hq) in E. now subst.
    - eauto. }
  assert (Wc : weight Gc (name p) (name q)
               = if truthy (common p q) then Some (VInt (len (common p q)))
                 else None)
    by now apply weight_combined.
  assert (Ws : weight Gs (name p) (name q)
               = if truthy (common p q) then Some (VInt (len (common p q)))
                 else None)
    by now apply weight_shared.
  pose proof (CombinedLists.weight_and_list profiles (name p) (name q))
    as [C1 [C2 _]].
  pose proof (SharedMore.edge_attributes _ _ SharedFacts.N_prof_attr_type
                SharedFacts.N_shared_attr_type profiles (name p) (name q))
    as [S1 S2].
  rewrite <- SharedFacts.N_shape in S1, S2. fold Gs in S1, S2.
  split.
  - intros E. rewrite E in Wc, Ws. simpl in Wc, Ws. split.
    + now apply C1.
    + now apply S1.
  - intros E. destruct (common p q) as [|c0 cs] eqn:Ec; [congruence|].
    simpl in Wc, Ws.
    destruct (C2 _ Wc) as [l [Hl [_ [Hnl [_ [Il _]]]]]].
    assert (Dp : direct profiles (name p) (name q) = false)
      by now apply direct_professors.
    exists l.
    assert (Pl : Permutation l (c0 :: cs)).
    { apply NoDup_Permutation; [assumption| |].
      - rewrite <- Ec. apply NoDup_intersection, NoDup_set_of.
      - intros x. rewrite Il, L, L', <- Ec. unfold common.
        rewrite In_intersection, !In_set_of. split; [tauto|].
        intros [H1 H2]. repeat split; auto.
        now apply (apart_coauthor profiles Ha p). }
    unfold Gs in Ws |- *. rewrite SharedFacts.N_shape in Ws |- *.
    destruct (SharedFacts.shared_coauthors_defined _ _ _ _ _ _ Ws) as [s Hs].
    exists s. repeat split; try assumption.
    destruct (SharedFacts.shared_coauthors_build _ _ _ _ _ _ Hs)
      as [x [y [s' [Hx [Hy [Hxy [E1 [E2 [[= <-] Ps]]]]]]]]].
    apply (SharedFacts.In_prof_coauthors profiles Hnd) in Hx, Hy.
    destruct Hx as [p' [Hp' ->]], Hy as [q' [Hq' ->]]. simpl in E1, E2.
    apply (NoDup_map_inj name _ _ _ Hnd Hp Hp') in E1.
    apply (NoDup_map_inj name _ _ _ Hnd Hq Hq') in E2. subst p' q'.
    rewrite <- Ec. exact Ps.
Qed.

End CombinedProperties.

Lemma combined_shared_lists_agree_witness :
  let profiles := [profile_of "P" ["A"; "B"]; profile_of "Q" ["B"; "C"]] in
  let Gc := Final_main.create_combined_network profiles in
  let Gs := N.find_shared_connections profiles in
  exists l l',
    shared_coauthors Gc "P" "Q" = Some (VList l) /\
    shared_coauthors Gs "P" "Q" = Some (VList l') /\
    Permutation l ["B"] /\ Permutation l' ["B"].
Proof.
  intros profiles Gc Gs.
  refine (proj2 (combined_shared_lists_agree profiles
                   (mkProfile "P" "" "" [mkCoauthor "A"; mkCoauthor "B"])
                   (mkProfile "Q" "" "" [mkCoauthor "B"; mkCoauthor "C"])
                   _ _ _ _ _) _).
  - simpl. repeat constructor; simpl; intuition discriminate.
  - intros p q Hp Hq. simpl in Hp, Hq.
    destruct Hp as [<-|[<-|[]]], Hq as [<-|[<-|[]]]; simpl;
      intuition discriminate.
  - simpl. auto.
  - simpl. auto.
  - discriminate.
  - discriminate.
Defined.

(* ================================================================= *)
(** ** Facts about the reporting helpers *)

Module ReportFacts.
Import Py PyFacts NX NXFacts Report.

Lemma for_each_map {A B} (f : A -> outcome B) (g : A -> B) l :
  (forall x, In x l -> f x = Done (g x)) -> for_each f l = Done (map g l).
Proof.
  induction l as [|x l IH]; intros H; simpl; [reflexivity|].
  rewrite (H x) by now left. simpl. rewrite IH by (intros; apply H; now right).
  reflexivity.
Qed.

Lemma value_eqb_is_str t s :
  value_eqb t (VStr s) = is_str (Some t) s.
Proof. destruct t; reflexivity. Qed.

Lemma node_item_get G n key t :
  node_get G n key = Some t -> node_item G n key = Done t.
Proof.
  unfold node_get, node_attr, node_item, item.
  destruct (get (_node G) n) as [a|]; [|discriminate]. simpl.
  now intros ->.
Qed.

Lemma typed_professor_kind G n t :
  node_type G n = Some t -> typed_professor G n = Done (is_professor G n).
Proof.
  intros H. unfold typed_professor, is_professor.
  rewrite (node_item_get G n "node_type" t H), H. simpl.
  now rewrite value_eqb_is_str.
Qed.

Lemma edge_item_attr G u v a :
  edge_attr G u v = Some a -> edge_item G u v = Done a.
Proof.
  unfold edge_attr, edge_item, item.
  destruct (get (_adj G) u) as [nb|]; [|discriminate]. simpl.
  now intros ->.
Qed.

Lemma In_edges_attr G u v :
  wf G -> In (u, v) (edges G) -> exists a, edge_attr G u v = Some a.
Proof.
  intros W H. apply In_edges_has_edge in H; [|assumption].
  rewrite has_edge_edge_attr in H. destruct (edge_attr G u v); eauto.
  discriminate.
Qed.

Lemma In_edges_nodes G u v :
  wf G -> In (u, v) (edges G) -> In u (nodes G) /\ In v (nodes G).
Proof.
  intros W H. destruct (In_edges_attr G u v W H) as [a E].
  rewrite <- !has_node_In. apply (wf_edge_nodes G u v W). congruence.
Qed.

Lemma no_nodes_no_edges G :
  wf G -> number_of_nodes G = 0%nat -> edges G = [].
Proof.
  intros W H. unfold number_of_nodes in H.
  destruct (_node G) eqn:E; [|discriminate].
  pose proof (wf_keys _ W) as K. rewrite E in K. unfold edges.
  destruct (_adj G); [reflexivity|discriminate].
Qed.

Lemma edges_nil_has_edge G :
  wf G -> edges G = [] <-> forall u v, has_edge G u v = false.
Proof.
  intros W. split.
  - intros E u v. destruct (has_edge G u v) eqn:H; [|reflexivity].
    apply has_edge_In_edges in H; [|assumption]. rewrite E in H.
    destruct H as [[]|[]].
  - intros H. destruct (edges G) as [|[u v] l] eqn:E; [reflexivity|].
    assert (In (u, v) (edges G)) by (rewrite E; now left).
    apply In_edges_has_edge in H0; [|assumption]. now rewrite H in H0.
Qed.

(** *** pyvis *)

Lemma get_nodes_add_nodes (drawn : list Pyvis.Node) net :
  NoDup (map Pyvis.n_id drawn) ->
  (forall n, In n drawn -> ~ In (Pyvis.n_id n) (Pyvis.get_nodes net)) ->
  Pyvis.net_nodes (fold_left Pyvis.add_node drawn net)
  = Pyvis.net_nodes net ++ drawn /\
  Pyvis.net_edges (fold_left Pyvis.add_node drawn net) = Pyvis.net_edges net.
Proof.
  revert net. induction drawn as [|n drawn IH]; intros net ND H.
  - simpl. now rewrite app_nil_r.
  - cbn [fold_left]. inversion ND as [|? ? Hn ND']; subst.
    assert (E : Pyvis.add_node net n
                = Pyvis.mkNetwork (Pyvis.net_nodes net ++ [n])
                    (Pyvis.net_edges net)).
    { unfold Pyvis.add_node.
      rewrite (proj2 (mem_false _ _) (H n (or_introl eq_refl))).
      reflexivity. }
    rewrite E. destruct (IH (Pyvis.mkNetwork (Pyvis.net_nodes net ++ [n])
                               (Pyvis.net_edges net)) ND') as [I1 I2].
    + intros m Hm. unfold Pyvis.get_nodes. cbn [Pyvis.net_nodes].
      rewrite map_app, in_app_iff. intros [K|[K|[]]].
      * apply (H m (or_intror Hm) K).
      * apply Hn. rewrite K. now apply in_map.
    + rewrite I1, I2. cbn [Pyvis.net_nodes Pyvis.net_edges].
      now rewrite <- app_assoc.
Qed.

(** adding the edges of a simple graph, each between two nodes of the
    network: nothing fails and nothing is dropped *)
Lemma add_edges_all {A} (mk : A -> Pyvis.Edge) (f : Pyvis.Network -> A -> outcome Pyvis.Network)
      (l : list A) net :
  (forall net x, In x l -> f net x = Pyvis.add_edge net (mk x)) ->
  (forall x, In x l -> In (Pyvis.e_from (mk x)) (Pyvis.get_nodes net) /\
                       In (Pyvis.e_to (mk x)) (Pyvis.get_nodes net)) ->
  NoDup (map (fun x => (Pyvis.e_from (mk x), Pyvis.e_to (mk x))) l) ->
  (forall x y, In x l -> In y l ->
     Pyvis.e_from (mk x) = Pyvis.e_to (mk y) ->
     Pyvis.e_to (mk x) = Pyvis.e_from (mk y) ->
     Pyvis.e_from (mk x) = Pyvis.e_to (mk x)) ->
  (forall x e, In x l -> In e (Pyvis.net_edges net) ->
     Pyvis.joins (Pyvis.e_from (mk x)) (Pyvis.e_to (mk x)) e = false) ->
  thread f l net
  = Done (Pyvis.mkNetwork (Pyvis.net_nodes net)
            (Pyvis.net_edges net ++ map mk l)).
Proof.
  revert net. induction l as [|x l IH]; intros net Hf Hn ND Ho Hj.
  - simpl. rewrite app_nil_r. now destruct net.
  - cbn [thread]. rewrite Hf by now left.
    destruct (Hn x (or_introl eq_refl)) as [N1 N2].
    unfold Pyvis.add_edge.
    rewrite (proj2 (mem_In _ _) N1), (proj2 (mem_In _ _) N2). cbn [negb].
    assert (J : existsb (Pyvis.joins (Pyvis.e_from (mk x)) (Pyvis.e_to (mk x)))
                        (Pyvis.net_edges net) = false).
    { destruct (existsb _ _) eqn:E; [|reflexivity].
      apply existsb_exists in E. destruct E as [e [He Je]].
      rewrite (Hj x e (or_introl eq_refl) He) in Je. discriminate. }
    rewrite J. cbn [bind]. inversion ND as [|? ? Hx ND']; subst.
    rewrite IH; cbn [Pyvis.net_nodes Pyvis.net_edges].
    + now rewrite <- app_assoc.
    + intros; apply Hf; now right.
    + intros y Hy. apply Hn. now right.
    + assumption.
    + intros y z Hy Hz. apply Ho; now right.
    + intros y e Hy He. apply in_app_iff in He.
      destruct He as [He|[<-|[]]].
      * apply Hj; [now right|assumption].
      * unfold Pyvis.joins.
        destruct (String.eqb (Pyvis.e_from (mk y)) (Pyvis.e_to (mk x))
                  && String.eqb (Pyvis.e_to (mk y)) (Pyvis.e_from (mk x))) eqn:E1.
        -- exfalso. apply andb_true_iff in E1. destruct E1 as [E1 E2].
           apply String.eqb_eq in E1, E2.
           pose proof (Ho y x (or_intror Hy) (or_introl eq_refl) E1 E2) as L.
           apply Hx. apply in_map_iff. exists y. split; [|assumption].
           f_equal; congruence.
        -- cbn [orb].
           destruct (String.eqb (Pyvis.e_from (mk y)) (Pyvis.e_from (mk x))
                     && String.eqb (Pyvis.e_to (mk y)) (Pyvis.e_to (mk x))) eqn:E2;
             [|reflexivity].
           exfalso. apply andb_true_iff in E2. destruct E2 as [E2 E3].
           apply String.eqb_eq in E2, E3.
           apply Hx. apply in_map_iff. exists y. split; [|assumption].
           f_equal; congruence.
Qed.

End ReportFacts.

(* ================================================================= *)
(** ** Reports on a shared-connections network *)

Module SharedReport.
Import Py PyFacts NX NXFacts SharedShape SharedFacts SharedMore Report ReportFacts.

Section Shape.
Variable prof_attr : Profile -> attrs.
Variable shared_attr : string -> attrs.
Hypothesis prof_attr_type :
  forall p a, get (update a (prof_attr p)) "node_type" = Some (VStr "professor").
Hypothesis shared_attr_type :
  forall c a, get (update a (shared_attr c)) "node_type"
              = Some (VStr "shared_coauthor").

Variable profiles : list (option Profile).
#[local] Abbreviation G := (build prof_attr shared_attr profiles).
#[local] Abbreviation pairs := (combinations2 (prof_coauthors profiles)).

Lemma node_kind n :
  In n (nodes G) ->
  node_type G n = Some (VStr "professor") \/
  node_type G n = Some (VStr "shared_coauthor").
Proof.
  intros H. apply has_node_In in H. rewrite has_node_closed in H.
  rewrite (node_type_build _ _ prof_attr_type shared_attr_type).
  destruct (existsb (fun pr : prof_pair => mem n (shared_of pr)) pairs);
    [now right|].
  simpl in H. rewrite H. now left.
Qed.

Lemma node_typed n :
  In n (nodes G) -> typed_professor G n = Done (is_professor G n).
Proof.
  intros H. destruct (node_kind n H) as [E|E];
    apply (typed_professor_kind _ _ _ E).
Qed.

Lemma not_professor_shared n :
  In n (nodes G) -> is_professor G n = false ->
  node_type G n = Some (VStr "shared_coauthor").
Proof.
  intros H E. destruct (node_kind n H) as [K|K]; [|assumption].
  unfold is_professor in E. rewrite K in E. discriminate.
Qed.

Lemma professor_edge_weighs u v :
  has_edge G u v = true -> professor_edge G (u, v) = true ->
  exists pr, find (weighs u v) (rev pairs) = Some pr.
Proof.
  intros H P. unfold professor_edge, is_professor in P. cbn [fst snd] in P.
  apply andb_true_iff in P. destruct P as [Pu Pv].
  apply CombinedFacts.is_str_true in Pu, Pv.
  rewrite has_edge_closed in H. apply existsb_exists in H.
  destruct H as [pr [Hin T]].
  assert (S : forall c, In c (shared_of pr) ->
                node_type G c = Some (VStr "shared_coauthor")).
  { intros c Hc.
    rewrite (node_type_build _ _ prof_attr_type shared_attr_type).
    assert (E : existsb (fun pr => mem c (shared_of pr)) pairs = true).
    { apply existsb_exists. exists pr. split; [assumption|now apply mem_In]. }
    now rewrite E. }
  assert (W : weighs u v pr = true).
  { apply touches_true in T. destruct T as [c [Hc T]].
    unfold weighs. apply andb_true_iff. split.
    - apply truthy_true. eauto.
    - destruct T as [T|[T|T]]; [assumption| |];
        apply same_edge_true in T; exfalso;
        pose proof (S c Hc) as K;
        destruct T as [[_ E]|[E _]]; rewrite <- E in *; congruence. }
  destruct (find (weighs u v) (rev pairs)) as [pr'|] eqn:F; [eauto|].
  pose proof (find_none _ _ F pr (proj1 (in_rev _ _) Hin)) as K.
  congruence.
Qed.

Lemma professor_edge_list u v :
  In (u, v) (edges G) -> professor_edge G (u, v) = true ->
  exists s, shared_coauthors G u v = Some (VList s) /\
            weight G u v = Some (VInt (len s)) /\ s <> [].
Proof.
  intros H P. apply In_edges_has_edge in H; [|apply wf_build].
  destruct (professor_edge_weighs u v H P) as [pr F].
  rewrite weight_closed, shared_coauthors_closed, F.
  exists (shared_of pr). repeat split.
  apply (found_pair profiles u v pr F).
Qed.


Lemma print_lines :
  N_report.print_shared_connections G
  = Done (N_report.heading :: List.concat (map (pair_block G) (edges G))).
Proof.
  unfold N_report.print_shared_connections.
  rewrite (for_each_map _ (pair_block G)); [reflexivity|].
  intros [u v] H.
  destruct (In_edges_nodes G u v (wf_build _ _ _) H) as [Hu Hv].
  rewrite (node_typed u Hu). cbn [bind]. unfold pair_block, professor_edge.
  cbn [fst snd]. destruct (is_professor G u) eqn:Pu; [|reflexivity].
  rewrite (node_typed v Hv). cbn [bind andb].
  destruct (is_professor G v) eqn:Pv; [|reflexivity].
  destruct (professor_edge_list u v H) as [s [Hs _]].
  { unfold professor_edge. cbn [fst snd]. now rewrite Pu, Pv. }
  rewrite Hs. unfold shared_coauthors, edge_get in Hs.
  destruct (edge_attr G u v) as [a|] eqn:Ea; [|discriminate].
  rewrite (edge_item_attr _ _ _ _ Ea). cbn [bind]. unfold item.
  rewrite Hs. reflexivity.
Qed.

Lemma print_rows :
  Final_1_report.print_shared_connections G
  = let rows := List.concat (map (pair_rows G) (edges G)) in
    let lines := N_report.heading
                   :: List.concat (map (pair_block G) (edges G)) in
    match rows with
    | [] => Done (lines, rows, None)
    | _ :: _ =>
        Done (lines ++ ["Shared coauthor data saved to network_visualizations/shared_coauthors.csv"],
              rows, Some rows)
    end.
Proof.
  unfold Final_1_report.print_shared_connections.
  rewrite (for_each_map _ (fun e => (pair_block G e, pair_rows G e))).
  - cbn [bind]. rewrite !map_map. cbn [fst snd]. reflexivity.
  - intros [u v] H.
    destruct (In_edges_nodes G u v (wf_build _ _ _) H) as [Hu Hv].
    rewrite (node_typed u Hu). cbn [bind].
    unfold pair_block, pair_rows, professor_edge.
    cbn [fst snd]. destruct (is_professor G u) eqn:Pu; [|reflexivity].
    rewrite (node_typed v Hv). cbn [bind andb].
    destruct (is_professor G v) eqn:Pv; [|reflexivity].
    destruct (professor_edge_list u v H) as [s [Hs _]].
    { unfold professor_edge. cbn [fst snd]. now rewrite Pu, Pv. }
    rewrite Hs. unfold shared_coauthors, edge_get in Hs.
    destruct (edge_attr G u v) as [a|] eqn:Ea; [|discriminate].
    rewrite (edge_item_attr _ _ _ _ Ea). cbn [bind]. unfold item.
    rewrite Hs. reflexivity.
Qed.

Lemma edge_weight_or_1 e :
  In e (edges G) ->
  bind (edge_item G (fst e) (snd e)) (fun a =>
  Done (get_default a "weight" (VInt 1))) = Done (weight_or_1 G e).
Proof.
  destruct e as [u v]. intros H. cbn [fst snd].
  destruct (In_edges_attr G u v (wf_build _ _ _) H) as [a Ea].
  rewrite (edge_item_attr _ _ _ _ Ea). cbn [bind].
  unfold weight_or_1, weight, edge_get, get_default. cbn [fst snd].
  now rewrite Ea.
Qed.

Lemma nonempty_nodes :
  edges G <> [] -> (number_of_nodes G =? 0)%nat = false.
Proof.
  intros H. apply Nat.eqb_neq. intros E. apply H.
  now apply no_nodes_no_edges; [apply wf_build|].
Qed.

Lemma visualize_figure :
  N_report.visualize_shared_network (Some G)
  = match edges G with
    | [] => Done ([N_report.no_shared_connections], None)
    | _ :: _ => Done ([], Some (shared_figure G))
    end.
Proof.
  unfold N_report.visualize_shared_network, falsy, number_of_edges.
  destruct (edges G) as [|e0 es] eqn:E.
  - cbn [List.length Nat.eqb]. now rewrite orb_true_r.
  - rewrite nonempty_nodes by (rewrite E; discriminate).
    cbn [List.length Nat.eqb orb]. rewrite <- E.
    rewrite (for_each_map _
               (fun n => if is_professor G n then ("red", 3000)
                         else ("lightgreen", 1000))).
    2:{ intros n Hn. rewrite (node_typed n Hn). reflexivity. }
    cbn [bind].
    rewrite (for_each_map _ (weight_or_1 G)).
    2:{ intros [u v] H. apply (edge_weight_or_1 (u, v) H). }
    cbn [bind]. unfold shared_figure. rewrite !map_map.
    do 3 f_equal. f_equal.
    + apply map_ext. intros n. now destruct (is_professor G n).
    + apply map_ext. intros n. now destruct (is_professor G n).
Qed.

Variable str : value -> string.


End Shape.

End SharedReport.

Section SharedReportProperties.
Import Py PyFacts NX NXFacts SharedShape SharedFacts SharedMore Report
       ReportFacts SharedReport.

Lemma shared_edges_nil pa sa profiles :
  NoDup (professor_names profiles) ->
  edges (build pa sa profiles) = [] <-> forall n, ~ shared_name profiles n.
Proof.
  intros Hnd. rewrite edges_nil_has_edge by apply wf_build. split.
  - intros H n [p [q [Hp [Hq [Hne [H1 H2]]]]]].
    assert (E : has_edge (build pa sa profiles) (name p) (name q) = true).
    { apply (shared_edges pa sa profiles Hnd). exists p, q, n. auto 10. }
    now rewrite H in E.
  - intros H u v. destruct (has_edge _ u v) eqn:E; [|reflexivity].
    apply (shared_edges pa sa profiles Hnd) in E.
    destruct E as [p [q [c [Hp [Hq [Hne [H1 [H2 _]]]]]]]].
    exfalso. apply (H c). exists p, q. auto.
Qed.

(** [print_shared_connections] of [N.py] never fails on a graph of
    [find_shared_connections], although it reads ['shared_coauthors']
    unguarded: an edge between two professor nodes always carries the list.
    After the heading it prints, for each such edge in the order of
    [G.edges()], the number of shared coauthors, which is the weight of the
    edge, and one line per shared coauthor. *)
Theorem N_print_shared_connections_report profiles :
  let G := N.find_shared_connections profiles in
  N_report.print_shared_connections G
  = Done (N_report.heading :: List.concat (map (pair_block G) (edges G))) /\
  (forall u v, In (u, v) (edges G) -> professor_edge G (u, v) = true ->
     exists s, shared_coauthors G u v = Some (VList s) /\
               weight G u v = Some (VInt (len s)) /\ s <> []).
Proof.
  intros G. unfold G. rewrite N_shape. split.
  - apply (print_lines _ _ N_prof_attr_type N_shared_attr_type).
  - apply (professor_edge_list _ _ N_prof_attr_type N_shared_attr_type).
Qed.

(** [print_shared_connections] of [Final/1.py] never fails on a graph of
    [find_shared_connections]: it prints the same lines as the one of
    [N.py], collects one row (professor, professor, coauthor) per shared
    coauthor of each edge between two professors, and writes the CSV file
    exactly when there is such a row. *)
Theorem Final_1_print_shared_connections_report profiles :
  let G := Final_1.find_shared_connections profiles in
  let rows := List.concat (map (pair_rows G) (edges G)) in
  let lines := N_report.heading
                 :: List.concat (map (pair_block G) (edges G)) in
  Final_1_report.print_shared_connections G
  = match rows with
    | [] => Done (lines, rows, None)
    | _ :: _ =>
        Done (lines ++ ["Shared coauthor data saved to network_visualizations/shared_coauthors.csv"],
              rows, Some rows)
    end /\
  (forall u v, In (u, v) (edges G) -> professor_edge G (u, v) = true ->
     exists s, shared_coauthors G u v = Some (VList s) /\
               weight G u v = Some (VInt (len s)) /\ s <> []).
Proof.
  intros G. unfold G. rewrite Final_1_shape. split.
  - apply (print_rows _ _ Final_1_prof_attr_type Final_1_shared_attr_type).
  - apply (professor_edge_list _ _ Final_1_prof_attr_type
             Final_1_shared_attr_type).
Qed.

(** [visualize_shared_network] of [N.py] on a graph of
    [find_shared_connections] (professor names pairwise distinct): it never
    fails; it prints "No shared connections found between professors" and
    draws nothing exactly when no two professors have a coauthor in common;
    otherwise it draws every node, red for a professor and light green for a
    shared coauthor, and every edge with its weight as width, 1 for the
    edges to a shared coauthor. *)
Theorem N_visualize_shared_network_report profiles :
  NoDup (professor_names profiles) ->
  let G := N.find_shared_connections profiles in
  ((forall n, ~ shared_name profiles n) ->
   N_report.visualize_shared_network (Some G)
   = Done ([N_report.no_shared_connections], None)) /\
  ((exists n, shared_name profiles n) ->
   N_report.visualize_shared_network (Some G)
   = Done ([], Some (shared_figure G))) /\
  (forall n, In n (nodes G) -> is_professor G n = false ->
             node_type G n = Some (VStr "shared_coauthor")).
Proof.
  intros Hnd G. unfold G. rewrite N_shape.
  rewrite (visualize_figure _ _ N_prof_attr_type N_shared_attr_type).
  pose proof (shared_edges_nil N_prof_attr N_shared_attr profiles Hnd) as E.
  split; [|split].
  - intros H. apply E in H. now rewrite H.
  - intros [n H].
    destruct (edges (build N_prof_attr N_shared_attr profiles)) eqn:Ed;
      [|reflexivity].
    exfalso. apply (proj1 E eq_refl n H).
  - apply (not_professor_shared _ _ N_prof_attr_type N_shared_attr_type).
Qed.

Lemma N_visualize_shared_network_report_witness :
  let profiles := [profile_of "P" ["A"]; profile_of "Q" ["A"]] in
  let G := N.find_shared_connections profiles in
  N_report.visualize_shared_network (Some G)
  = Done ([], Some (N_report.mkFigure
                      ["red"; "red"; "lightgreen"] [3000; 3000; 1000]
                      (Some [VInt 1; VInt 1; VInt 1])
                      "Shared Connections Between Professors"
                      "shared_connections_network.png")).
Proof.
  intros profiles G.
  refine (proj1 (proj2 (N_visualize_shared_network_report profiles _)) _).
  - simpl. repeat constructor; simpl; intuition discriminate.
  - exists "A", (mkProfile "P" "" "" [mkCoauthor "A"]),
           (mkProfile "Q" "" "" [mkCoauthor "A"]).
    simpl. intuition discriminate.
Defined.



End SharedReportProperties.

(* ================================================================= *)
(** ** Reports on a combined network *)

Module CombinedReport.
Import Py PyFacts NX NXFacts CombinedShape CombinedFacts CombinedMore Report
       ReportFacts.

Section Combined.
Variable profiles : list (option Profile).
#[local] Abbreviation G1 := (merged profiles).
#[local] Abbreviation Gc := (Final_main.create_combined_network profiles).

Lemma node_group n :
  In n (nodes Gc) ->
  group Gc n = Some (VStr "professor") \/
  group Gc n = Some (VStr "coauthor") \/
  group Gc n = Some (VStr "shared_coauthor").
Proof.
  intros H. apply has_node_In in H.
  rewrite (inv_nodes _ _ _ (combined_inv profiles)), has_node_merged in H.
  rewrite group_combined_closed.
  destruct (fires G1 n); [auto|].
  destruct (mem n (professor_names profiles)); [auto|].
  simpl in H. rewrite H. auto.
Qed.

Lemma node_color_known n :
  In n (nodes Gc) ->
  In (group_color Gc n) ["#e41a1c"; "#377eb8"; "#4daf4a"].
Proof.
  intros H. unfold group_color.
  destruct (node_group n H) as [E|[E|E]]; rewrite E; simpl; auto.
Qed.

Lemma node_drawn n :
  In n (nodes Gc) ->
  bind (item (_node Gc) n) (fun a =>
  let group := get_default a "group" (VStr "default") in
  bind (Final_main_report.color_of group) (fun color =>
  Done (Pyvis.mkNode n n (get_default a "title" (VStr n)) (Some group)
          (Some color) (get_default a "size" (VInt 15)))))
  = Done (combined_node_drawn Gc n).
Proof.
  intros H. assert (Hg : exists a, get (_node Gc) n = Some a)
    by now apply get_Some_keys.
  destruct Hg as [a Ea]. unfold item, combined_node_drawn, node_attr.
  rewrite Ea. cbn [bind attrs_or_empty]. unfold group_color.
  destruct (node_group n H) as [E|[E|E]]; rewrite E;
    unfold group, node_get, node_attr in E; rewrite Ea in E;
    unfold get_default; rewrite E; reflexivity.
Qed.

Lemma grouped n :
  In n (nodes Gc) ->
  Final_main_report.grouped_professor Gc n
  = Done (is_str (group Gc n) "professor").
Proof.
  intros H. assert (Hg : exists a, get (_node Gc) n = Some a)
    by now apply get_Some_keys.
  destruct Hg as [a Ea]. unfold Final_main_report.grouped_professor, item.
  rewrite Ea. cbn [bind]. unfold group, node_get, node_attr. rewrite Ea.
  destruct (get a "group") as [g|]; [|reflexivity].
  now rewrite value_eqb_is_str.
Qed.

Lemma edge_grouped e :
  In e (edges Gc) ->
  bind (Final_main_report.grouped_professor Gc (fst e)) (fun b1 =>
  bind (if b1 then Final_main_report.grouped_professor Gc (snd e)
        else Done false) (fun b2 => Done b2))
  = Done (grouped_professors Gc e).
Proof.
  destruct e as [u v]. intros H.
  destruct (In_edges_nodes Gc u v (wf_combined profiles) H) as [Hu Hv].
  cbn [fst snd]. rewrite (grouped u Hu). cbn [bind].
  unfold grouped_professors. cbn [fst snd].
  destruct (is_str (group Gc u) "professor"); [|reflexivity].
  now rewrite (grouped v Hv).
Qed.

Lemma shared_value u v :
  shared_coauthors Gc u v = None \/
  exists l, shared_coauthors Gc u v = Some (VList l).
Proof.
  rewrite shared_combined.
  destruct (0 <? total G1 (nodes G1) u v)%nat; eauto.
Qed.

Lemma edge_members u v a :
  edge_attr Gc u v = Some a ->
  members (get_default a "shared_coauthors" (VList []))
  = Done (shared_list Gc (u, v)).
Proof.
  intros Ea. unfold shared_list. cbn [fst snd].
  destruct (shared_value u v) as [E|[l E]]; rewrite E;
    unfold shared_coauthors, edge_get in E; rewrite Ea in E;
    unfold get_default; rewrite E; reflexivity.
Qed.

Lemma edge_drawn net e :
  In e (edges Gc) ->
  (let '(source, target) := e in
   bind (edge_item Gc source target) (fun a =>
   let weight := get_default a "weight" (VInt 1) in
   bind (Final_main_report.grouped_professor Gc source) (fun b1 =>
   bind (if b1 then Final_main_report.grouped_professor Gc target
         else Done false) (fun b2 =>
   if b2 then
     bind (members (get_default a "shared_coauthors" (VList []))) (fun l =>
     Pyvis.add_edge net
       (Pyvis.mkEdge source target None
          (Some (Final_main_report.times3 weight))
          (Some ("Shared coauthors: " ++ String.concat ", " l)%string)
          (Some "#ff9900")))
   else
     Pyvis.add_edge net
       (Pyvis.mkEdge source target None (Some (VInt 1)) (Some "")
          (Some "#999999"))))))
  = Pyvis.add_edge net (combined_edge_drawn Gc e).
Proof.
  destruct e as [u v]. intros H.
  destruct (In_edges_attr Gc u v (wf_combined profiles) H) as [a Ea].
  rewrite (edge_item_attr _ _ _ _ Ea). cbn [bind].
  pose proof (edge_grouped (u, v) H) as P. cbn [fst snd] in P.
  destruct (Final_main_report.grouped_professor Gc u) as [b1|];
    [|discriminate].
  cbn [bind] in *.
  destruct (if b1 then Final_main_report.grouped_professor Gc v
            else Done false) as [b2|]; [|discriminate].
  cbn [bind] in *. injection P as ->. unfold combined_edge_drawn.
  destruct (grouped_professors Gc (u, v)); [|reflexivity].
  rewrite (edge_members u v a Ea). cbn [bind fst snd].
  unfold weight_or_1, weight, edge_get, get_default. cbn [fst snd].
  rewrite Ea. reflexivity.
Qed.

Lemma endpoints e :
  Pyvis.e_from (combined_edge_drawn Gc e) = fst e /\
  Pyvis.e_to (combined_edge_drawn Gc e) = snd e.
Proof. unfold combined_edge_drawn. now destruct (grouped_professors Gc e). Qed.

Lemma combined_visualize_network :
  Final_main_report.visualize_combined_network (Some Gc)
  = match nodes Gc with
    | [] => Done None
    | _ :: _ =>
        Done (Some (Pyvis.mkNetwork (map (combined_node_drawn Gc) (nodes Gc))
                      (map (combined_edge_drawn Gc) (edges Gc)),
                    "combined_network.html"))
    end.
Proof.
  unfold Final_main_report.visualize_combined_network, falsy, number_of_nodes.
  assert (L : List.length (_node Gc) = List.length (nodes Gc)).
  { unfold nodes, keys. now rewrite length_map. }
  rewrite L. destruct (nodes Gc) as [|n0 ns] eqn:E; [reflexivity|].
  cbn [List.length Nat.eqb]. rewrite <- E.
  rewrite (for_each_map _ (combined_node_drawn Gc)) by apply node_drawn.
  cbn [bind].
  destruct (get_nodes_add_nodes (map (combined_node_drawn Gc) (nodes Gc))
              Pyvis.empty) as [N1 N2].
  { rewrite map_map. cbn [Pyvis.n_id combined_node_drawn]. rewrite map_id.
    apply (wf_nodup _ (wf_combined profiles)). }
  { intros n _ []. }
  set (net := fold_left Pyvis.add_node _ Pyvis.empty) in *.
  assert (Ids : Pyvis.get_nodes net = nodes Gc).
  { unfold Pyvis.get_nodes. rewrite N1. cbn [Pyvis.net_nodes Pyvis.empty app].
    rewrite map_map. cbn [Pyvis.n_id combined_node_drawn]. apply map_id. }
  rewrite (add_edges_all (combined_edge_drawn Gc)).
  - cbn [bind]. rewrite N1, N2. reflexivity.
  - intros net' e He. apply (edge_drawn net' e He).
  - intros [u v] He. rewrite Ids. destruct (endpoints (u, v)) as [-> ->].
    apply (In_edges_nodes Gc u v (wf_combined profiles) He).
  - assert (M : map (fun x => (Pyvis.e_from (combined_edge_drawn Gc x),
                               Pyvis.e_to (combined_edge_drawn Gc x)))
                    (edges Gc) = edges Gc).
    { rewrite <- (map_id (edges Gc)) at 2. apply map_ext.
      intros [u v]. now destruct (endpoints (u, v)) as [-> ->]. }
    rewrite M. apply NoDup_edges, wf_combined.
  - intros [u v] [u' v'] Hx Hy.
    destruct (endpoints (u, v)) as [-> ->], (endpoints (u', v')) as [-> ->].
    cbn [fst snd]. intros -> ->. apply (edges_oriented Gc v' u'); assumption.
  - intros x e _ He. rewrite N2 in He. destruct He.
Qed.

Lemma combined_print_lines :
  Final_main_report.print_shared_connections Gc
  = Done (N_report.heading
            :: List.concat (map (combined_pair_block Gc) (edges Gc))).
Proof.
  unfold Final_main_report.print_shared_connections.
  rewrite (for_each_map _ (combined_pair_block Gc)); [reflexivity|].
  intros [u v] H.
  destruct (In_edges_attr Gc u v (wf_combined profiles) H) as [a Ea].
  rewrite (edge_item_attr _ _ _ _ Ea). cbn [bind].
  pose proof (edge_grouped (u, v) H) as P. cbn [fst snd] in P.
  destruct (Final_main_report.grouped_professor Gc u) as [b1|];
    [|discriminate].
  cbn [bind] in *.
  destruct (if b1 then Final_main_report.grouped_professor Gc v
            else Done false) as [b2|]; [|discriminate].
  cbn [bind] in *. injection P as ->. unfold combined_pair_block.
  destruct (grouped_professors Gc (u, v)); [|reflexivity]. cbn [fst snd].
  destruct (shared_value u v) as [E|[l E]]; rewrite E;
    unfold shared_coauthors, edge_get in E; rewrite Ea in E; rewrite E;
    reflexivity.
Qed.

End Combined.

End CombinedReport.

Section CombinedReportProperties.
Import Py PyFacts NX NXFacts CombinedShape CombinedFacts CombinedMore Report
       ReportFacts CombinedReport.

Variable profiles : list (option Profile).
#[local] Abbreviation Gc := (Final_main.create_combined_network profiles).

(** [visualize_combined_network] on the graph of [create_combined_network],
    for every input: it never fails; it returns without drawing exactly when
    no profile was fetched; otherwise every node is handed to [add_node] with
    one of the three colours of [color_map], never the fallback, and every
    edge of [G.edges()] is added, none dropped: orange with three times the
    weight as width between two professors, grey with width 1 otherwise. *)
Theorem Final_main_visualize_combined_network_report :
  Final_main_report.visualize_combined_network (Some Gc)
  = match nodes Gc with
    | [] => Done None
    | _ :: _ =>
        Done (Some (Pyvis.mkNetwork (map (combined_node_drawn Gc) (nodes Gc))
                      (map (combined_edge_drawn Gc) (edges Gc)),
                    "combined_network.html"))
    end /\
  (nodes Gc = [] <-> fetched profiles = []) /\
  (forall n, In n (nodes Gc) ->
             In (group_color Gc n) ["#e41a1c"; "#377eb8"; "#4daf4a"]).
Proof.
  split; [apply combined_visualize_network|]. split; [|apply node_color_known].
  split.
  - intros E. destruct (fetched profiles) as [|p l] eqn:F; [reflexivity|].
    assert (H : In (name p) (nodes Gc)).
    { apply has_node_In, has_node_combined. left.
      unfold professor_names. rewrite F. now left. }
    rewrite E in H. destruct H.
  - intros F. destruct (nodes Gc) as [|n l] eqn:E; [reflexivity|].
    assert (H : In n (nodes Gc)) by (rewrite E; now left).
    apply has_node_In, has_node_combined in H.
    unfold professor_names in H. rewrite F in H.
    destruct H as [[]|[p [[] _]]].
Qed.

(** [print_shared_connections] of [Final/main.py] on the graph of
    [create_combined_network], for every input: it never fails; after the
    heading it prints, for each edge between two professors that carries a
    list of shared coauthors, the length of the list and its members; and
    every list of shared coauthors sits on an edge between two professors,
    so none goes unprinted. *)
Theorem Final_main_print_shared_connections_report :
  Final_main_report.print_shared_connections Gc
  = Done (N_report.heading
            :: List.concat (map (combined_pair_block Gc) (edges Gc))) /\
  (forall u v, shared_coauthors Gc u v <> None ->
               has_edge Gc u v = true /\ grouped_professors Gc (u, v) = true).
Proof.
  split; [apply combined_print_lines|].
  intros u v H. rewrite shared_combined in H.
  destruct (Nat.ltb_spec 0 (total (merged profiles) (nodes (merged profiles))
                              u v)) as [T|T]; [|congruence].
  split.
  - rewrite has_edge_combined_closed.
    rewrite (proj2 (Nat.ltb_lt _ _) T). apply orb_true_r.
  - apply total_listed in T. destruct T as [_ [x [_ [Hu Hv]]]].
    unfold grouped_professors. cbn [fst snd].
    apply listed_professor in Hu, Hv.
    rewrite (combined_professor profiles u Hu),
      (combined_professor profiles v Hv). reflexivity.
Qed.

End CombinedReportProperties.

(* ================================================================= *)
(** ** Reports on an individual network *)

Module IndividualReport.
Import Py PyFacts NX NXFacts IndividualShape IndividualFacts StarShape StarFacts
       StatisticsFacts Report ReportFacts.

Section Attr.
Variable prof_attr : Profile -> attrs.
Variable coauthor_attr : string -> attrs.
Variable key : string.
Variable of_prof : Profile -> value.
Variable of_coauthor : string -> value.
Hypothesis prof_value :
  forall p a, get (update a (prof_attr p)) key = Some (of_prof p).
Hypothesis coauthor_value :
  forall c a, get (update a (coauthor_attr c)) key = Some (of_coauthor c).

Lemma attr_steps prof l G n :
  has_node G prof = true ->
  node_get (fold_left (step coauthor_attr prof) l G) n key
  = if mem n l then Some (of_coauthor n) else node_get G n key.
Proof.
  revert G. induction l as [|c l IH]; intros G Hp; [reflexivity|].
  cbn [fold_left]. rewrite IH.
  2:{ unfold step. rewrite has_node_add_edge, String.eqb_refl. reflexivity. }
  unfold step. unfold node_get at 1.
  rewrite node_attr_add_edge_existing
    by (rewrite has_node_add_node, ?Hp, ?String.eqb_refl, ?orb_true_r;
        reflexivity).
  fold (node_get (add_node G c (coauthor_attr c)) n key).
  rewrite node_get_add_node, coauthor_value. unfold mem. cbn [existsb].
  rewrite (String.eqb_sym n c).
  destruct (String.eqb c n) eqn:E, (existsb (String.eqb n) l); try reflexivity.
  apply String.eqb_eq in E. now subst.
Qed.

Lemma attr_build p n :
  node_get (build prof_attr coauthor_attr p) n key
  = if mem n (coauthor_names p) then Some (of_coauthor n)
    else if String.eqb (name p) n then Some (of_prof p) else None.
Proof.
  unfold build. rewrite attr_steps.
  2:{ rewrite has_node_add_node, String.eqb_refl. reflexivity. }
  rewrite node_get_add_node, prof_value.
  destruct (mem n (coauthor_names p)); [reflexivity|].
  destruct (String.eqb (name p) n); reflexivity.
Qed.
End Attr.

Lemma node_item_dict G n a :
  get (_node G) n = Some a -> item (_node G) n = Done a.
Proof. unfold item. now intros ->. Qed.

Lemma node_get_dict G n a key :
  get (_node G) n = Some a -> node_get G n key = get a key.
Proof. unfold node_get, node_attr. now intros ->. Qed.

Lemma get_default_Some {V} (d : dict V) k v dflt :
  get d k = Some v -> get_default d k dflt = v.
Proof. unfold get_default. now intros ->. Qed.

(** adding the spokes of a star to a network that has its nodes *)
Lemma add_spokes prof S nodes :
  ~ In prof S -> NoDup S ->
  (forall c, In c (prof :: S) -> In c (map Pyvis.n_id nodes)) ->
  thread (fun net e =>
            Pyvis.add_edge net
              (Pyvis.mkEdge (fst e) (snd e) None None None None))
         (map (pair prof) S)
         (Pyvis.mkNetwork nodes [])
  = Done (Pyvis.mkNetwork nodes
            (map (fun c => Pyvis.mkEdge prof c None None None None) S)).
Proof.
  intros Hp ND F.
  rewrite (add_edges_all
             (fun e => Pyvis.mkEdge (fst e) (snd e) None None None None)).
  - cbn [Pyvis.net_nodes Pyvis.net_edges app]. now rewrite map_map.
  - reflexivity.
  - intros [u v] H. apply in_map_iff in H. destruct H as [c [[= <- <-] Hc]].
    cbn. unfold Pyvis.get_nodes. cbn [Pyvis.net_nodes].
    split; apply F; [now left|now right].
  - rewrite map_map. cbn. now apply NoDup_map_pair.
  - intros [u v] [u' v'] Hx Hy. cbn.
    apply in_map_iff in Hx, Hy.
    destruct Hx as [c [[= <- <-] Hc]], Hy as [c' [[= <- <-] Hc']].
    intros E _. exfalso. apply Hp. now rewrite E.
  - intros x e _ [].
Qed.

End IndividualReport.

Section IndividualReportProperties.
Import Py PyFacts NX NXFacts IndividualShape IndividualFacts StarShape StarFacts
       StatisticsFacts Report ReportFacts IndividualReport.

Variable p : Profile.
Hypothesis no_self : ~ In (name p) (coauthor_names p).
#[local] Abbreviation S := (set_of (coauthor_names p)).

Lemma mem_professor : mem (name p) (coauthor_names p) = false.
Proof. now apply mem_false. Qed.

Lemma mem_coauthor c : In c S -> mem c (coauthor_names p) = true.
Proof. intros H. apply mem_In. now apply In_set_of. Qed.

Lemma star_nonempty pa ca :
  (number_of_nodes (build pa ca p) =? 0)%nat = false.
Proof.
  unfold number_of_nodes. rewrite <- (length_map fst).
  change (map fst (_node (build pa ca p))) with (nodes (build pa ca p)).
  now rewrite (proj1 (star_build pa ca p no_self)).
Qed.

Lemma star_ids pa ca c :
  In c (name p :: S) -> exists a, get (_node (build pa ca p)) c = Some a.
Proof.
  intros H. apply get_Some_keys.
  change (In c (nodes (build pa ca p))).
  now rewrite (proj1 (star_build pa ca p no_self)).
Qed.

(** [visualize_individual_network] of [N.py] on the graph of
    [create_individual_network], for a profile that does not list its own
    name: it never fails and draws one red node of size 3000, the professor,
    followed by a light-blue node of size 1000 for each distinct coauthor;
    the file is named after the professor, spaces replaced by underscores. *)
Theorem N_visualize_individual_network_report :
  exists G,
    N.create_individual_network (Some p) = Some G /\
    N_report.visualize_individual_network (Some G) (name p)
    = Done (Some (N_report.mkFigure
                    ("red" :: map (fun _ => "lightblue") S)
                    (3000 :: map (fun _ => 1000) S)
                    None
                    ("Collaboration Network - " ++ name p)
                    ("individual_network_" ++ replace_spaces (name p)
                       ++ ".png"))).
Proof.
  rewrite N_individual. eexists. split; [reflexivity|].
  set (G := build N_prof_attr N_coauthor_attr p).
  unfold N_report.visualize_individual_network, falsy.
  rewrite (star_nonempty _ _ : (number_of_nodes G =? 0)%nat = false).
  assert (T : forall n, In n (nodes G) ->
                typed_professor G n
                = Done (negb (mem n (coauthor_names p)))).
  { intros n Hn. unfold G in Hn.
    rewrite (proj1 (star_build _ _ p no_self)) in Hn.
    assert (K : node_type G n
                = if mem n (coauthor_names p) then Some (VStr "coauthor")
                  else if String.eqb (name p) n then Some (VStr "professor")
                  else None).
    { apply (kind_build _ _ "node_type" SharedFacts.N_prof_attr_type
               N_coauthor_attr_type). }
    destruct Hn as [<-|Hn].
    - rewrite mem_professor, String.eqb_refl in K.
      rewrite (typed_professor_kind _ _ _ K). unfold is_professor.
      now rewrite K, mem_professor.
    - rewrite (mem_coauthor n Hn) in K.
      rewrite (typed_professor_kind _ _ _ K). unfold is_professor.
      now rewrite K, (mem_coauthor n Hn). }
  rewrite (for_each_map _ (fun n => if mem n (coauthor_names p)
                                    then "lightblue" else "red")).
  2:{ intros n Hn. rewrite (T n Hn). cbn [bind].
      now destruct (mem n (coauthor_names p)). }
  cbn [bind].
  rewrite (for_each_map _ (fun n => if mem n (coauthor_names p)
                                    then 1000 else 3000)).
  2:{ intros n Hn. rewrite (T n Hn). cbn [bind].
      now destruct (mem n (coauthor_names p)). }
  cbn [bind]. unfold G. rewrite (proj1 (star_build _ _ p no_self)).
  cbn [map]. rewrite mem_professor.
  do 3 f_equal; f_equal; apply map_ext_in; intros c Hc;
    now rewrite (mem_coauthor c Hc).
Qed.

(** [visualize_individual_network_pyvis] of [Final/1.py] on the graph of
    [create_individual_network], for a profile that does not list its own
    name: it never fails; the network has the professor, red and of size 30,
    then each distinct coauthor, blue and of size 20, with their titles, and
    one edge from the professor to each coauthor. *)
Theorem Final_1_visualize_individual_network_report :
  exists G,
    Final_1.create_individual_network (Some p) = Some G /\
    Final_1_report.visualize_individual_network_pyvis (Some G) (name p)
    = Done (Some (Pyvis.mkNetwork
                    (Pyvis.mkNode (name p) (name p)
                       (VStr (Final_1.professor_title (name p) (affiliation p)))
                       None (Some "#E41A1C") (VInt 30)
                     :: map (fun c => Pyvis.mkNode c c
                                        (VStr (c ++ "<br>Coauthor")) None
                                        (Some "#377EB8") (VInt 20)) S)
                    (map (fun c => Pyvis.mkEdge (name p) c None None None None)
                         S),
                  ("network_visualizations/individual_network_"
                     ++ replace_spaces (name p) ++ ".html")%string)).
Proof.
  rewrite Final_1_individual. eexists. split; [reflexivity|].
  set (G := build Final_1_prof_attr Final_1_coauthor_attr p).
  unfold Final_1_report.visualize_individual_network_pyvis, falsy.
  rewrite (star_nonempty _ _ : (number_of_nodes G =? 0)%nat = false).
  assert (K : forall n, node_type G n
                = if mem n (coauthor_names p) then Some (VStr "coauthor")
                  else if String.eqb (name p) n then Some (VStr "professor")
                  else None).
  { intros n. apply (kind_build _ _ "node_type"
                       SharedFacts.Final_1_prof_attr_type
                       Final_1_coauthor_attr_type). }
  assert (Ti : forall n, node_get G n "title"
                = if mem n (coauthor_names p)
                  then Some (VStr (n ++ "<br>Coauthor"))
                  else if String.eqb (name p) n
                       then Some (VStr (Final_1.professor_title (name p)
                                          (affiliation p)))
                       else None).
  { intros n.
    apply (attr_build _ _ "title"
             (fun p => VStr (Final_1.professor_title (name p) (affiliation p)))
             (fun c => VStr (c ++ "<br>Coauthor"))).
    - intros q a. now rewrite get_update.
    - intros c a. now rewrite get_update. }
  set (pn := fun n => Pyvis.mkNode n n
                       (VStr (Final_1.professor_title (name p) (affiliation p)))
                       None (Some "#E41A1C") (VInt 30)).
  set (cn := fun c => Pyvis.mkNode c c (VStr (c ++ "<br>Coauthor")) None
                        (Some "#377EB8") (VInt 20)).
  rewrite (for_each_map _ (fun n => if mem n (coauthor_names p) then cn n
                                    else pn n)).
  2:{ intros n Hn. unfold G in Hn.
      rewrite (proj1 (star_build _ _ p no_self)) in Hn.
      destruct (star_ids Final_1_prof_attr Final_1_coauthor_attr n Hn)
        as [a Ea].
      fold G in Ea. pose proof (K n) as Kn. pose proof (Ti n) as Tn.
      rewrite (node_get_dict G n a _ Ea) in Tn.
      destruct Hn as [<-|Hn].
      - rewrite mem_professor, String.eqb_refl in Kn, Tn.
        rewrite (node_item_get _ _ _ _ Kn), (node_item_dict _ _ _ Ea).
        cbn [bind]. rewrite (get_default_Some _ _ _ _ Tn), mem_professor.
        reflexivity.
      - rewrite (mem_coauthor n Hn) in Kn, Tn.
        rewrite (node_item_get _ _ _ _ Kn), (node_item_dict _ _ _ Ea).
        cbn [bind]. rewrite (get_default_Some _ _ _ _ Tn), (mem_coauthor n Hn).
        reflexivity. }
  cbn [bind]. unfold G.
  rewrite (proj1 (star_build _ _ p no_self)), (star_edges _ _ p no_self).
  cbn [map]. rewrite mem_professor.
  assert (M : map (fun n => if mem n (coauthor_names p) then cn n else pn n) S
              = map cn S).
  { apply map_ext_in. intros c Hc. now rewrite (mem_coauthor c Hc). }
  rewrite M.
  assert (ND : NoDup (name p :: S)).
  { constructor; [now rewrite In_set_of|apply NoDup_set_of]. }
  destruct (get_nodes_add_nodes (pn (name p) :: map cn S) Pyvis.empty) as [N1 N2].
  { cbn [map]. rewrite map_map. cbn. now rewrite map_id. }
  { intros n _ []. }
  set (net := fold_left Pyvis.add_node (pn (name p) :: map cn S) Pyvis.empty) in *.
  assert (E : net = Pyvis.mkNetwork (pn (name p) :: map cn S) []).
  { destruct net as [ns es]. cbn in N1, N2. now subst. }
  rewrite E, add_spokes.
  - reflexivity.
  - now rewrite In_set_of.
  - apply NoDup_set_of.
  - intros c Hc. cbn [map]. rewrite map_map. cbn. now rewrite map_id.
Qed.

(** [visualize_individual_network] of [Final/main.py] on the graph of
    [create_individual_network], for a profile that does not list its own
    name: it never fails; the network has the professor, of group professor
    and size 25, then each distinct coauthor, of group coauthor and size 15,
    and one edge from the professor to each coauthor; the file is named
    after the professor. *)
Theorem Final_main_visualize_individual_network_report :
  exists G,
    Final_main.create_individual_network (Some p) = Some G /\
    Final_main_report.visualize_individual_network (Some G) (name p)
    = Done (Some (Pyvis.mkNetwork
                    (Pyvis.mkNode (name p) (name p)
                       (VStr (name p ++ nl ++ affiliation p))
                       (Some (VStr "professor")) None (VInt 25)
                     :: map (fun c => Pyvis.mkNode c c (VStr c)
                                        (Some (VStr "coauthor")) None
                                        (VInt 15)) S)
                    (map (fun c => Pyvis.mkEdge (name p) c None None None None)
                         S),
                  ("individual_network_" ++ replace_spaces (name p)
                     ++ ".html")%string)).
Proof.
  rewrite Final_main_individual. eexists. split; [reflexivity|].
  set (G := build CombinedShape.professor_attr CombinedShape.coauthor_attr p).
  unfold Final_main_report.visualize_individual_network, falsy.
  rewrite (star_nonempty _ _ : (number_of_nodes G =? 0)%nat = false).
  assert (A : forall key fp fc,
             (forall q a, get (update a (CombinedShape.professor_attr q)) key
                          = Some (fp q)) ->
             (forall c a, get (update a (CombinedShape.coauthor_attr c)) key
                          = Some (fc c)) ->
             forall n, node_get G n key
                       = if mem n (coauthor_names p) then Some (fc n)
                         else if String.eqb (name p) n then Some (fp p)
                         else None).
  { intros key fp fc H1 H2 n. now apply attr_build. }
  pose proof (A "title" (fun q => VStr (name q ++ nl ++ affiliation q))
                (fun c => VStr c)
                (fun q a => eq_trans (get_update _ _ _) eq_refl)
                (fun c a => eq_trans (get_update _ _ _) eq_refl)) as Ti.
  pose proof (A "group" (fun _ => VStr "professor") (fun _ => VStr "coauthor")
                (fun q a => eq_trans (get_update _ _ _) eq_refl)
                (fun c a => eq_trans (get_update _ _ _) eq_refl)) as Gr.
  pose proof (A "size" (fun _ => VInt 25) (fun _ => VInt 15)
                (fun q a => eq_trans (get_update _ _ _) eq_refl)
                (fun c a => eq_trans (get_update _ _ _) eq_refl)) as Sz.
  set (pn := Pyvis.mkNode (name p) (name p)
               (VStr (name p ++ nl ++ affiliation p))
               (Some (VStr "professor")) None (VInt 25)).
  set (cn := fun c => Pyvis.mkNode c c (VStr c) (Some (VStr "coauthor")) None
                        (VInt 15)).
  rewrite (for_each_map _ (fun n => if mem n (coauthor_names p) then cn n
                                    else pn)).
  2:{ intros n Hn. unfold G in Hn.
      rewrite (proj1 (star_build _ _ p no_self)) in Hn.
      destruct (star_ids CombinedShape.professor_attr
                  CombinedShape.coauthor_attr n Hn) as [a Ea].
      fold G in Ea. pose proof (Ti n) as Tn. pose proof (Gr n) as Gn.
      pose proof (Sz n) as Sn.
      rewrite (node_get_dict G n a "title" Ea) in Tn.
      rewrite (node_get_dict G n a "group" Ea) in Gn.
      rewrite (node_get_dict G n a "size" Ea) in Sn.
      rewrite (node_item_dict _ _ _ Ea). cbn [bind].
      destruct Hn as [<-|Hn].
      - rewrite mem_professor, String.eqb_refl in Tn, Gn, Sn.
        rewrite (get_default_Some _ _ _ _ Tn), (get_default_Some _ _ _ _ Gn),
          (get_default_Some _ _ _ _ Sn), mem_professor.
        reflexivity.
      - rewrite (mem_coauthor n Hn) in Tn, Gn, Sn.
        rewrite (get_default_Some _ _ _ _ Tn), (get_default_Some _ _ _ _ Gn),
          (get_default_Some _ _ _ _ Sn), (mem_coauthor n Hn).
        reflexivity. }
  cbn [bind]. unfold G.
  rewrite (proj1 (star_build _ _ p no_self)), (star_edges _ _ p no_self).
  cbn [map]. rewrite mem_professor.
  assert (M : map (fun n => if mem n (coauthor_names p) then cn n else pn) S
              = map cn S).
  { apply map_ext_in. intros c Hc. now rewrite (mem_coauthor c Hc). }
  rewrite M.
  assert (ND : NoDup (name p :: S)).
  { constructor; [now rewrite In_set_of|apply NoDup_set_of]. }
  destruct (get_nodes_add_nodes (pn :: map cn S) Pyvis.empty) as [N1 N2].
  { cbn [map]. rewrite map_map. cbn. now rewrite map_id. }
  { intros n _ []. }
  set (net := fold_left Pyvis.add_node (pn :: map cn S) Pyvis.empty) in *.
  assert (E : net = Pyvis.mkNetwork (pn :: map cn S) []).
  { destruct net as [ns es]. cbn in N1, N2. now subst. }
  rewrite E, add_spokes.
  - reflexivity.
  - now rewrite In_set_of.
  - apply NoDup_set_of.
  - intros c Hc. cbn [map]. rewrite map_map. cbn. now rewrite map_id.
Qed.

End IndividualReportProperties.

Lemma N_visualize_individual_network_report_witness :
  exists G,
    N.create_individual_network (profile_of "A B" ["C"]) = Some G /\
    N_report.visualize_individual_network (Some G) "A B"
    = Report.Done (Some (N_report.mkFigure ["red"; "lightblue"] [3000; 1000]
                           None "Collaboration Network - A B"
                           "individual_network_A_B.png")).
Proof.
  apply (N_visualize_individual_network_report
           (mkProfile "A B" "" "" [mkCoauthor "C"])).
  simpl. intuition discriminate.
Defined.

Lemma Final_1_visualize_individual_network_report_witness :
  exists G,
    Final_1.create_individual_network (profile_of "A B" ["C"]) = Some G /\
    Final_1_report.visualize_individual_network_pyvis (Some G) "A B"
    = Report.Done
        (Some (Pyvis.mkNetwork
                 [Pyvis.mkNode "A B" "A B"
                    (VStr "A B<br>Professor<br>Affiliation: ") None
                    (Some "#E41A1C") (VInt 30);
                  Pyvis.mkNode "C" "C" (VStr "C<br>Coauthor") None
                    (Some "#377EB8") (VInt 20)]
                 [Pyvis.mkEdge "A B" "C" None None None None],
               "network_visualizations/individual_network_A_B.html")).
Proof.
  apply (Final_1_visualize_individual_network_report
           (mkProfile "A B" "" "" [mkCoauthor "C"])).
  simpl. intuition discriminate.
Defined.

Lemma Final_main_visualize_individual_network_report_witness :
  exists G,
    Final_main.create_individual_network (profile_of "A B" ["C"]) = Some G /\
    Final_main_report.visualize_individual_network (Some G) "A B"
    = Report.Done
        (Some (Pyvis.mkNetwork
                 [Pyvis.mkNode "A B" "A B" (VStr ("A B" ++ nl ++ ""))
                    (Some (VStr "professor")) None (VInt 25);
                  Pyvis.mkNode "C" "C" (VStr "C") (Some (VStr "coauthor"))
                    None (VInt 15)]
                 [Pyvis.mkEdge "A B" "C" None None None None],
               "individual_network_A_B.html")).
Proof.
  apply (Final_main_visualize_individual_network_report
           (mkProfile "A B" "" "" [mkCoauthor "C"])).
  simpl. intuition discriminate.
Defined.
